(** * WCAG contrast analysis and colour-vision-deficiency simulation

    A shallow embedding of three scripts of the accessibility tooling:

    - [automation/quick_wins/color_contrast_analyzer.py]
      (modules [ColorContrastAnalyzer], [ContrastReport],
      [TextDetection] and [PixelSampling] below),
    - [automation/quick_wins/colorblind_simulator.py]
      (modules [ColorBlindSimulator] and [SimulatorBatch] below), and
    - [automation/quick_wins/focus_indicator_detector.py]
      (module [FocusIndicatorDetector] below), which reuses the
      contrast calculator.

    Numeric conventions.  In the contrast analyzer and the focus
    detector Python [float] arithmetic is idealised: the luminance
    pipeline (which needs [** 2.4]) is carried out over the real
    numbers [R]; quantities that only involve decimal constants,
    products, sums and quotients (font sizes, pass rates) are carried
    out over the rationals [Q], where they can be evaluated.  The
    colour-blindness simulator writes bytes that depend on how its
    float64 operations round, so there the arithmetic is a
    collaborator of the program ([Float64]), with binary64 and
    rounding-free instances.  Python [int] values are [Z]. *)

From Stdlib Require Import ZArith QArith Qround Qminmax Qreals Reals Lra Lia.
From Stdlib Require Import List String Ascii Bool Sorted Permutation.
From Stdlib Require HexadecimalString DecimalString.
From Stdlib Require PrimFloat FloatOps SpecFloat Uint63.
Import ListNotations.

(* ################################################################# *)
(** * color_contrast_analyzer.py *)

Module ColorContrastAnalyzer.

(** An RGB tuple, as handed to [calculate_contrast_ratio]: the first
    three entries of the tuple ([rgb[:3]]). *)
Record Color : Type := mkColor { red : Z; green : Z; blue : Z }.

(** The data model's range for a channel: an 8-bit intensity. *)
Definition valid_channel (v : Z) : Prop := (0 <= v <= 255)%Z.

Definition valid_color (c : Color) : Prop :=
  valid_channel (red c) /\ valid_channel (green c) /\ valid_channel (blue c).

(** ** Python primitives used by the calculator *)

(** Float division [x / y]: raises [ZeroDivisionError] when [y] is
    zero; [None] stands for the raised exception. *)
Definition py_div (x y : R) : option R :=
  if Req_dec_T y 0 then None else Some (x / y)%R.

(** The builtin [max(a, b)]: the first argument is kept unless the
    second one is strictly greater. *)
Definition py_max (a b : R) : R := if Rgt_dec b a then b else a.

(** The builtin [min(a, b)]: the first argument is kept unless the
    second one is strictly smaller. *)
Definition py_min (a b : R) : R := if Rlt_dec b a then b else a.

(** [x ** y] on floats with a positive base.  (The calculator only
    reaches it with a base above [(0.03928 + 0.055) / 1.055], see
    [power_base_positive] below.) *)
Definition py_pow (x y : R) : R := Rpower x y.

(** [round(x, 2)]: to the nearest multiple of 1/100, ties to even. *)
Definition py_round2 (x : R) : R :=
  let y := (x * 100)%R in
  let f := Int_part y in
  let d := (y - IZR f)%R in
  let n := if Rlt_dec d (1 / 2) then f
           else if Rlt_dec (1 / 2) d then (f + 1)%Z
           else if Z.even f then f else (f + 1)%Z in
  (IZR n / 100)%R.

(** ** relative_luminance (lines 317-329) *)

Definition relative_luminance (rgb : Color) : R :=
  (* Normalize RGB values *)
  let r := (IZR (red rgb) / 255)%R in
  let g := (IZR (green rgb) / 255)%R in
  let b := (IZR (blue rgb) / 255)%R in
  (* Linearize RGB values *)
  let r := if Rle_dec r 0.03928 then (r / 12.92)%R
           else py_pow ((r + 0.055) / 1.055) 2.4 in
  let g := if Rle_dec g 0.03928 then (g / 12.92)%R
           else py_pow ((g + 0.055) / 1.055) 2.4 in
  let b := if Rle_dec b 0.03928 then (b / 12.92)%R
           else py_pow ((b + 0.055) / 1.055) 2.4 in
  (* Calculate luminance *)
  (0.2126 * r + 0.7152 * g + 0.0722 * b)%R.

(** ** calculate_contrast_ratio (lines 306-315) *)

Definition calculate_contrast_ratio (color1 color2 : Color) : option R :=
  let l1 := relative_luminance color1 in
  let l2 := relative_luminance color2 in
  let lighter := py_max l1 l2 in
  let darker := py_min l1 l2 in
  py_div (lighter + 0.05) (darker + 0.05).

(** ** The WCAG 2.1 algorithm, as the specification words it

    This second definition follows the four numbered steps of the
    specification; it is what [calculate_contrast_ratio] is compared
    with. *)

Definition wcag_linearize (c : R) : R :=
  if Rle_dec c 0.03928 then (c / 12.92)%R
  else Rpower ((c + 0.055) / 1.055) 2.4.

Definition wcag_luminance (c : Color) : R :=
  (0.2126 * wcag_linearize (IZR (red c) / 255)
   + 0.7152 * wcag_linearize (IZR (green c) / 255)
   + 0.0722 * wcag_linearize (IZR (blue c) / 255))%R.

Definition wcag_contrast_ratio (c1 c2 : Color) : R :=
  ((Rmax (wcag_luminance c1) (wcag_luminance c2) + 0.05)
   / (Rmin (wcag_luminance c1) (wcag_luminance c2) + 0.05))%R.

(** ** estimate_font_size (lines 331-336)

    [height_px * 0.75]; the product of an integer and 0.75 is exact in
    binary floating point, so the rational is the float. *)
Definition estimate_font_size (height_px : Z) : Q :=
  (inject_Z height_px * 0.75)%Q.

(** ** String helpers of [load_screenshots] *)

(** [str.lower] on the ASCII letters. *)
Definition lower_ascii (c : ascii) : ascii :=
  let n := nat_of_ascii c in
  if (65 <=? n)%nat && (n <=? 90)%nat then ascii_of_nat (n + 32) else c.

Fixpoint lower (s : string) : string :=
  match s with
  | EmptyString => EmptyString
  | String c rest => String (lower_ascii c) (lower rest)
  end.

(** [s.endswith(suffix)] for one suffix. *)
Definition endswith1 (s suffix : string) : bool :=
  let n := String.length s in
  let m := String.length suffix in
  (m <=? n)%nat && String.eqb (substring (n - m) m s) suffix.

(** [s.endswith(suffixes)] for a tuple of suffixes. *)
Definition endswith (s : string) (suffixes : list string) : bool :=
  existsb (endswith1 s) suffixes.

Definition valid_extensions : list string :=
  [".png"; ".jpg"; ".jpeg"; ".bmp"]%string.

(** ** Records of the report *)

(** A text region as [detect_text_regions_ocr] yields it. *)
Record Region : Type := mkRegion {
  text : string; x : Z; y : Z; w : Z; h : Z; conf : Z }.

(** A sampled colour pair as [sample_color_pairs] yields it. *)
Record ColorPair : Type := mkColorPair {
  pair_fg_color : Color; pair_bg_color : Color; pair_location : Z * Z }.

Inductive CheckType : Type := type_text | type_color_sample.

(** The dictionary returned by [check_text_contrast] and
    [check_color_pair_contrast].  Keys that only the text check sets
    are optional.  The colours are kept as tuples (the report prints
    them through [rgb_to_hex]). *)
Record ContrastCheck : Type := mkContrastCheck {
  type : CheckType;
  fg_color : Color;
  bg_color : Color;
  ratio : R;
  required : R;
  passes : bool;
  estimated_font_size : option Q;
  is_large_text : option bool;
  wcag_criterion : string;
  severity : string }.

(** [result['summary']] of [analyze_screenshot]. *)
Record Summary : Type := mkSummary {
  total_checks : Z;
  passed : Z;
  failed : Z;
  pass_rate : Q;
  wcag_compliant : bool }.

(** [result] of [analyze_screenshot]. *)
Record ScreenshotResult : Type := mkScreenshotResult {
  path : string;
  result_issues : list ContrastCheck;
  result_passed : list ContrastCheck;
  text_regions_found : option Z;
  summary : Summary }.

(** The dictionary returned by [get_summary]. *)
Record OverallSummary : Type := mkOverallSummary {
  screenshots_analyzed : Z;
  overall_total_checks : Z;
  total_passed : Z;
  total_failed : Z;
  overall_pass_rate : Q;
  overall_wcag_compliant : bool }.

(** The JSON document written by [save_report]. *)
Record Report : Type := mkReport {
  report_summary : OverallSummary;
  report_results : list ScreenshotResult }.

(** The two attributes of the analyzer object that the run uses. *)
Record Analyzer : Type := mkAnalyzer {
  screenshots : list string;
  contrast_results : list ScreenshotResult }.

(** What a run of [main] leaves behind: the report file, when one was
    written, and the exit status of the process. *)
Record Run : Type := mkRun {
  report : option (string * Report);
  exit_code : Z }.

(** ** The collaborators

    Everything the analyzer obtains from the operating system, PIL,
    numpy's sampling and the OCR engine.  [None] stands for a raised
    exception where the Python call can raise. *)
Record Env : Type := mkEnv {
  Img : Type;
  path_exists : string -> bool;                    (* os.path.exists *)
  os_listdir : string -> option (list string);     (* os.listdir *)
  path_join : string -> string -> string;          (* os.path.join *)
  Image_open : string -> option Img;               (* Image.open *)
  TESSERACT_AVAILABLE : bool;
  detect_text_regions_ocr : Img -> list Region;
  get_pixel_color : Img -> Z -> Z -> option Color;
  get_surrounding_color : Img -> Z -> Z -> Z -> option Color;
  sample_color_pairs : Img -> option (list ColorPair);
  capture_screenshot : option string;
  can_write : string -> bool;                      (* makedirs + open(.., 'w') *)
  default_output_path : string }.

Section Analysis.

Variable E : Env.

(** ** check_text_contrast (lines 232-275) *)

Definition check_text_contrast (img : Img E) (region : Region)
  : option ContrastCheck :=
  (* Get text color (sample from region) *)
  let cx := (x region + w region / 2)%Z in
  let cy := (y region + h region / 2)%Z in
  let fg_color := get_pixel_color E img cx cy in
  (* Get background color (surrounding area) *)
  let bg_color := get_surrounding_color E img cx cy (h region / 2 + 5)%Z in
  match fg_color, bg_color with
  | Some fg_color, Some bg_color =>
      (* Calculate contrast ratio *)
      match calculate_contrast_ratio fg_color bg_color with
      | None => None (* caught by the enclosing try *)
      | Some ratio =>
          (* Estimate if large text (based on height) *)
          let estimated_font_size := estimate_font_size (h region) in
          let is_large_text :=
            Qle_bool 18 estimated_font_size
            || Qle_bool 14 estimated_font_size (* Assume bold for now *) in
          let required_ratio := if is_large_text then 3.0%R else 4.5%R in
          let passes := if Rge_dec ratio required_ratio then true else false in
          Some {| type := type_text;
                  fg_color := fg_color;
                  bg_color := bg_color;
                  ratio := py_round2 ratio;
                  required := required_ratio;
                  passes := passes;
                  estimated_font_size := Some estimated_font_size;
                  is_large_text := Some is_large_text;
                  wcag_criterion := "1.4.3"%string;
                  severity := if negb passes then "HIGH"%string else "PASS"%string |}
      end
  | _, _ => None
  end.

(** ** check_color_pair_contrast (lines 277-304) *)

Definition check_color_pair_contrast (pair : ColorPair)
  : option ContrastCheck :=
  let fg_color := pair_fg_color pair in
  let bg_color := pair_bg_color pair in
  match calculate_contrast_ratio fg_color bg_color with
  | None => None
  | Some ratio =>
      (* For UI components, use 3:1 minimum *)
      let required_ratio := 3.0%R in
      let passes := if Rge_dec ratio required_ratio then true else false in
      Some {| type := type_color_sample;
              fg_color := fg_color;
              bg_color := bg_color;
              ratio := py_round2 ratio;
              required := required_ratio;
              passes := passes;
              estimated_font_size := None;
              is_large_text := None;
              wcag_criterion := "1.4.11"%string;
              severity := if negb passes then "MEDIUM"%string else "PASS"%string |}
  end.

(** ** analyze_screenshot (lines 73-143) *)

(** The body of both loops: a check that was produced is appended to
    [result['passed']] or to [result['issues']]. *)
Definition record_check (acc : list ContrastCheck * list ContrastCheck)
  (contrast_check : option ContrastCheck)
  : list ContrastCheck * list ContrastCheck :=
  let '(issues, passed) := acc in
  match contrast_check with
  | None => acc
  | Some c => if passes c then (issues, passed ++ [c])
              else (issues ++ [c], passed)
  end.

Definition summarize (issues passed : list ContrastCheck) : Summary :=
  let total_checks := (Z.of_nat (List.length issues) + Z.of_nat (List.length passed))%Z in
  {| total_checks := total_checks;
     passed := Z.of_nat (List.length passed);
     failed := Z.of_nat (List.length issues);
     pass_rate := if (total_checks >? 0)%Z
                  then (inject_Z (Z.of_nat (List.length passed))
                        / inject_Z total_checks * 100)%Q
                  else 0%Q;
     wcag_compliant := (Z.of_nat (List.length issues) =? 0)%Z |}.

(** Returns the analyzer's [contrast_results] after the call together
    with the returned value; [None] is Python's [None]. *)
Definition analyze_screenshot (results : list ScreenshotResult)
  (image_path : string)
  : list ScreenshotResult * option ScreenshotResult :=
  if negb (path_exists E image_path) then (results, None)
  else
    match Image_open E image_path with
    | None => (results, None)
    | Some img =>
        (* Method 1: Detect text regions using OCR (if available) *)
        let text_regions :=
          if TESSERACT_AVAILABLE E then detect_text_regions_ocr E img
          else [] in
        let found :=
          if TESSERACT_AVAILABLE E
          then Some (Z.of_nat (List.length text_regions)) else None in
        let acc :=
          fold_left (fun acc region =>
                       record_check acc (check_text_contrast img region))
                    text_regions ([], []) in
        (* Method 2: Sample dominant colors *)
        let sampled :=
          if negb (TESSERACT_AVAILABLE E)
             || (Z.of_nat (List.length text_regions) =? 0)%Z
          then
            match sample_color_pairs E img with
            | None => None
            | Some color_pairs =>
                Some (fold_left (fun acc pair =>
                        record_check acc (check_color_pair_contrast pair))
                      color_pairs acc)
            end
          else Some acc in
        match sampled with
        | None => (results, None)
        | Some (issues, passed) =>
            let result := {| path := image_path;
                             result_issues := issues;
                             result_passed := passed;
                             text_regions_found := found;
                             summary := summarize issues passed |} in
            (results ++ [result], Some result)
        end
    end.

(** ** load_screenshots (lines 61-71) and __init__ (lines 51-59) *)

(** [None]: [os.listdir] raised and the exception leaves the call. *)
Definition load_screenshots (a : Analyzer) (directory : string)
  : option Analyzer :=
  match os_listdir E directory with
  | None => None
  | Some files =>
      Some {| screenshots :=
                screenshots a
                ++ map (fun file => path_join E directory file)
                       (filter (fun file =>
                                  endswith (lower file) valid_extensions)
                               files);
              contrast_results := contrast_results a |}
  end.

Definition init (screenshot_dir : option string) : option Analyzer :=
  let self := {| screenshots := []; contrast_results := [] |} in
  match screenshot_dir with
  | Some d =>
      if negb (String.eqb d EmptyString) && path_exists E d
      then load_screenshots self d else Some self
  | None => Some self
  end.

(** ** analyze_all_screenshots (lines 342-357) *)

Definition analyze_all_screenshots (a : Analyzer) : Analyzer * bool :=
  match screenshots a with
  | [] => (a, false)
  | _ =>
      ({| screenshots := screenshots a;
          contrast_results :=
            fold_left (fun results screenshot =>
                         fst (analyze_screenshot results screenshot))
                      (screenshots a) (contrast_results a) |},
       true)
  end.

(** ** get_summary (lines 359-382) *)

(** The builtin [sum] over a generator of integers. *)
Definition py_sum (l : list Z) : Z := fold_left Z.add l 0%Z.

Definition get_summary (a : Analyzer) : OverallSummary :=
  match contrast_results a with
  | [] =>
      {| screenshots_analyzed := 0;
         overall_total_checks := 0;
         total_passed := 0;
         total_failed := 0;
         overall_pass_rate := 0;
         overall_wcag_compliant := false |}
  | _ =>
      let total_checks :=
        py_sum (map (fun r => total_checks (summary r)) (contrast_results a)) in
      let total_passed :=
        py_sum (map (fun r => passed (summary r)) (contrast_results a)) in
      let total_failed :=
        py_sum (map (fun r => failed (summary r)) (contrast_results a)) in
      {| screenshots_analyzed := Z.of_nat (List.length (contrast_results a));
         overall_total_checks := total_checks;
         total_passed := total_passed;
         total_failed := total_failed;
         overall_pass_rate :=
           if (total_checks >? 0)%Z
           then (inject_Z total_passed / inject_Z total_checks * 100)%Q
           else 0%Q;
         overall_wcag_compliant := (total_failed =? 0)%Z |}
  end.

(** ** save_report (lines 384-406)

    [None]: creating the directory or opening the file raised. *)
Definition save_report (a : Analyzer) (output_path : string)
  : option Report :=
  let report := {| report_summary := get_summary a;
                   report_results := contrast_results a |} in
  if can_write E output_path then Some report else None.

(** ** main (lines 443-499) *)

(** [sys.argv[i] if len(sys.argv) > i else None] *)
Definition argv_or_none (argv : list string) (i : nat) : option string :=
  nth_error argv i.

(** "Set default output path": [None] and the empty string are
    replaced by the default. *)
Definition resolve_output_path (output_path : option string) : string :=
  match output_path with
  | None => default_output_path E
  | Some p => if String.eqb p EmptyString then default_output_path E else p
  end.

(** From "Set default output path" to [sys.exit]. *)
Definition finish (analyzer : Analyzer) (output_path : option string) : Run :=
  let output_path := resolve_output_path output_path in
  match save_report analyzer output_path with
  | None =>
      (* uncaught exception: traceback, exit status 1 *)
      {| report := None; exit_code := 1 |}
  | Some r =>
      let summary := get_summary analyzer in
      {| report := Some (output_path, r);
         exit_code := if overall_wcag_compliant summary then 0 else 1 |}
  end.

Definition main (argv : list string) : Run :=
  match argv with
  | [] | [_] => {| report := None; exit_code := 1 |}
  | _ :: arg1 :: _ =>
      if String.eqb arg1 "--screenshot" then
        match argv_or_none argv 2 with
        | None => {| report := None; exit_code := 1 |}
        | Some screenshot_path =>
            let output_path := argv_or_none argv 3 in
            let analyzer := {| screenshots := [screenshot_path];
                               contrast_results := [] |} in
            finish (fst (analyze_all_screenshots analyzer)) output_path
        end
      else if String.eqb arg1 "--capture" then
        match capture_screenshot E with
        | None => {| report := None; exit_code := 1 |}
        | Some screenshot_path =>
            let output_path := argv_or_none argv 2 in
            let analyzer := {| screenshots := [screenshot_path];
                               contrast_results := [] |} in
            finish (fst (analyze_all_screenshots analyzer)) output_path
        end
      else
        let screenshot_dir := arg1 in
        let output_path := argv_or_none argv 2 in
        match init (Some screenshot_dir) with
        | None => {| report := None; exit_code := 1 |}
        | Some analyzer =>
            finish (fst (analyze_all_screenshots analyzer)) output_path
        end
  end.

(** The analyzer that [main] constructs and the output path it reads
    from the command line, before [analyze_all_screenshots] is called;
    [None] when [main] leaves earlier (usage error, failed capture, or
    an exception out of [os.listdir]). *)
Definition setup (argv : list string) : option (Analyzer * option string) :=
  match argv with
  | [] | [_] => None
  | _ :: arg1 :: _ =>
      if String.eqb arg1 "--screenshot" then
        match argv_or_none argv 2 with
        | None => None
        | Some screenshot_path =>
            Some ({| screenshots := [screenshot_path];
                     contrast_results := [] |}, argv_or_none argv 3)
        end
      else if String.eqb arg1 "--capture" then
        match capture_screenshot E with
        | None => None
        | Some screenshot_path =>
            Some ({| screenshots := [screenshot_path];
                     contrast_results := [] |}, argv_or_none argv 2)
        end
      else
        match init (Some arg1) with
        | None => None
        | Some analyzer => Some (analyzer, argv_or_none argv 2)
        end
  end.

End Analysis.

(** ** The result lists of a run *)

(** The values [self.contrast_results] can take: empty after
    [__init__], then whatever calls of [analyze_screenshot] leave. *)
Inductive reachable (E : Env) : list ScreenshotResult -> Prop :=
| reachable_init : reachable E []
| reachable_analyze (results : list ScreenshotResult) (image_path : string) :
    reachable E results ->
    reachable E (fst (analyze_screenshot E results image_path)).

(** A result whose summary was computed from its two lists. *)
Definition consistent (r : ScreenshotResult) : Prop :=
  summary r = summarize (result_issues r) (result_passed r).

(** ** Statements of the specification the analyzer is compared with *)

(** Large text as the specification words it: at least 18pt, or at
    least 14pt when the text is bold. *)
Definition wcag_large_text (font_size : Q) (bold : bool) : bool :=
  Qle_bool 18 font_size || (bold && Qle_bool 14 font_size).

Definition wcag_text_threshold (font_size : Q) (bold : bool) : R :=
  if wcag_large_text font_size bold then 3.0%R else 4.5%R.

(** "Some compliance check failed": a result of the written report
    lists an issue. *)
Definition some_check_failed (run : Run) : Prop :=
  exists out rep res,
    report run = Some (out, rep)
    /\ In res (report_results rep)
    /\ result_issues res <> [].

(** "An I/O error occurred": a screenshot of the run could not be
    found or opened, or the report could not be written, or the run
    ended before the analysis because no screenshot could be captured
    or the directory could not be listed. *)
Definition io_error_occurred (E : Env) (argv : list string) : Prop :=
  match setup E argv with
  | None =>
      exists prog arg1 rest,
        argv = prog :: arg1 :: rest /\ arg1 <> "--screenshot"%string
  | Some (analyzer, output_path) =>
      (exists p, In p (screenshots analyzer)
                 /\ (path_exists E p = false \/ Image_open E p = None))
      \/ can_write E (resolve_output_path E output_path) = false
  end.

(** The claimed exit status: non-zero exactly in those two cases. *)
Definition exit_code_claim : Prop :=
  forall (E : Env) (argv : list string),
    exit_code (main E argv) <> 0%Z
    <-> some_check_failed (main E argv) \/ io_error_occurred E argv.

(** ** Sample data *)

Definition white : Color := mkColor 255 255 255.
Definition black : Color := mkColor 0 0 0.
Definition gray118 : Color := mkColor 118 118 118.

(** A text region 20 pixels high: 15pt. *)
Definition region15pt : Region :=
  {| text := "Play"; x := 10; y := 10; w := 40; h := 20; conf := 90 |}.

(** A directory [shots] with two screenshots: [a.png] is black text
    on white, [b.png] cannot be opened. *)
Definition sample_env : Env :=
  {| Img := unit;
     path_exists := fun _ => true;
     os_listdir := fun d => if String.eqb d "shots"
                            then Some ["a.png"; "b.png"; "notes.txt"]%string
                            else Some [];
     path_join := fun d f => (d ++ "/" ++ f)%string;
     Image_open := fun p => if String.eqb p "shots/a.png"
                            then Some tt else None;
     TESSERACT_AVAILABLE := true;
     detect_text_regions_ocr := fun _ => [region15pt];
     get_pixel_color := fun _ _ _ => Some black;
     get_surrounding_color := fun _ _ _ _ => Some white;
     sample_color_pairs := fun _ => Some [];
     capture_screenshot := None;
     can_write := fun _ => true;
     default_output_path := "reports/output/qw6_color_contrast.json" |}.

Definition sample_argv : list string := ["analyzer.py"; "shots"]%string.

(** A run on a directory without any image. *)
Definition empty_argv : list string := ["analyzer.py"; "empty"]%string.

(** The analyzer after [a.png] was analysed. *)
Definition sample_analyzer : Analyzer :=
  {| screenshots := ["shots/a.png"]%string;
     contrast_results :=
       fst (analyze_screenshot sample_env [] "shots/a.png") |}.

End ColorContrastAnalyzer.

(* ################################################################# *)
(** * colorblind_simulator.py *)

Module ColorBlindSimulator.

(** A numpy array: its shape and its elements in row-major order. *)
Record ndarray (A : Type) : Type := mkArray {
  shape : list nat;
  data : list A }.

Arguments mkArray {A} _ _.
Arguments shape {A} _.
Arguments data {A} _.

(** The decimal literals of a matrix of [TRANSFORMATIONS]. *)
Definition Row : Type := (Q * Q * Q)%type.
Definition Matrix : Type := (Row * Row * Row)%type.

(** An entry of [TRANSFORMATIONS]. *)
Record Transformation : Type := mkTransformation {
  name : string;
  severity : string;
  matrix : Matrix }.

(** ** TRANSFORMATIONS (lines 57-130), in insertion order *)
Definition TRANSFORMATIONS : list (string * Transformation) :=
  [ ("protanopia"%string,
     {| name := "Protanopia (Red-blind)";
        severity := "complete";
        matrix := ((0.567, 0.433, 0.0),
                   (0.558, 0.442, 0.0),
                   (0.0, 0.242, 0.758))%Q |});
    ("deuteranopia"%string,
     {| name := "Deuteranopia (Green-blind)";
        severity := "complete";
        matrix := ((0.625, 0.375, 0.0),
                   (0.7, 0.3, 0.0),
                   (0.0, 0.3, 0.7))%Q |});
    ("tritanopia"%string,
     {| name := "Tritanopia (Blue-blind)";
        severity := "complete";
        matrix := ((0.95, 0.05, 0.0),
                   (0.0, 0.433, 0.567),
                   (0.0, 0.475, 0.525))%Q |});
    ("protanomaly"%string,
     {| name := "Protanomaly (Red-weak)";
        severity := "partial";
        matrix := ((0.817, 0.183, 0.0),
                   (0.333, 0.667, 0.0),
                   (0.0, 0.125, 0.875))%Q |});
    ("deuteranomaly"%string,
     {| name := "Deuteranomaly (Green-weak)";
        severity := "partial";
        matrix := ((0.8, 0.2, 0.0),
                   (0.258, 0.742, 0.0),
                   (0.0, 0.142, 0.858))%Q |});
    ("tritanomaly"%string,
     {| name := "Tritanomaly (Blue-weak)";
        severity := "partial";
        matrix := ((0.967, 0.033, 0.0),
                   (0.0, 0.733, 0.267),
                   (0.0, 0.183, 0.817))%Q |});
    ("achromatopsia"%string,
     {| name := "Achromatopsia (Total color blindness)";
        severity := "complete";
        matrix := ((0.299, 0.587, 0.114),
                   (0.299, 0.587, 0.114),
                   (0.299, 0.587, 0.114))%Q |});
    ("achromatomaly"%string,
     {| name := "Achromatomaly (Blue cone monochromacy)";
        severity := "complete";
        matrix := ((0.618, 0.320, 0.062),
                   (0.163, 0.775, 0.062),
                   (0.163, 0.320, 0.516))%Q |}) ].

(** [TRANSFORMATIONS.keys()] *)
Definition keys : list string := map fst TRANSFORMATIONS.

(** [TRANSFORMATIONS[k]], [None] when [k not in TRANSFORMATIONS]. *)
Fixpoint lookup (k : string) (d : list (string * Transformation))
  : option Transformation :=
  match d with
  | [] => None
  | (k', t) :: rest => if String.eqb k k' then Some t else lookup k rest
  end.

(** ** numpy primitives *)

(** [a.reshape(-1, 3)] on the elements of [a]: rows of three, an
    error when the elements cannot be grouped by three. *)
Fixpoint reshape3 {A : Type} (l : list A) : option (list (A * A * A)) :=
  match l with
  | [] => Some []
  | a :: b :: c :: rest =>
      match reshape3 rest with
      | Some rows => Some ((a, b, c) :: rows)
      | None => None
      end
  | _ => None
  end.

(** The elements of an (N, 3) array in row-major order. *)
Definition flatten3 {A : Type} (rows : list (A * A * A)) : list A :=
  flat_map (fun '(a, b, c) => [a; b; c]) rows.

(** ** numpy's float64 arithmetic

    The simulator computes on float64 arrays.  Which float each
    operation returns is numpy's (and, for [np.dot], the BLAS
    library's) business, so the arithmetic is a collaborator: a type
    of floats with the element-wise operations the simulator uses.
    [dot_row p m] is one entry of [np.dot(pixels, matrix.T)]: the three
    products of a pixel row and a matrix row, summed; whether the
    products are rounded before they are added depends on the BLAS in
    use, and two such arithmetics are given below. *)
Record Float64 : Type := mkFloat64 {
  float64 : Type;
  of_int : Z -> float64;          (* [astype(float)]; the constants 0, 1, 255 *)
  of_decimal : Q -> float64;      (* a decimal literal of the source *)
  true_divide : float64 -> float64 -> float64;          (* [/] *)
  multiply : float64 -> float64 -> float64;             (* [*] *)
  dot_row : float64 * float64 * float64
            -> float64 * float64 * float64 -> float64;
  less_equal : float64 -> float64 -> bool;              (* [<=] *)
  (* [.astype(np.uint8)] on one element: the fractional part is
     dropped.  (Outside [0, 256) the conversion is not defined by
     numpy; the simulator only converts clipped values.) *)
  astype_uint8 : float64 -> Z }.

(** What the statements about value ranges use of IEEE 754 arithmetic:
    the integers 0 to 255 are floats and compare as integers;
    multiplication by 255 rounds monotonically and is exact on 0 and
    1; the conversion to uint8 is monotone between 0 and 255 and
    exact on the integers.  For the binary64 arithmetics below, the
    statements about the integers are proved by evaluation
    ([binary64_bytes], [binary64_multiply_255]); the two monotonicity
    statements are those of rounding to nearest and of truncation,
    and are hypotheses wherever a range is derived. *)
Record ieee754 (N : Float64) : Prop := mkIeee754 {
  less_equal_of_int : forall j k : Z,
    (0 <= j <= 255)%Z -> (0 <= k <= 255)%Z ->
    less_equal N (of_int N j) (of_int N k) = (j <=? k)%Z;
  multiply_255_monotone : forall a b : float64 N,
    less_equal N a b = true ->
    less_equal N (multiply N a (of_int N 255))
                 (multiply N b (of_int N 255)) = true;
  multiply_255_zero :
    multiply N (of_int N 0) (of_int N 255) = of_int N 0;
  multiply_255_one :
    multiply N (of_int N 1) (of_int N 255) = of_int N 255;
  astype_uint8_monotone : forall a b : float64 N,
    less_equal N (of_int N 0) a = true ->
    less_equal N a b = true ->
    less_equal N b (of_int N 255) = true ->
    (astype_uint8 N a <= astype_uint8 N b)%Z;
  astype_uint8_of_int : forall k : Z,
    (0 <= k <= 255)%Z -> astype_uint8 N (of_int N k) = k }.

(** *** Arithmetic without rounding *)

Definition exact : Float64 :=
  {| float64 := Q;
     of_int := inject_Z;
     of_decimal := fun q => q;
     true_divide := Qdiv;
     multiply := Qmult;
     dot_row := fun p m =>
       let '(p0, p1, p2) := p in
       let '(m0, m1, m2) := m in
       (p0 * m0 + p1 * m1 + p2 * m2)%Q;
     less_equal := Qle_bool;
     astype_uint8 := fun x => Z.quot (Qnum x) (Z.pos (Qden x)) |}.

(** *** binary64 *)

(** An integer as a binary64 float (correctly rounded below 2^63). *)
Definition binary64_of_int (z : Z) : PrimFloat.float :=
  match z with
  | Z0 => PrimFloat.zero
  | Zpos _ => PrimFloat.of_uint63 (Uint63.of_Z z)
  | Zneg p => PrimFloat.opp (PrimFloat.of_uint63 (Uint63.of_Z (Zpos p)))
  end.

(** A decimal literal with fewer than 16 digits: the float nearest to
    it, as the quotient of two integers that are floats. *)
Definition binary64_of_decimal (q : Q) : PrimFloat.float :=
  PrimFloat.div (binary64_of_int (Qnum q)) (binary64_of_int (Z.pos (Qden q))).

(** A finite float as [m * 2 ^ e]. *)
Definition binary64_finite (x : PrimFloat.float) : option (Z * Z) :=
  match FloatOps.Prim2SF x with
  | SpecFloat.S754_zero _ => Some (0%Z, 0%Z)
  | SpecFloat.S754_finite s m e => Some (if s then Z.neg m else Z.pos m, e)
  | _ => None
  end.

(** The integer part of a finite float. *)
Definition binary64_trunc (x : PrimFloat.float) : Z :=
  match binary64_finite x with
  | Some (m, e) =>
      if (0 <=? e)%Z then (m * 2 ^ e)%Z else Z.quot m (2 ^ (- e))
  | None => 0%Z
  end.

(** Fused multiply-add: [a * b + c] rounded once. *)
Definition binary64_fma (a b c : PrimFloat.float) : PrimFloat.float :=
  match binary64_finite a, binary64_finite b, binary64_finite c with
  | Some (ma, ea), Some (mb, eb), Some (mc, ec) =>
      let e := Z.min (ea + eb) ec in
      FloatOps.SF2Prim
        (SpecFloat.binary_normalize FloatOps.prec FloatOps.emax
           (ma * mb * 2 ^ (ea + eb - e) + mc * 2 ^ (ec - e))%Z e false)
  | _, _, _ => PrimFloat.add (PrimFloat.mul a b) c
  end.

(** binary64 where [np.dot] rounds every product and every sum, left
    to right. *)
Definition binary64 : Float64 :=
  {| float64 := PrimFloat.float;
     of_int := binary64_of_int;
     of_decimal := binary64_of_decimal;
     true_divide := PrimFloat.div;
     multiply := PrimFloat.mul;
     dot_row := fun p m =>
       let '(p0, p1, p2) := p in
       let '(m0, m1, m2) := m in
       PrimFloat.add (PrimFloat.add (PrimFloat.mul p0 m0) (PrimFloat.mul p1 m1))
                     (PrimFloat.mul p2 m2);
     less_equal := PrimFloat.leb;
     astype_uint8 := binary64_trunc |}.

(** binary64 where [np.dot] accumulates with fused multiply-adds, as
    a BLAS kernel does on processors that have the instruction. *)
Definition binary64_fused : Float64 :=
  {| float64 := PrimFloat.float;
     of_int := binary64_of_int;
     of_decimal := binary64_of_decimal;
     true_divide := PrimFloat.div;
     multiply := PrimFloat.mul;
     dot_row := fun p m =>
       let '(p0, p1, p2) := p in
       let '(m0, m1, m2) := m in
       binary64_fma p2 m2
         (binary64_fma p1 m1 (binary64_fma p0 m0 PrimFloat.zero));
     less_equal := PrimFloat.leb;
     astype_uint8 := binary64_trunc |}.

(** ** Element-wise operations *)

(** [np.array(rows)] on the literals of a matrix. *)
Definition np_array (N : Float64) (m : Matrix)
  : (float64 N * float64 N * float64 N)
    * (float64 N * float64 N * float64 N)
    * (float64 N * float64 N * float64 N) :=
  let row := fun '(a, b, c) => (of_decimal N a, of_decimal N b, of_decimal N c) in
  let '(m0, m1, m2) := m in
  (row m0, row m1, row m2).

(** One row of [np.dot(pixels, matrix.T)]. *)
Definition dot (N : Float64) (p : float64 N * float64 N * float64 N)
  (m : (float64 N * float64 N * float64 N)
       * (float64 N * float64 N * float64 N)
       * (float64 N * float64 N * float64 N))
  : float64 N * float64 N * float64 N :=
  let '(m0, m1, m2) := m in
  (dot_row N p m0, dot_row N p m1, dot_row N p m2).

(** [np.clip(x, lo, hi)] on one element. *)
Definition clip (N : Float64) (x lo hi : float64 N) : float64 N :=
  let y := if less_equal N lo x then x else lo in
  if less_equal N y hi then y else hi.

(** ** The collaborators and the observable effects *)

Record Disk : Type := mkDisk {
  (* [np.array(Image.open(path))]; [None]: an exception was raised *)
  load_array : string -> option (ndarray Z);
  (* the float64 arithmetic of the numpy in use *)
  numpy : Float64 }.

Inductive Effect : Type :=
| Opened (path : string)
| Printed (message : string).

(** How a call ends: with a raised [ValueError] or with a returned
    value ([None] or an image, given by its uint8 array). *)
Inductive Outcome : Type :=
| Raised_ValueError (message : string)
| Returned (img : option (ndarray Z)).

(** ** simulate_colorblindness (lines 156-206) *)

Definition simulate_colorblindness (E : Disk) (image_path cvd_type : string)
  : list Effect * Outcome :=
  let N := numpy E in
  match lookup cvd_type TRANSFORMATIONS with
  | None =>
      ([], Raised_ValueError ("Unknown CVD type: " ++ cvd_type)%string)
  | Some transformation =>
      let failed :=
        ([Opened image_path;
          Printed ("[ERROR] Failed to simulate " ++ cvd_type
                   ++ " for " ++ image_path)%string],
         Returned None) in
      (* Load image *)
      match load_array E image_path with
      | None => failed
      | Some img =>
          let img_array :=
            {| shape := shape img;
               data := map (fun v => true_divide N (of_int N v) (of_int N 255))
                           (data img) |} in
          (* Handle grayscale images *)
          let img_array :=
            if (List.length (shape img_array) =? 2)%nat
            then {| shape := shape img_array ++ [3%nat];
                    data := flat_map (fun v => [v; v; v]) (data img_array) |}
            else img_array in
          (* Get transformation matrix *)
          let matrix := np_array N (matrix transformation) in
          (* Reshape to (N, 3) for matrix multiplication *)
          let original_shape := shape img_array in
          match reshape3 (data img_array) with
          | None => failed
          | Some pixels =>
              (* Apply color blindness simulation *)
              let simulated_pixels := map (fun p => dot N p matrix) pixels in
              (* Clip values to [0, 1] *)
              let simulated_pixels :=
                map (fun '(a, b, c) =>
                       (clip N a (of_int N 0) (of_int N 1),
                        clip N b (of_int N 0) (of_int N 1),
                        clip N c (of_int N 0) (of_int N 1)))
                    simulated_pixels in
              (* Reshape back to original shape *)
              let simulated_array :=
                {| shape := original_shape;
                   data := flatten3 simulated_pixels |} in
              (* Convert back to uint8 *)
              let simulated_array :=
                {| shape := shape simulated_array;
                   data := map (fun v =>
                                  astype_uint8 N (multiply N v (of_int N 255)))
                               (data simulated_array) |} in
              (* Convert to PIL Image *)
              ([Opened image_path], Returned (Some simulated_array))
          end
      end
  end.

(** ** The transform as the specification words it

    Every pixel's RGB vector is replaced by matrix . RGB, clamped to
    [0,1], then rescaled to the 8-bit range; each step in the
    arithmetic of the program. *)

Definition Pixel : Type := (Z * Z * Z)%type.

(** [v / 255.0] *)
Definition normalize (N : Float64) (v : Z) : float64 N :=
  true_divide N (of_int N v) (of_int N 255).

Definition clamp01 (N : Float64) (x : float64 N) : float64 N :=
  clip N x (of_int N 0) (of_int N 1).

Definition rescale_8bit (N : Float64) (x : float64 N) : Z :=
  astype_uint8 N (multiply N x (of_int N 255)).

Definition cvd_pixel (N : Float64) (m : Matrix) (p : Pixel) : Pixel :=
  let '(r, g, b) := p in
  let rgb := (normalize N r, normalize N g, normalize N b) in
  let '(r', g', b') := dot N rgb (np_array N m) in
  (rescale_8bit N (clamp01 N r'), rescale_8bit N (clamp01 N g'),
   rescale_8bit N (clamp01 N b')).

(** The pixels of an image array: the triples of a three-channel
    array, the repeated value of a grayscale one. *)
Definition pixels_of (a : ndarray Z) : option (list Pixel) :=
  if (List.length (shape a) =? 2)%nat
  then Some (map (fun v => (v, v, v)) (data a))
  else reshape3 (data a).

Definition uint8 (v : Z) : Prop := (0 <= v <= 255)%Z.

(** A valid screenshot: height x width grayscale or height x width x 3
    channels, as many elements as the shape says, each a byte. *)
Definition valid_image (a : ndarray Z) : Prop :=
  (exists H W : nat,
      (shape a = [H; W] /\ List.length (data a) = (H * W)%nat)
      \/ (shape a = [H; W; 3%nat] /\ List.length (data a) = (H * W * 3)%nat))
  /\ Forall uint8 (data a).

(** ** Auxiliary definitions for the statements *)

Definition map3 {A B : Type} (f : A -> B) (p : A * A * A) : B * B * B :=
  let '(a, b, c) := p in (f a, f b, f c).

(** ** Sample data *)

(** A 1 x 2 RGB screenshot. *)
Definition sample_image : ndarray Z :=
  {| shape := [1; 2; 3]%nat; data := [255; 0; 0; 10; 200; 30]%Z |}.

Definition sample_disk : Disk :=
  {| load_array := fun p => if String.eqb p "shot.png"
                            then Some sample_image else None;
     numpy := exact |}.

(** A 1 x 2 RGB screenshot with a dark gray and a white pixel, read
    with each of the two binary64 arithmetics. *)
Definition gray_white_image : ndarray Z :=
  {| shape := [1; 2; 3]%nat; data := [3; 3; 3; 255; 255; 255]%Z |}.

Definition binary64_disk : Disk :=
  {| load_array := fun _ => Some gray_white_image; numpy := binary64 |}.

Definition binary64_fused_disk : Disk :=
  {| load_array := fun _ => Some gray_white_image; numpy := binary64_fused |}.

(** A 1 x 256 grayscale screenshot with every gray level. *)
Definition gray_ramp : ndarray Z :=
  {| shape := [1; 256]%nat; data := map Z.of_nat (seq 0 256) |}.

(** Whether a call returned an image of [n] bytes. *)
Definition returned_bytes (n : nat) (o : Outcome) : bool :=
  match o with
  | Returned (Some out) =>
      (List.length (data out) =? n)%nat
      && forallb (fun v => (0 <=? v)%Z && (v <=? 255)%Z) (data out)
  | _ => false
  end.

End ColorBlindSimulator.

(* ################################################################# *)
(** * color_contrast_analyzer.py: report helpers *)

Module ContrastReport.
Import ColorContrastAnalyzer.

(** [format(n, 'x')] for a non-negative integer: lower-case
    hexadecimal digits, at least one. *)
Definition hex (n : N) : string :=
  HexadecimalString.NilZero.string_of_uint (N.to_hex_uint n).

(** ['{:02x}'.format(n)]: the sign, then the digits padded with zeros
    to a total width of two. *)
Definition format_02x (n : Z) : string :=
  let digits := hex (Z.to_N (Z.abs n)) in
  if (n <? 0)%Z then String "-" digits
  else if (String.length digits <? 2)%nat then String "0" digits
  else digits.

(** ** rgb_to_hex (lines 338-340) *)
Definition rgb_to_hex (rgb : Color) : string :=
  ("#" ++ format_02x (red rgb) ++ format_02x (green rgb)
       ++ format_02x (blue rgb))%string.


(** The 8-bit intensities. *)
Definition bytes : list Z := map Z.of_nat (seq 0 256).

Definition is_hex_digit (c : ascii) : bool :=
  let n := nat_of_ascii c in
  ((48 <=? n) && (n <=? 57) || (97 <=? n) && (n <=? 102))%nat.

Fixpoint all_chars (p : ascii -> bool) (s : string) : bool :=
  match s with
  | EmptyString => true
  | String c rest => p c && all_chars p rest
  end.

(** ** The two loops of [analyze_screenshot] *)

Definition text_checks (E : Env) (img : Img E) (regions : list Region)
  : list ContrastCheck * list ContrastCheck :=
  fold_left (fun acc region =>
               record_check acc (check_text_contrast E img region))
            regions ([], []).

Definition pair_checks (pairs : list ColorPair)
  : list ContrastCheck * list ContrastCheck :=
  fold_left (fun acc pair => record_check acc (check_color_pair_contrast pair))
            pairs ([], []).

End ContrastReport.

(* ################################################################# *)
(** * color_contrast_analyzer.py: text detection *)

Module TextDetection.

Import ColorContrastAnalyzer.

(** The dictionary of [pytesseract.image_to_data(.., Output.DICT)]:
    one list per column. *)
Record TesseractData : Type := mkTesseractData {
  data_text : list string;
  data_conf : list Z;
  data_left : list Z;
  data_top : list Z;
  data_width : list Z;
  data_height : list Z }.

(** [str.isspace] on the characters below 256. *)
Definition is_space (c : ascii) : bool :=
  let n := nat_of_ascii c in
  ((9 <=? n) && (n <=? 13) || (28 <=? n) && (n <=? 32)
   || (n =? 133) || (n =? 160))%nat.

Fixpoint lstrip (s : string) : string :=
  match s with
  | EmptyString => EmptyString
  | String c rest => if is_space c then lstrip rest else s
  end.

Fixpoint rstrip (s : string) : string :=
  match s with
  | EmptyString => EmptyString
  | String c rest =>
      match rstrip rest with
      | EmptyString => if is_space c then EmptyString
                       else String c EmptyString
      | rest' => String c rest'
      end
  end.

(** [s.strip()] *)
Definition strip (s : string) : string := rstrip (lstrip s).

(** The body of the loop for row [i]; [None]: an index is out of
    range and the exception leaves the loop. *)
Definition detect_row (data : TesseractData) (regions : list Region) (i : nat)
  : option (list Region) :=
  match nth_error (data_text data) i with
  | None => None
  | Some raw =>
      let text := strip raw in
      if String.eqb text EmptyString then Some regions
      else
        match nth_error (data_conf data) i with
        | None => None
        | Some conf =>
            if (conf >? 30)%Z then
              (* Confidence threshold *)
              match nth_error (data_left data) i, nth_error (data_top data) i,
                    nth_error (data_width data) i,
                    nth_error (data_height data) i with
              | Some vleft, Some vtop, Some vwidth, Some vheight =>
                  Some (regions ++ [{| text := text; x := vleft; y := vtop;
                                       w := vwidth; h := vheight;
                                       conf := conf |}])
              | _, _, _, _ => None
              end
            else Some regions
        end
  end.

Fixpoint detect_rows (data : TesseractData) (regions : list Region)
  (indices : list nat) : option (list Region) :=
  match indices with
  | [] => Some regions
  | i :: rest =>
      match detect_row data regions i with
      | None => None
      | Some regions' => detect_rows data regions' rest
      end
  end.

(** ** detect_text_regions_ocr (lines 145-171)

    [image_to_data] is the result of the OCR engine on the image,
    [None] when it raises. *)
Definition detect_text_regions_ocr (TESSERACT_AVAILABLE : bool)
  (image_to_data : option TesseractData) : list Region :=
  if negb TESSERACT_AVAILABLE then []
  else
    match image_to_data with
    | None => []
    | Some data =>
        match detect_rows data []
                (seq 0 (List.length (data_text data))) with
        | Some regions => regions
        | None => []
        end
    end.

(** Three rows: a word, a blank, a word of low confidence. *)
Definition sample_data : TesseractData :=
  {| data_text := ["  Play "; "   "; "Quit"]%string;
     data_conf := [91; 95; 12]%Z;
     data_left := [10; 0; 50]%Z;
     data_top := [20; 0; 60]%Z;
     data_width := [40; 0; 30]%Z;
     data_height := [16; 0; 12]%Z |}.

(** A region as the loop accepts it from a row of the data. *)
Definition accepted (data : TesseractData) (r : Region) : Prop :=
  (30 < conf r)%Z /\ text r <> EmptyString
  /\ exists i raw,
       nth_error (data_text data) i = Some raw /\ text r = strip raw
       /\ nth_error (data_conf data) i = Some (conf r)
       /\ nth_error (data_left data) i = Some (x r)
       /\ nth_error (data_top data) i = Some (y r)
       /\ nth_error (data_width data) i = Some (w r)
       /\ nth_error (data_height data) i = Some (h r).

End TextDetection.

(* ################################################################# *)
(** * color_contrast_analyzer.py: pixel sampling *)

Module PixelSampling.

Import ColorBlindSimulator.

(** ** numpy indexing *)

(** An integer index on an axis of length [n]: negative indices count
    from the end; an index outside [-n, n) raises [IndexError]. *)
Definition np_index (n : nat) (i : Z) : option nat :=
  if ((0 <=? i) && (i <? Z.of_nat n))%Z then Some (Z.to_nat i)
  else if ((- Z.of_nat n <=? i) && (i <? 0))%Z
       then Some (Z.to_nat (i + Z.of_nat n))
       else None.

(** A bound of a slice [a[start:stop]] on an axis of length [n]: a
    negative bound counts from the end, and the result is clamped to
    [0, n]. *)
Definition slice_bound (n : nat) (i : Z) : nat :=
  let j := if (i <? 0)%Z then (i + Z.of_nat n)%Z else i in
  Z.to_nat (Z.max 0 (Z.min (Z.of_nat n) j)).

(** The indices selected by [a[start:stop]]. *)
Definition slice_indices (n : nat) (start stop : Z) : list nat :=
  seq (slice_bound n start) (slice_bound n stop - slice_bound n start).

Definition sumZ (l : list Z) : Z := fold_right Z.add 0%Z l.

(** The elements [a[row, col, k]] of an array whose rows hold [W]
    cells of [inner] elements each, for the selected rows and
    columns. *)
Definition region_elements (W inner : nat) (elements : list Z)
  (rows cols : list nat) (k : nat) : list Z :=
  flat_map (fun row =>
              map (fun col => nth ((row * W + col) * inner + k) elements 0%Z)
                  cols)
           rows.

(** ** get_pixel_color (lines 202-211)

    The returned tuple, [None] when the indexing raises.  The array of
    a PIL image has two or three axes; with fewer the indexing raises,
    and more do not occur. *)
Definition get_pixel_color (img_array : ndarray Z) (x y : Z)
  : option (list Z) :=
  match shape img_array with
  | [H; W; C] =>
      (* Color image *)
      match np_index H y, np_index W x with
      | Some row, Some col =>
          Some (firstn 3 (firstn C (skipn ((row * W + col) * C)
                                          (data img_array))))
      | _, _ => None
      end
  | [H; W] =>
      (* Grayscale *)
      match np_index H y, np_index W x with
      | Some row, Some col =>
          let val := nth (row * W + col) (data img_array) 0%Z in
          Some [val; val; val]
      | _, _ => None
      end
  | _ => None
  end.

(** ** get_surrounding_color (lines 213-230)

    [np.mean] is the exact quotient here: the sum of the bytes of a
    region is exact in binary floating point, and the rounded quotient
    of two such integers has the integer part of the exact one.
    [nan_as_int] is what [astype(int)] makes of the NaN that [np.mean]
    gives for an empty region. *)
Definition get_surrounding_color (nan_as_int : Z) (img_array : ndarray Z)
  (x y radius : Z) : option (list Z) :=
  match shape img_array with
  | H :: W :: rest =>
      let y1 := Z.max 0 (y - radius) in
      let y2 := Z.min (Z.of_nat H) (y + radius) in
      let x1 := Z.max 0 (x - radius) in
      let x2 := Z.min (Z.of_nat W) (x + radius) in
      let rows := slice_indices H y1 y2 in
      let cols := slice_indices W x1 x2 in
      let count := Z.of_nat (List.length rows * List.length cols) in
      match rest with
      | [C] =>
          let avg_color :=
            map (fun k =>
                   if (count =? 0)%Z then nan_as_int
                   else Z.quot (sumZ (region_elements W C (data img_array)
                                                      rows cols k))
                               count)
                (seq 0 C) in
          Some (firstn 3 avg_color)
      | _ =>
          let inner := fold_right Nat.mul 1%nat rest in
          let total := (count * Z.of_nat inner)%Z in
          if (total =? 0)%Z then None (* int(nan) raises *)
          else
            let avg_val :=
              Z.quot (sumZ (flat_map (region_elements W inner (data img_array)
                                                      rows cols)
                                     (seq 0 inner)))
                     total in
            Some [avg_val; avg_val; avg_val]
      end
  | _ => None
  end.

(** An array with three axes, at least three channels, as many
    elements as its shape says, each of them a byte. *)
Definition color_image (H W C : nat) (a : ndarray Z) : Prop :=
  shape a = [H; W; C] /\ (3 <= C)%nat
  /\ List.length (data a) = (H * W * C)%nat
  /\ Forall uint8 (data a).

(** The tuple as [relative_luminance] unpacks it: at least three
    entries are needed. *)
Definition color_of_tuple (t : option (list Z))
  : option ColorContrastAnalyzer.Color :=
  match t with
  | Some (r :: g :: b :: _) => Some (ColorContrastAnalyzer.mkColor r g b)
  | _ => None
  end.

(** The analyzer's collaborators when the samplers are the two
    functions above. *)
Record ArrayWorld : Type := mkArrayWorld {
  aw_nan_as_int : Z;
  aw_path_exists : string -> bool;
  aw_listdir : string -> option (list string);
  aw_path_join : string -> string -> string;
  aw_open : string -> option (ndarray Z);
  aw_tesseract : bool;
  aw_ocr : ndarray Z -> list ColorContrastAnalyzer.Region;
  aw_pairs : ndarray Z -> option (list ColorContrastAnalyzer.ColorPair);
  aw_capture : option string;
  aw_can_write : string -> bool;
  aw_default_output_path : string }.

Definition env_of (A : ArrayWorld) : ColorContrastAnalyzer.Env :=
  {| ColorContrastAnalyzer.Img := ndarray Z;
     ColorContrastAnalyzer.path_exists := aw_path_exists A;
     ColorContrastAnalyzer.os_listdir := aw_listdir A;
     ColorContrastAnalyzer.path_join := aw_path_join A;
     ColorContrastAnalyzer.Image_open := aw_open A;
     ColorContrastAnalyzer.TESSERACT_AVAILABLE := aw_tesseract A;
     ColorContrastAnalyzer.detect_text_regions_ocr := aw_ocr A;
     ColorContrastAnalyzer.get_pixel_color :=
       fun img x y => color_of_tuple (get_pixel_color img x y);
     ColorContrastAnalyzer.get_surrounding_color :=
       fun img x y radius =>
         color_of_tuple (get_surrounding_color (aw_nan_as_int A) img x y radius);
     ColorContrastAnalyzer.sample_color_pairs := aw_pairs A;
     ColorContrastAnalyzer.capture_screenshot := aw_capture A;
     ColorContrastAnalyzer.can_write := aw_can_write A;
     ColorContrastAnalyzer.default_output_path := aw_default_output_path A |}.

(** A 2 x 2 RGB image. *)
Definition tiny_image : ndarray Z :=
  {| shape := [2; 2; 3]%nat;
     data := [255; 255; 255;  0; 0; 0;
              10; 20; 30;     200; 100; 50]%Z |}.


(** A world around [tiny_image], and a region that covers it. *)
Definition tiny_world : ArrayWorld :=
  {| aw_nan_as_int := 0;
     aw_path_exists := fun _ => true;
     aw_listdir := fun _ => Some [];
     aw_path_join := fun d f => (d ++ "/" ++ f)%string;
     aw_open := fun _ => Some tiny_image;
     aw_tesseract := true;
     aw_ocr := fun _ => [];
     aw_pairs := fun _ => Some [];
     aw_capture := None;
     aw_can_write := fun _ => true;
     aw_default_output_path := "report.json" |}.

Definition tiny_region : ColorContrastAnalyzer.Region :=
  {| ColorContrastAnalyzer.text := "ab";
     ColorContrastAnalyzer.x := 0; ColorContrastAnalyzer.y := 0;
     ColorContrastAnalyzer.w := 2; ColorContrastAnalyzer.h := 2;
     ColorContrastAnalyzer.conf := 80 |}.

End PixelSampling.

(* ################################################################# *)
(** * colorblind_simulator.py: the batch *)

Module SimulatorBatch.
Import ColorBlindSimulator.

(** An entry of [simulations_for_image['simulations']]. *)
Record SimulationEntry : Type := mkSimulationEntry {
  cvd_type : string;
  cvd_name : string;
  cvd_severity : string;
  output_file : string;
  output_path : string }.

(** [simulations_for_image]. *)
Record ImageSimulations : Type := mkImageSimulations {
  original_image : string;
  original_path : string;
  simulations_of_image : list SimulationEntry }.

(** The simulator object, together with the image files it has
    written ([simulated_img.save]). *)
Record Simulator : Type := mkSimulator {
  output_dir : string;
  screenshots : list string;
  simulations : list ImageSimulations;
  saved : list (string * ndarray Z) }.

(** The collaborators of the batch: the disk to read from, the path
    functions, and whether [Image.save] succeeds on a path. *)
Record BatchWorld : Type := mkBatchWorld {
  disk : Disk;
  path_basename : string -> string;              (* os.path.basename *)
  path_stem : string -> string;   (* os.path.splitext(basename(p))[0] *)
  path_join : string -> string -> string;        (* os.path.join *)
  save_ok : string -> bool }.

Section Batch.

Variable W : BatchWorld.

(** The body of the loop of [process_screenshot] for one item of
    [TRANSFORMATIONS.items()]; every exception is caught and
    printed. *)
Definition process_variant (self_output_dir image_path : string)
  (acc : list SimulationEntry * list (string * ndarray Z))
  (item : string * Transformation)
  : list SimulationEntry * list (string * ndarray Z) :=
  let '(cvd_type, info) := item in
  match snd (simulate_colorblindness (disk W) image_path cvd_type) with
  | Raised_ValueError _ => acc
  | Returned None => acc
  | Returned (Some simulated_img) =>
      let output_filename :=
        (path_stem W image_path ++ "_" ++ cvd_type ++ ".png")%string in
      let output_path := path_join W self_output_dir output_filename in
      if save_ok W output_path then
        (fst acc ++ [{| cvd_type := cvd_type;
                        cvd_name := name info;
                        cvd_severity := severity info;
                        output_file := output_filename;
                        output_path := output_path |}],
         snd acc ++ [(output_path, simulated_img)])
      else acc
  end.

(** ** process_screenshot (lines 208-245) *)
Definition process_screenshot (self : Simulator) (image_path : string)
  : Simulator * ImageSimulations :=
  let '(entries, written) :=
    fold_left (process_variant (output_dir self) image_path)
              TRANSFORMATIONS ([], []) in
  let simulations_for_image :=
    {| original_image := path_basename W image_path;
       original_path := image_path;
       simulations_of_image := entries |} in
  ({| output_dir := output_dir self;
      screenshots := screenshots self;
      simulations := simulations self ++ [simulations_for_image];
      saved := saved self ++ written |},
   simulations_for_image).

(** ** process_all_screenshots (lines 247-265) *)
Definition process_all_screenshots (self : Simulator) : Simulator * bool :=
  match screenshots self with
  | [] => (self, false)
  | _ =>
      (fold_left (fun self screenshot =>
                    fst (process_screenshot self screenshot))
                 (screenshots self) self,
       true)
  end.

End Batch.

(** The part of [get_summary]'s dictionary that is counted. *)
Record SimulationSummary : Type := mkSimulationSummary {
  screenshots_processed : Z;
  total_simulations : Z;
  cvd_types_tested : list string }.

(** ** get_summary (lines 378-388) *)
Definition get_summary (self : Simulator) : SimulationSummary :=
  let total_simulations :=
    (Z.of_nat (List.length (simulations self))
     * Z.of_nat (List.length TRANSFORMATIONS))%Z in
  {| screenshots_processed := Z.of_nat (List.length (simulations self));
     total_simulations := total_simulations;
     cvd_types_tested := keys |}.

(** Whether the loop body of [process_screenshot] records the variant
    [cvd_type]: the simulation returned an image and it was saved. *)
Definition variant_recorded (W : BatchWorld) (self_output_dir image_path : string)
  (cvd_type : string) : bool :=
  match snd (simulate_colorblindness (disk W) image_path cvd_type) with
  | Returned (Some _) =>
      save_ok W (path_join W self_output_dir
                   (path_stem W image_path ++ "_" ++ cvd_type ++ ".png")%string)
  | _ => false
  end.

(** The images a run has generated, counted from the records. *)
Definition generated (self : Simulator) : nat :=
  List.length (flat_map simulations_of_image (simulations self)).

(** The entry recorded for an item of [TRANSFORMATIONS.items()]. *)
Definition entry_of (W : BatchWorld) (dir image_path : string)
  (item : string * Transformation) : SimulationEntry :=
  {| cvd_type := fst item;
     cvd_name := name (snd item);
     cvd_severity := severity (snd item);
     output_file := (path_stem W image_path ++ "_" ++ fst item ++ ".png")%string;
     output_path :=
       path_join W dir
         (path_stem W image_path ++ "_" ++ fst item ++ ".png")%string |}.

(** A world in which nothing can be opened. *)
Definition blind_world : BatchWorld :=
  {| disk := {| load_array := fun _ => None; numpy := binary64 |};
     path_basename := fun p => p;
     path_stem := fun p => p;
     path_join := fun d f => (d ++ "/" ++ f)%string;
     save_ok := fun _ => true |}.

(** A world with the sample screenshot, where every save succeeds. *)
Definition sample_world : BatchWorld :=
  {| disk := sample_disk;
     path_basename := fun p => p;
     path_stem := fun _ => "shot"%string;
     path_join := fun d f => (d ++ "/" ++ f)%string;
     save_ok := fun _ => true |}.

Definition fresh (paths : list string) : Simulator :=
  {| output_dir := "out"; screenshots := paths; simulations := [];
     saved := [] |}.

End SimulatorBatch.

(* ################################################################# *)
(** * focus_indicator_detector.py *)

Module FocusIndicatorDetector.

Import ColorContrastAnalyzer.
Import ContrastReport.

(** A contour found by [cv2.findContours], by what the detector asks
    of it: [cv2.boundingRect] and [cv2.contourArea]. *)
Record Contour : Type := mkContour {
  rect_x : Z; rect_y : Z; rect_w : Z; rect_h : Z;
  contour_area : Q }.

(** An entry of [changed_regions]. *)
Record ChangedRegion : Type := mkChangedRegion {
  cr_x : Z; cr_y : Z; cr_w : Z; cr_h : Z; cr_area : Z }.

(** The dictionary returned by [compare_images] (without the
    difference image). *)
Record DiffResult : Type := mkDiffResult {
  has_changes : bool;
  changed_regions : list ChangedRegion;
  total_changes : option Z }.

(** The dictionary returned by [measure_indicator_properties]. *)
Record IndicatorProperties : Type := mkIndicatorProperties {
  indicator_color : string;
  background_color : string;
  contrast_ratio : R;
  thickness_px : Z;
  passes_contrast : bool;
  passes_thickness : bool }.

(** What the messages of [test['issues']] report. *)
Inductive IssueKind : Type := LowContrast | TooThin.

(** An entry of [test_results]. *)
Record FocusTest : Type := mkFocusTest {
  element_index : Z;
  screenshot_before : string;
  screenshot_after : string;
  has_focus_indicator : bool;
  properties : option IndicatorProperties;
  location : option ChangedRegion;
  test_wcag_compliant : bool;
  issue : option string;
  issues : list IssueKind }.

(** The counters and results of the detector, and the number of Tab
    presses sent so far. *)
Record Detector : Type := mkDetector {
  test_results : list FocusTest;
  passed_tests : Z;
  failed_tests : Z;
  tabs_pressed : Z }.

(** The dictionary returned by [get_summary]. *)
Record FocusSummary : Type := mkFocusSummary {
  elements_tested : Z;
  with_indicators : Z;
  without_indicators : Z;
  compliance_rate : Q;
  wcag_compliant : bool }.

(** The collaborators: screen capture, the keyboard, OpenCV's image
    loading and contour search, the colour and thickness
    measurements.  [None] stands for a failure: a returned [None] or
    a raised exception. *)
Record FocusWorld : Type := mkFocusWorld {
  capture_screenshot : string -> option string;
  (* [pyautogui.press('tab')] and [time.sleep(delay)] in iteration [i]:
     [false] when an exception is raised (with [FAILSAFE = True],
     [FailSafeException] when the pointer is in a corner of the
     screen) *)
  press_tab : Z -> bool;
  imread : string -> bool;
  find_contours : string -> string -> option (list Contour);
  edge_color : string -> ChangedRegion -> option (list Z);
  get_surrounding_color : string -> Z -> Z -> Z -> option (list Z);
  estimate_border_thickness : string -> ChangedRegion -> Z;
  path_basename : string -> string }.

(** [int(a)] for a float: the fractional part is dropped. *)
Definition py_int (a : Q) : Z := Z.quot (Qnum a) (Z.pos (Qden a)).

(** [l.sort(key=lambda r: r['area'], reverse=True)]: by decreasing
    area, regions of equal area in their original order. *)
Fixpoint insert_by_area (r : ChangedRegion) (l : list ChangedRegion)
  : list ChangedRegion :=
  match l with
  | [] => [r]
  | r' :: rest =>
      if (cr_area r' <=? cr_area r)%Z then r :: r' :: rest
      else r' :: insert_by_area r rest
  end.

Definition sort_by_area_desc (l : list ChangedRegion) : list ChangedRegion :=
  fold_right insert_by_area [] l.

(** [tuple[::-1]], then [rgb[:3]] unpacked into three: the colour
    [calculate_contrast_ratio] reads from a reversed tuple. *)
Definition color_of_reversed (t : list Z) : option Color :=
  match rev t with
  | r :: g :: b :: _ => Some (mkColor r g b)
  | _ => None
  end.

(** ** bgr_to_hex (lines 270-274); [None] inside: [bgr[2]] raises *)
Definition bgr_to_hex (bgr : option (list Z)) : option string :=
  match bgr with
  | None => Some "#000000"%string
  | Some t =>
      match nth_error t 2, nth_error t 1, nth_error t 0 with
      | Some r, Some g, Some b =>
          Some ("#" ++ format_02x r ++ format_02x g ++ format_02x b)%string
      | _, _, _ => None
      end
  end.

(** [print] of a zero-padded two-digit decimal, ['{:02d}'] *)
Definition format_02d (n : Z) : string :=
  let digits :=
    DecimalString.NilZero.string_of_uint (N.to_uint (Z.to_N (Z.abs n))) in
  if (n <? 0)%Z then String "-" digits
  else if (String.length digits <? 2)%nat then String "0" digits
  else digits.

(** [bg_color[::-1] if bg_color else (128, 128, 128)], as the colour
    [calculate_contrast_ratio] reads. *)
Definition background_rgb (bg_color : option (list Z)) : option Color :=
  match bg_color with
  | Some (v :: t) => color_of_reversed (v :: t)
  | _ => Some (mkColor 128 128 128)
  end.

(** [self.bgr_to_hex(bg_color) if bg_color else '#808080'] *)
Definition background_hex (bg_color : option (list Z)) : option string :=
  match bg_color with
  | Some (v :: t) => bgr_to_hex (Some (v :: t))
  | _ => Some "#808080"%string
  end.

Section Detector.

Variable Wd : FocusWorld.

(** ** compare_images (lines 78-145) *)
Definition compare_images (img1_path img2_path : string)
  : option DiffResult :=
  if negb (imread Wd img1_path) || negb (imread Wd img2_path) then None
  else
    match find_contours Wd img1_path img2_path with
    | None => None
    | Some contours =>
        (* Filter small contours (noise) *)
        let min_area := 100%Q in
        let significant_contours :=
          filter (fun c => negb (Qle_bool (contour_area c) min_area))
                 contours in
        match significant_contours with
        | [] => Some {| has_changes := false;
                        changed_regions := [];
                        total_changes := None |}
        | _ =>
            let changed_regions :=
              map (fun contour =>
                     {| cr_x := rect_x contour; cr_y := rect_y contour;
                        cr_w := rect_w contour; cr_h := rect_h contour;
                        cr_area := py_int (contour_area contour) |})
                  significant_contours in
            (* Sort by area (largest first) *)
            let changed_regions := sort_by_area_desc changed_regions in
            Some {| has_changes := true;
                    changed_regions := changed_regions;
                    total_changes :=
                      Some (Z.of_nat (List.length changed_regions)) |}
        end
    end.

(** ** measure_indicator_properties (lines 147-195) *)
Definition measure_indicator_properties (img_path : string)
  (region : ChangedRegion) : option IndicatorProperties :=
  if negb (imread Wd img_path) then None
  else
    match edge_color Wd img_path region with
    | None => None
    | Some indicator_color =>
        let bg_color :=
          get_surrounding_color Wd img_path
            (cr_x region + cr_w region / 2)%Z
            (cr_y region + cr_h region / 2)%Z
            (Z.max (cr_w region) (cr_h region) / 2 + 20)%Z in
        match color_of_reversed indicator_color, background_rgb bg_color with
        | Some fg, Some bg =>
            match calculate_contrast_ratio fg bg with
            | None => None
            | Some contrast_ratio =>
                let thickness := estimate_border_thickness Wd img_path region in
                match bgr_to_hex (Some indicator_color),
                      background_hex bg_color with
                | Some fg_hex, Some bg_hex =>
                    Some {| indicator_color := fg_hex;
                            background_color := bg_hex;
                            contrast_ratio := py_round2 contrast_ratio;
                            thickness_px := thickness;
                            passes_contrast :=
                              if Rge_dec contrast_ratio 3.0 then true else false;
                            passes_thickness := (2 <=? thickness)%Z |}
                | _, _ => None
                end
            end
        | _, _ => None
        end
    end.

(** The body of the loop of [test_focus_visibility] for index [i];
    [None]: an exception leaves the loop (out of the Tab press, which
    is in no [try], or [changed_regions][0] on an empty list). *)
Definition test_element (self : Detector) (i : Z) : option Detector :=
  (* Capture before Tab *)
  match capture_screenshot Wd
          ("focus_test_" ++ format_02d (i + 1) ++ "_before.png")%string with
  | None => Some self
  | Some before_path =>
      (* Press Tab *)
      if negb (press_tab Wd i) then None else
      let self := {| test_results := test_results self;
                     passed_tests := passed_tests self;
                     failed_tests := failed_tests self;
                     tabs_pressed := (tabs_pressed self + 1)%Z |} in
      (* Capture after Tab *)
      match capture_screenshot Wd
              ("focus_test_" ++ format_02d (i + 1) ++ "_after.png")%string with
      | None => Some self
      | Some after_path =>
          (* Compare images *)
          match compare_images before_path after_path with
          | None => Some self
          | Some diff_result =>
              let test properties location compliant issue issues :=
                {| element_index := (i + 1)%Z;
                   screenshot_before := path_basename Wd before_path;
                   screenshot_after := path_basename Wd after_path;
                   has_focus_indicator := has_changes diff_result;
                   properties := properties;
                   location := location;
                   test_wcag_compliant := compliant;
                   issue := issue;
                   issues := issues |} in
              let record t passed failed :=
                Some {| test_results := test_results self ++ [t];
                        passed_tests := (passed_tests self + passed)%Z;
                        failed_tests := (failed_tests self + failed)%Z;
                        tabs_pressed := tabs_pressed self |} in
              if has_changes diff_result then
                (* Found changes - measure properties *)
                match changed_regions diff_result with
                | [] => None
                | largest_change :: _ =>
                    match measure_indicator_properties after_path
                            largest_change with
                    | Some p =>
                        let compliant :=
                          passes_contrast p && passes_thickness p in
                        if compliant
                        then record (test (Some p) (Some largest_change)
                                          true None [])
                                    1%Z 0%Z
                        else
                          let issues :=
                            (if negb (passes_contrast p)
                             then [LowContrast] else [])
                            ++ (if negb (passes_thickness p)
                                then [TooThin] else []) in
                          record (test (Some p) (Some largest_change)
                                       false None issues)
                                 0%Z 1%Z
                    | None =>
                        record (test None None false
                                  (Some "Could not measure indicator properties"%string)
                                  [])
                               0%Z 1%Z
                    end
                end
              else
                (* No changes detected *)
                record (test None None false
                          (Some "No visible focus indicator detected"%string)
                          [])
                       0%Z 1%Z
          end
      end
  end.

(** [for i in range(element_count)]: the loop stops at the first
    exception. *)
Fixpoint run_elements (self : Detector) (indices : list Z)
  : option Detector :=
  match indices with
  | [] => Some self
  | i :: rest =>
      match test_element self i with
      | None => None
      | Some self' => run_elements self' rest
      end
  end.

(** ** test_focus_visibility (lines 276-361) *)
Definition test_focus_visibility (self : Detector) (element_count : nat)
  : option Detector :=
  run_elements self (map Z.of_nat (seq 0 element_count)).

End Detector.

(** ** get_summary (lines 363-375) *)
Definition get_summary (self : Detector) : FocusSummary :=
  let total := Z.of_nat (List.length (test_results self)) in
  {| elements_tested := total;
     with_indicators := passed_tests self;
     without_indicators := failed_tests self;
     compliance_rate :=
       if (total >? 0)%Z
       then (inject_Z (passed_tests self) / inject_Z total * 100)%Q
       else 0%Q;
     wcag_compliant := (failed_tests self =? 0)%Z |}.

(** The order of [changed_regions]. *)
Definition larger_first (a b : ChangedRegion) : Prop :=
  (cr_area b <= cr_area a)%Z.

(** The region recorded for a contour. *)
Definition region_of (contour : Contour) : ChangedRegion :=
  {| cr_x := rect_x contour; cr_y := rect_y contour;
     cr_w := rect_w contour; cr_h := rect_h contour;
     cr_area := py_int (contour_area contour) |}.

(** The counters agree with the recorded tests. *)
Definition counters_agree (d : Detector) : Prop :=
  passed_tests d
  = Z.of_nat (List.length (filter test_wcag_compliant (test_results d)))
  /\ failed_tests d
     = Z.of_nat (List.length (filter (fun t => negb (test_wcag_compliant t))
                                     (test_results d))).

(** A world in which no screenshot can be captured. *)
Definition dark_world : FocusWorld :=
  {| capture_screenshot := fun _ => None;
     press_tab := fun _ => true;
     imread := fun _ => false;
     find_contours := fun _ _ => None;
     edge_color := fun _ _ => None;
     get_surrounding_color := fun _ _ _ _ => None;
     estimate_border_thickness := fun _ _ => 1%Z;
     path_basename := fun p => p |}.

(** A world with a black indicator on a white background, three
    pixels thick, found as the larger of two significant contours. *)
Definition lit_world : FocusWorld :=
  {| capture_screenshot := fun name => Some name;
     press_tab := fun _ => true;
     imread := fun _ => true;
     find_contours := fun _ _ =>
       Some [ {| rect_x := 5; rect_y := 5; rect_w := 12; rect_h := 12;
                 contour_area := 100.5 |};
              {| rect_x := 0; rect_y := 0; rect_w := 3; rect_h := 3;
                 contour_area := 9 |};
              {| rect_x := 40; rect_y := 20; rect_w := 80; rect_h := 30;
                 contour_area := 2400 |} ];
     edge_color := fun _ _ => Some [0; 0; 0]%Z;
     get_surrounding_color := fun _ _ _ _ => Some [255; 255; 255]%Z;
     estimate_border_thickness := fun _ _ => 3%Z;
     path_basename := fun p => p |}.

Definition lit_region : ChangedRegion :=
  {| cr_x := 40; cr_y := 20; cr_w := 80; cr_h := 30; cr_area := 2400 |}.

Definition lit_diff : DiffResult :=
  {| has_changes := true;
     changed_regions :=
       [ lit_region;
         {| cr_x := 5; cr_y := 5; cr_w := 12; cr_h := 12; cr_area := 100 |} ];
     total_changes := Some 2%Z |}.

(** The world of [lit_world], with the pointer moved to a corner of
    the screen before the third Tab press. *)
Definition aborted_world : FocusWorld :=
  {| capture_screenshot := capture_screenshot lit_world;
     press_tab := fun i => negb (i =? 2)%Z;
     imread := imread lit_world;
     find_contours := find_contours lit_world;
     edge_color := edge_color lit_world;
     get_surrounding_color := get_surrounding_color lit_world;
     estimate_border_thickness := estimate_border_thickness lit_world;
     path_basename := path_basename lit_world |}.

(** The name of the screenshot taken before the Tab press of
    iteration [i]. *)
Definition before_name (i : Z) : string :=
  ("focus_test_" ++ format_02d (i + 1) ++ "_before.png")%string.

(** [__init__] *)
Definition new_detector : Detector :=
  {| test_results := []; passed_tests := 0; failed_tests := 0;
     tabs_pressed := 0 |}.

End FocusIndicatorDetector.

(* ################################################################# *)
(** * color_contrast_analyzer.py: the files that are loaded *)

Module ScreenshotLoading.
Import ColorContrastAnalyzer.

(** A file name that [load_screenshots] takes for an image: in lower
    case it ends in one of the four extensions. *)
Definition image_name (file : string) : Prop :=
  exists stem extension : string,
    In extension [".png"; ".jpg"; ".jpeg"; ".bmp"]%string
    /\ lower file = (stem ++ extension)%string.

(** [kept files loaded]: [loaded] goes through the listing [files]
    from its first entry to its last and holds the image names, each
    as often as it is listed, and nothing else. *)
Inductive kept : list string -> list string -> Prop :=
| kept_nil : kept [] []
| kept_image (file : string) (files loaded : list string) :
    image_name file -> kept files loaded ->
    kept (file :: files) (file :: loaded)
| kept_other (file : string) (files loaded : list string) :
    ~ image_name file -> kept files loaded ->
    kept (file :: files) loaded.

End ScreenshotLoading.

(* ################################################################# *)
(** * Properties of the contrast calculator *)

Module ContrastFacts.

Import ColorContrastAnalyzer.

Local Open Scope R_scope.

(** ** The Python builtins against the library's [Rmax] and [Rmin] *)

Lemma py_max_Rmax (a b : R) : py_max a b = Rmax a b.
Proof.
  unfold py_max, Rmax.
  destruct (Rgt_dec b a) as [Hgt | Hngt], (Rle_dec a b) as [Hle | Hnle];
    try reflexivity; lra.
Qed.

Lemma py_min_Rmin (a b : R) : py_min a b = Rmin a b.
Proof.
  unfold py_min, Rmin.
  destruct (Rlt_dec b a) as [Hlt | Hnlt], (Rle_dec a b) as [Hle | Hnle];
    try reflexivity; lra.
Qed.

Lemma py_max_comm (a b : R) : py_max a b = py_max b a.
Proof. rewrite !py_max_Rmax. apply Rmax_comm. Qed.

Lemma py_min_comm (a b : R) : py_min a b = py_min b a.
Proof. rewrite !py_min_Rmin. apply Rmin_comm. Qed.

Lemma py_div_nonzero (x y : R) : y <> 0 -> py_div x y = Some (x / y).
Proof.
  intros Hy. unfold py_div.
  destruct (Req_dec_T y 0) as [Heq | _]; [contradiction | reflexivity].
Qed.

(** ** Bounding a quotient by a constant *)

Lemma div_le_bound (x y k : R) : 0 < y -> x <= k * y -> x / y <= k.
Proof.
  intros Hy Hx.
  apply (Rmult_le_reg_r y); [exact Hy | ].
  replace (x / y * y) with x by (field; lra).
  exact Hx.
Qed.

Lemma div_ge_bound (x y k : R) : 0 < y -> k * y <= x -> k <= x / y.
Proof.
  intros Hy Hx.
  apply (Rmult_le_reg_r y); [exact Hy | ].
  replace (x / y * y) with x by (field; lra).
  exact Hx.
Qed.

(** ** Linearisation of one channel *)

(** The power is only taken of a positive base: above the threshold
    the base exceeds [(0.03928 + 0.055) / 1.055]. *)
Lemma power_base_positive (c : R) :
  ~ c <= 0.03928 -> 0 < (c + 0.055) / 1.055.
Proof.
  intros Hc. apply Rdiv_lt_0_compat; lra.
Qed.

Lemma Rpower_le_1 (x y : R) : 0 < x <= 1 -> 0 <= y -> Rpower x y <= 1.
Proof.
  intros Hx Hy.
  replace 1 with (Rpower 1 y).
  - apply Rle_Rpower_l; [exact Hy | exact Hx].
  - unfold Rpower. rewrite ln_1, Rmult_0_r. apply exp_0.
Qed.

Lemma Rpower_pos (x y : R) : 0 < Rpower x y.
Proof. unfold Rpower. apply exp_pos. Qed.

Lemma wcag_linearize_range (c : R) :
  0 <= c <= 1 -> 0 <= wcag_linearize c <= 1.
Proof.
  intros [Hc0 Hc1]. unfold wcag_linearize.
  destruct (Rle_dec c 0.03928) as [Hlow | Hhigh].
  - split; lra.
  - split.
    + left. apply Rpower_pos.
    + apply Rpower_le_1; [ | lra].
      split; [apply power_base_positive; exact Hhigh | ].
      apply div_le_bound; lra.
Qed.

Lemma normalized_channel_range (v : Z) :
  valid_channel v -> 0 <= IZR v / 255 <= 1.
Proof.
  intros [H0 H255].
  apply IZR_le in H0. apply IZR_le in H255.
  split.
  - apply div_ge_bound; lra.
  - apply div_le_bound; lra.
Qed.

(** ** Luminance *)

Lemma relative_luminance_wcag (c : Color) :
  relative_luminance c = wcag_luminance c.
Proof. reflexivity. Qed.

Lemma relative_luminance_range (c : Color) :
  valid_color c -> 0 <= relative_luminance c <= 1.
Proof.
  intros (Hr & Hg & Hb).
  rewrite relative_luminance_wcag. unfold wcag_luminance.
  pose proof (wcag_linearize_range _ (normalized_channel_range _ Hr)) as Lr.
  pose proof (wcag_linearize_range _ (normalized_channel_range _ Hg)) as Lg.
  pose proof (wcag_linearize_range _ (normalized_channel_range _ Hb)) as Lb.
  split; lra.
Qed.

Lemma darker_plus_nonzero (l1 l2 : R) :
  0 <= l1 -> 0 <= l2 -> py_min l1 l2 + 0.05 <> 0.
Proof.
  intros H1 H2. unfold py_min.
  destruct (Rlt_dec l2 l1); lra.
Qed.

(** The ratio of two luminances, once the division is known not to
    raise. *)
Lemma calculate_contrast_ratio_valid (c1 c2 : Color) :
  valid_color c1 -> valid_color c2 ->
  calculate_contrast_ratio c1 c2 =
  Some ((Rmax (relative_luminance c1) (relative_luminance c2) + 0.05)
        / (Rmin (relative_luminance c1) (relative_luminance c2) + 0.05)).
Proof.
  intros V1 V2.
  pose proof (relative_luminance_range c1 V1) as [L1 _].
  pose proof (relative_luminance_range c2 V2) as [L2 _].
  unfold calculate_contrast_ratio.
  rewrite py_div_nonzero by (apply darker_plus_nonzero; assumption).
  rewrite py_max_Rmax, py_min_Rmin. reflexivity.
Qed.

Lemma valid_white : valid_color white.
Proof. unfold valid_color, valid_channel; simpl; lia. Qed.

Lemma valid_black : valid_color black.
Proof. unfold valid_color, valid_channel; simpl; lia. Qed.

(** ** The two extreme colours *)

Lemma wcag_linearize_0 : wcag_linearize 0 = 0.
Proof.
  unfold wcag_linearize.
  destruct (Rle_dec 0 0.03928) as [_ | N]; lra.
Qed.

Lemma wcag_linearize_1 : wcag_linearize 1 = 1.
Proof.
  unfold wcag_linearize.
  destruct (Rle_dec 1 0.03928) as [H | _]; [lra | ].
  replace ((1 + 0.055) / 1.055) with 1 by lra.
  unfold Rpower. rewrite ln_1, Rmult_0_r. apply exp_0.
Qed.

Lemma relative_luminance_black : relative_luminance black = 0.
Proof.
  rewrite relative_luminance_wcag. unfold wcag_luminance, black; simpl.
  replace (0 / 255) with 0 by lra.
  rewrite wcag_linearize_0. lra.
Qed.

Lemma relative_luminance_white : relative_luminance white = 1.
Proof.
  rewrite relative_luminance_wcag. unfold wcag_luminance, white; simpl.
  replace (255 / 255) with 1 by lra.
  rewrite wcag_linearize_1. lra.
Qed.

(** Black on white has the largest ratio, 21. *)
Lemma contrast_black_white : calculate_contrast_ratio black white = Some 21.
Proof.
  unfold calculate_contrast_ratio.
  rewrite relative_luminance_black, relative_luminance_white.
  rewrite py_max_Rmax, py_min_Rmin.
  rewrite Rmax_right, Rmin_left by lra.
  rewrite py_div_nonzero by lra.
  f_equal. lra.
Qed.

(** C1. On RGB colours with channels in [0,255],
    [calculate_contrast_ratio] returns (without raising) the ratio of
    the WCAG 2.1 algorithm: channels normalised by 255, linearised
    through [c/12.92] up to 0.03928 and [((c+0.055)/1.055)^2.4] above,
    weighted 0.2126/0.7152/0.0722, and
    (max(L1,L2) + 0.05) / (min(L1,L2) + 0.05). *)
Theorem calculate_contrast_ratio_follows_wcag (color1 color2 : Color) :
  valid_color color1 -> valid_color color2 ->
  calculate_contrast_ratio color1 color2
  = Some (wcag_contrast_ratio color1 color2).
Proof.
  intros V1 V2.
  rewrite (calculate_contrast_ratio_valid _ _ V1 V2).
  unfold wcag_contrast_ratio.
  rewrite !relative_luminance_wcag. reflexivity.
Qed.

Lemma calculate_contrast_ratio_follows_wcag_witness :
  valid_color white /\ valid_color black /\
  calculate_contrast_ratio white black
  = Some (wcag_contrast_ratio white black).
Proof.
  split; [exact valid_white | split; [exact valid_black | ]].
  apply (calculate_contrast_ratio_follows_wcag white black);
    [exact valid_white | exact valid_black].
Defined.

(** C3. For colours with all channels in [0,255] the call does not
    raise, and the returned ratio lies between 1 and 21. *)
Theorem calculate_contrast_ratio_bounds (color1 color2 : Color) :
  valid_color color1 -> valid_color color2 ->
  exists ratio : R,
    calculate_contrast_ratio color1 color2 = Some ratio
    /\ 1 <= ratio <= 21.
Proof.
  intros V1 V2.
  rewrite (calculate_contrast_ratio_valid _ _ V1 V2).
  eexists; split; [reflexivity | ].
  pose proof (relative_luminance_range color1 V1) as [L1 U1].
  pose proof (relative_luminance_range color2 V2) as [L2 U2].
  set (l1 := relative_luminance color1) in *.
  set (l2 := relative_luminance color2) in *.
  assert (Hmin : 0 <= Rmin l1 l2) by (apply Rmin_glb; assumption).
  assert (Hmax : Rmax l1 l2 <= 1) by (apply Rmax_lub; assumption).
  pose proof (Rmin_l l1 l2) as Hml.
  pose proof (Rmax_l l1 l2) as HMl.
  split.
  - apply div_ge_bound; lra.
  - apply div_le_bound; lra.
Qed.

Lemma calculate_contrast_ratio_bounds_witness :
  valid_color white /\ valid_color gray118 /\
  exists ratio : R,
    calculate_contrast_ratio white gray118 = Some ratio
    /\ 1 <= ratio <= 21.
Proof.
  assert (V : valid_color gray118)
    by (unfold valid_color, valid_channel; simpl; lia).
  split; [exact valid_white | split; [exact V | ]].
  exact (calculate_contrast_ratio_bounds white gray118 valid_white V).
Defined.

(** C7. The contrast ratio does not depend on the order of the two
    colours. *)
Theorem calculate_contrast_ratio_symmetric (a b : Color) :
  calculate_contrast_ratio a b = calculate_contrast_ratio b a.
Proof.
  unfold calculate_contrast_ratio.
  rewrite (py_max_comm (relative_luminance a)).
  rewrite (py_min_comm (relative_luminance a)).
  reflexivity.
Qed.

(** C8. The contrast ratio of an RGB colour (channels in [0,255])
    with itself is 1. *)
Theorem calculate_contrast_ratio_same_color (c : Color) :
  valid_color c -> calculate_contrast_ratio c c = Some 1.
Proof.
  intros V.
  rewrite (calculate_contrast_ratio_valid _ _ V V).
  pose proof (relative_luminance_range c V) as [L _].
  unfold Rmax, Rmin.
  destruct (Rle_dec (relative_luminance c) (relative_luminance c)) as [_ | N].
  - f_equal. field. lra.
  - exfalso. apply N. apply Rle_refl.
Qed.

Lemma calculate_contrast_ratio_same_color_witness :
  valid_color gray118 /\ calculate_contrast_ratio gray118 gray118 = Some 1.
Proof.
  assert (V : valid_color gray118)
    by (unfold valid_color, valid_channel; simpl; lia).
  split; [exact V | exact (calculate_contrast_ratio_same_color gray118 V)].
Defined.

(** ** Font sizes and file names, evaluated *)

Example estimate_font_size_20px : (estimate_font_size 20 == 15)%Q.
Proof. reflexivity. Qed.

Example estimate_font_size_19px :
  Qle_bool 14 (estimate_font_size 19) = true
  /\ Qle_bool 14 (estimate_font_size 18) = false
  /\ Qle_bool 18 (estimate_font_size 24) = true.
Proof. repeat split. Qed.

Example endswith_upper_case :
  endswith (lower "Menu.PNG") valid_extensions = true
  /\ endswith (lower "notes.txt") valid_extensions = false
  /\ endswith (lower "png") valid_extensions = false.
Proof. repeat split. Qed.

(** ** check_text_contrast *)

(** What a produced text check records. *)
Lemma check_text_contrast_inv (E : Env) (img : Img E) (region : Region)
  (c : ContrastCheck) :
  check_text_contrast E img region = Some c ->
  exists (fg bg : Color) (ratio : R),
    get_pixel_color E img (x region + w region / 2)%Z
                    (y region + h region / 2)%Z = Some fg
    /\ get_surrounding_color E img (x region + w region / 2)%Z
                             (y region + h region / 2)%Z
                             (h region / 2 + 5)%Z = Some bg
    /\ calculate_contrast_ratio fg bg = Some ratio
    /\ required c
       = (if Qle_bool 18 (estimate_font_size (h region))
             || Qle_bool 14 (estimate_font_size (h region))
          then 3.0 else 4.5)
    /\ passes c = (if Rge_dec ratio (required c) then true else false).
Proof.
  unfold check_text_contrast. intros H.
  destruct (get_pixel_color E img _ _) as [fg | ] eqn:Hfg; [ | discriminate].
  destruct (get_surrounding_color E img _ _ _) as [bg | ] eqn:Hbg;
    [ | discriminate].
  destruct (calculate_contrast_ratio fg bg) as [ratio | ] eqn:Hratio;
    [ | discriminate].
  injection H as <-. simpl.
  exists fg, bg, ratio. repeat split; try reflexivity; assumption.
Qed.

(** The test [>= 18 or >= 14] is the test [>= 14]. *)
Lemma large_text_test (size : Q) :
  Qle_bool 18 size || Qle_bool 14 size = Qle_bool 14 size.
Proof.
  destruct (Qle_bool 18 size) eqn:H18; [ | reflexivity].
  simpl. symmetry. apply Qle_bool_iff. apply Qle_bool_iff in H18.
  apply Qle_trans with (y := 18%Q); [ | exact H18].
  unfold Qle; simpl; lia.
Qed.

Lemma passes_iff (ratio threshold : R) :
  (if Rge_dec ratio threshold then true else false) = true
  <-> ratio >= threshold.
Proof.
  destruct (Rge_dec ratio threshold) as [Hge | Hnge]; split; intros H;
    try assumption; try reflexivity; try discriminate; contradiction.
Qed.

Lemma check_text_contrast_sample :
  exists c : ContrastCheck,
    check_text_contrast sample_env tt region15pt = Some c
    /\ required c = 3.0 /\ passes c = true.
Proof.
  cbv [check_text_contrast sample_env get_pixel_color get_surrounding_color].
  rewrite contrast_black_white.
  eexists; split; [reflexivity | ]. simpl.
  split; [reflexivity | ].
  destruct (Rge_dec 21 3.0) as [_ | N]; [reflexivity | lra].
Qed.

(** C2, as claimed, does not hold: the claim makes the 3.0 threshold
    depend on whether the text is bold between 14pt and 18pt; the
    analyzer has no notion of bold and gives a 15pt region the
    threshold 3.0, where the claim asks 4.5 for text that is not
    bold. *)
Lemma check_text_contrast_ignores_bold :
  ~ (forall (E : Env) (img : Img E) (region : Region) (bold : bool)
            (c : ContrastCheck),
        check_text_contrast E img region = Some c ->
        required c
        = wcag_text_threshold (estimate_font_size (h region)) bold).
Proof.
  intros claim.
  destruct check_text_contrast_sample as (c & Hc & Hreq & _).
  specialize (claim sample_env tt region15pt false c Hc).
  rewrite Hreq in claim.
  unfold wcag_text_threshold, wcag_large_text in claim.
  simpl in claim. lra.
Qed.

(** C2, amended.  For every detected text region for which a check is
    produced, the required threshold is 3.0 when the estimated font
    size (height in pixels times 0.75) is at least 14pt and 4.5
    otherwise (every region is taken to be bold), and the check passes
    exactly when the computed ratio is at least that threshold. *)
Theorem check_text_contrast_threshold (E : Env) (img : Img E)
  (region : Region) (c : ContrastCheck) :
  check_text_contrast E img region = Some c ->
  exists (fg bg : Color) (ratio : R),
    get_pixel_color E img (x region + w region / 2)%Z
                    (y region + h region / 2)%Z = Some fg
    /\ get_surrounding_color E img (x region + w region / 2)%Z
                             (y region + h region / 2)%Z
                             (h region / 2 + 5)%Z = Some bg
    /\ calculate_contrast_ratio fg bg = Some ratio
    /\ required c
       = (if Qle_bool 14 (estimate_font_size (h region)) then 3.0 else 4.5)
    /\ (passes c = true <-> ratio >= required c).
Proof.
  intros H.
  destruct (check_text_contrast_inv E img region c H)
    as (fg & bg & ratio & Hfg & Hbg & Hratio & Hreq & Hpass).
  exists fg, bg, ratio.
  rewrite large_text_test in Hreq.
  repeat split; try assumption.
  - intros Hp. rewrite Hpass in Hp. apply passes_iff. exact Hp.
  - intros Hge. rewrite Hpass. apply passes_iff. exact Hge.
Qed.

Lemma check_text_contrast_threshold_witness :
  exists c : ContrastCheck,
    check_text_contrast sample_env tt region15pt = Some c
    /\ exists (fg bg : Color) (ratio : R),
         get_pixel_color sample_env tt
           (x region15pt + w region15pt / 2)%Z
           (y region15pt + h region15pt / 2)%Z = Some fg
         /\ get_surrounding_color sample_env tt
              (x region15pt + w region15pt / 2)%Z
              (y region15pt + h region15pt / 2)%Z
              (h region15pt / 2 + 5)%Z = Some bg
         /\ calculate_contrast_ratio fg bg = Some ratio
         /\ required c
            = (if Qle_bool 14 (estimate_font_size (h region15pt))
               then 3.0 else 4.5)
         /\ (passes c = true <-> ratio >= required c).
Proof.
  destruct check_text_contrast_sample as (c & Hc & _).
  exists c. split; [exact Hc | ].
  exact (check_text_contrast_threshold sample_env tt region15pt c Hc).
Defined.

(** ** Summaries *)

Lemma analyze_screenshot_cases (E : Env) (results : list ScreenshotResult)
  (image_path : string) :
  analyze_screenshot E results image_path = (results, None)
  \/ exists r : ScreenshotResult,
       analyze_screenshot E results image_path = (results ++ [r], Some r)
       /\ consistent r /\ path r = image_path.
Proof.
  unfold analyze_screenshot.
  destruct (path_exists E image_path); simpl; [ | left; reflexivity].
  destruct (Image_open E image_path) as [img | ]; [ | left; reflexivity].
  match goal with
  | |- context [match ?s with Some _ => _ | None => (results, None) end] =>
      destruct s as [[issues passed] | ]
  end; [ | left; reflexivity].
  right. eexists. split; [reflexivity | ]. split; reflexivity.
Qed.

Lemma reachable_consistent (E : Env) (results : list ScreenshotResult) :
  reachable E results -> Forall consistent results.
Proof.
  induction 1 as [ | results image_path _ IH].
  - constructor.
  - destruct (analyze_screenshot_cases E results image_path)
      as [-> | (r & -> & Hr & _)]; simpl.
    + exact IH.
    + apply Forall_app. split; [exact IH | ]. constructor; [exact Hr | constructor].
Qed.

Lemma fold_left_add_shift (l : list Z) (a : Z) :
  fold_left Z.add l a = (a + fold_left Z.add l 0)%Z.
Proof.
  revert a. induction l as [ | n l IH]; intros a; simpl.
  - lia.
  - rewrite (IH (a + n)%Z), (IH n). lia.
Qed.

Lemma py_sum_cons (n : Z) (l : list Z) : py_sum (n :: l) = (n + py_sum l)%Z.
Proof. unfold py_sum. simpl. apply fold_left_add_shift. Qed.

Lemma py_sum_nil : py_sum [] = 0%Z.
Proof. reflexivity. Qed.

(** The three sums of [get_summary] over consistent results. *)
Lemma sums_consistent (results : list ScreenshotResult) :
  Forall consistent results ->
  py_sum (map (fun r => total_checks (summary r)) results)
  = (py_sum (map (fun r => passed (summary r)) results)
     + py_sum (map (fun r => failed (summary r)) results))%Z.
Proof.
  induction 1 as [ | r results Hr _ IH]; simpl.
  - reflexivity.
  - rewrite !py_sum_cons, IH, Hr. simpl. lia.
Qed.

Lemma failed_sum_nonneg (results : list ScreenshotResult) :
  Forall consistent results ->
  (0 <= py_sum (map (fun r => failed (summary r)) results))%Z.
Proof.
  induction 1 as [ | r results Hr _ IH]; simpl.
  - rewrite py_sum_nil. lia.
  - rewrite py_sum_cons, Hr. simpl. lia.
Qed.

Lemma failed_sum_zero (results : list ScreenshotResult) :
  Forall consistent results ->
  py_sum (map (fun r => failed (summary r)) results) = 0%Z
  <-> Forall (fun r => result_issues r = []) results.
Proof.
  induction 1 as [ | r results Hr Hrest IH]; simpl.
  - split; [constructor | reflexivity].
  - rewrite py_sum_cons.
    pose proof (failed_sum_nonneg results Hrest) as Hnonneg.
    assert (Hf : failed (summary r) = Z.of_nat (List.length (result_issues r)))
      by (rewrite Hr; reflexivity).
    split.
    + intros Hsum. constructor.
      * destruct (result_issues r); [reflexivity | simpl in Hf; lia].
      * apply IH. lia.
    + intros Hall. inversion Hall as [ | ? ? Hnil Hall']; subst.
      rewrite Hnil in Hf. simpl in Hf. apply IH in Hall'. lia.
Qed.

(** C10. In every summary the analyzer produces, [total_checks] is
    [passed + failed], the pass rate is [passed / total_checks * 100]
    when [total_checks > 0] and 0 otherwise, and [wcag_compliant] holds
    exactly when nothing failed and at least one screenshot was
    analysed.  This holds of the summary of each result in
    [contrast_results] (each was built by [analyze_screenshot]) and of
    the aggregate of [get_summary]. *)
Theorem summaries_consistent (E : Env) (a : Analyzer) :
  reachable E (contrast_results a) ->
  (forall r : ScreenshotResult,
      In r (contrast_results a) ->
      let s := summary r in
      total_checks s = (passed s + failed s)%Z
      /\ pass_rate s
         = (if (total_checks s >? 0)%Z
            then (inject_Z (passed s) / inject_Z (total_checks s) * 100)%Q
            else 0%Q)
      /\ (wcag_compliant s = true
          <-> failed s = 0%Z /\ (0 < List.length (contrast_results a))%nat))
  /\ (let s := get_summary a in
      overall_total_checks s = (total_passed s + total_failed s)%Z
      /\ overall_pass_rate s
         = (if (overall_total_checks s >? 0)%Z
            then (inject_Z (total_passed s)
                  / inject_Z (overall_total_checks s) * 100)%Q
            else 0%Q)
      /\ screenshots_analyzed s = Z.of_nat (List.length (contrast_results a))
      /\ (overall_wcag_compliant s = true
          <-> total_failed s = 0%Z /\ (0 < screenshots_analyzed s)%Z)).
Proof.
  intros Hreach.
  pose proof (reachable_consistent E _ Hreach) as Hall.
  split.
  - intros r Hin s.
    assert (Hr : consistent r)
      by (rewrite Forall_forall in Hall; apply Hall; exact Hin).
    unfold s, consistent in *. rewrite Hr. simpl.
    split; [lia | ]. split; [reflexivity | ].
    rewrite Z.eqb_eq.
    destruct (contrast_results a); [contradiction | simpl].
    split; [intros H0; split; [exact H0 | lia] | intros [H0 _]; exact H0].
  - unfold get_summary.
    destruct (contrast_results a) as [ | r0 rest] eqn:Hres.
    + simpl. repeat split; try reflexivity; try discriminate.
      intros [_ H]; lia.
    + cbv zeta. cbn [overall_total_checks total_passed total_failed
                     overall_pass_rate screenshots_analyzed
                     overall_wcag_compliant].
      split; [apply sums_consistent; exact Hall | ].
      split; [reflexivity | ]. split; [reflexivity | ].
      rewrite Z.eqb_eq. simpl List.length.
      split; [intros H0; split; [exact H0 | lia] | intros [H0 _]; exact H0].
Qed.

(** ** The run of [main] *)

Lemma main_setup (E : Env) (argv : list string) :
  main E argv
  = match setup E argv with
    | None => {| report := None; exit_code := 1 |}
    | Some (analyzer, output_path) =>
        finish E (fst (analyze_all_screenshots E analyzer)) output_path
    end.
Proof.
  unfold main, setup.
  destruct argv as [ | prog [ | arg1 rest]]; try reflexivity.
  destruct (String.eqb arg1 "--screenshot").
  - destruct (argv_or_none (prog :: arg1 :: rest) 2); reflexivity.
  - destruct (String.eqb arg1 "--capture").
    + destruct (capture_screenshot E); reflexivity.
    + destruct (init E (Some arg1)); reflexivity.
Qed.

Lemma setup_fresh (E : Env) (argv : list string) (analyzer : Analyzer)
  (output_path : option string) :
  setup E argv = Some (analyzer, output_path) ->
  contrast_results analyzer = [].
Proof.
  unfold setup.
  destruct argv as [ | prog [ | arg1 rest]]; try discriminate.
  destruct (String.eqb arg1 "--screenshot").
  - destruct (argv_or_none (prog :: arg1 :: rest) 2); [ | discriminate].
    intros H; injection H as <- _; reflexivity.
  - destruct (String.eqb arg1 "--capture").
    + destruct (capture_screenshot E); [ | discriminate].
      intros H; injection H as <- _; reflexivity.
    + unfold init, load_screenshots.
      destruct (negb (String.eqb arg1 EmptyString) && path_exists E arg1).
      * destruct (os_listdir E arg1); [ | discriminate].
        intros H; injection H as <- _; reflexivity.
      * intros H; injection H as <- _; reflexivity.
Qed.

Lemma fold_analyze_reachable (E : Env) (paths : list string)
  (results : list ScreenshotResult) :
  reachable E results ->
  reachable E (fold_left (fun results screenshot =>
                            fst (analyze_screenshot E results screenshot))
                         paths results).
Proof.
  revert results. induction paths as [ | p paths IH]; intros results Hr; simpl.
  - exact Hr.
  - apply IH. apply reachable_analyze. exact Hr.
Qed.

Lemma analyze_all_reachable (E : Env) (a : Analyzer) :
  reachable E (contrast_results a) ->
  reachable E (contrast_results (fst (analyze_all_screenshots E a))).
Proof.
  intros Hr. unfold analyze_all_screenshots.
  destruct (screenshots a) as [ | p paths] eqn:Hs; simpl.
  - exact Hr.
  - apply (fold_analyze_reachable E paths). apply reachable_analyze. exact Hr.
Qed.

Lemma analyze_all_no_screenshots (E : Env) (a : Analyzer) :
  screenshots a = [] -> fst (analyze_all_screenshots E a) = a.
Proof.
  intros Hs. unfold analyze_all_screenshots. rewrite Hs. reflexivity.
Qed.

(** When [get_summary] reports compliance. *)
Lemma get_summary_compliant (a : Analyzer) :
  Forall consistent (contrast_results a) ->
  overall_wcag_compliant (get_summary a) = true
  <-> contrast_results a <> []
      /\ Forall (fun r => result_issues r = []) (contrast_results a).
Proof.
  intros Hall. unfold get_summary.
  destruct (contrast_results a) as [ | r rest] eqn:Hres.
  - simpl. split; [discriminate | intros [H _]; contradiction].
  - cbn [overall_wcag_compliant]. rewrite Z.eqb_eq.
    rewrite (failed_sum_zero _ Hall).
    split; [intros H; split; [discriminate | exact H] | intros [_ H]; exact H].
Qed.

Lemma finish_exit_code (E : Env) (a : Analyzer) (output_path : option string) :
  exit_code (finish E a output_path)
  = if can_write E (resolve_output_path E output_path)
    then (if overall_wcag_compliant (get_summary a) then 0 else 1)%Z
    else 1%Z.
Proof.
  unfold finish, save_report. cbv zeta.
  destruct (can_write E _); reflexivity.
Qed.

Lemma finish_report (E : Env) (a : Analyzer) (output_path : option string) :
  can_write E (resolve_output_path E output_path) = true ->
  report (finish E a output_path)
  = Some (resolve_output_path E output_path,
          {| report_summary := get_summary a;
             report_results := contrast_results a |}).
Proof.
  intros Hw. unfold finish, save_report. cbv zeta.
  rewrite Hw. reflexivity.
Qed.

Lemma setup_sample :
  setup sample_env sample_argv
  = Some ({| screenshots := ["shots/a.png"; "shots/b.png"]%string;
             contrast_results := [] |}, None).
Proof. reflexivity. Qed.

Lemma analyze_sample_a (results : list ScreenshotResult) :
  exists r : ScreenshotResult,
    analyze_screenshot sample_env results "shots/a.png"
    = (results ++ [r], Some r)
    /\ result_issues r = [] /\ List.length (result_passed r) = 1%nat.
Proof.
  destruct check_text_contrast_sample as (c & Hc & Hreq & Hpass).
  unfold analyze_screenshot.
  cbn [sample_env path_exists Image_open TESSERACT_AVAILABLE
       detect_text_regions_ocr negb fold_left].
  rewrite String.eqb_refl.
  cbn [orb List.length Z.of_nat Pos.of_succ_nat Z.eqb].
  rewrite Hc. unfold record_check. rewrite Hpass.
  eexists. split; [reflexivity | ]. split; reflexivity.
Qed.

Lemma analyze_sample_b (results : list ScreenshotResult) :
  analyze_screenshot sample_env results "shots/b.png" = (results, None).
Proof. reflexivity. Qed.

Lemma sample_results :
  exists r : ScreenshotResult,
    contrast_results
      (fst (analyze_all_screenshots sample_env
              {| screenshots := ["shots/a.png"; "shots/b.png"]%string;
                 contrast_results := [] |})) = [r]
    /\ result_issues r = [] /\ List.length (result_passed r) = 1%nat.
Proof.
  destruct (analyze_sample_a []) as (r & Ha & Hr).
  exists r. split; [ | exact Hr].
  unfold analyze_all_screenshots.
  cbn [screenshots contrast_results fst fold_left].
  rewrite Ha. cbn [fst app]. rewrite analyze_sample_b. reflexivity.
Qed.

Lemma sample_exit_code : exit_code (main sample_env sample_argv) = 0%Z.
Proof.
  rewrite main_setup, setup_sample, finish_exit_code.
  change (can_write sample_env (resolve_output_path sample_env None))
    with true.
  cbv iota.
  replace (overall_wcag_compliant _) with true; [reflexivity | ].
  symmetry. apply get_summary_compliant.
  - apply (reachable_consistent sample_env).
    apply analyze_all_reachable. constructor.
  - destruct sample_results as (r & -> & Hissues & _).
    split; [discriminate | ].
    constructor; [exact Hissues | constructor].
Qed.

(** C4, as claimed, does not hold: in the sample run one of the two
    screenshots of the directory cannot be opened, so an I/O error
    occurred, and the run still exits with code 0, because the other
    screenshot was analysed and its check passed. *)
Lemma exit_code_claim_fails : ~ exit_code_claim.
Proof.
  intros claim.
  destruct (claim sample_env sample_argv) as [_ Hback].
  apply Hback; [ | exact sample_exit_code].
  right. unfold io_error_occurred. rewrite setup_sample.
  left. exists "shots/b.png"%string.
  split; [simpl; right; left; reflexivity | right; reflexivity].
Qed.

(** C4, amended.  The exit code is 0 or 1.  It is 0 exactly when the
    run reached the analysis, the report could be written, at least
    one screenshot was analysed and no analysed screenshot has a
    failed check; a screenshot that cannot be found or opened is
    skipped and does not by itself change the exit code.  When there
    are no input images at all, a report with no results is written
    and the exit code is 1. *)
Theorem main_exit_code (E : Env) (argv : list string) :
  (exit_code (main E argv) = 0%Z \/ exit_code (main E argv) = 1%Z)
  /\ (exit_code (main E argv) = 0%Z
      <-> exists (analyzer : Analyzer) (output_path : option string),
            setup E argv = Some (analyzer, output_path)
            /\ can_write E (resolve_output_path E output_path) = true
            /\ contrast_results (fst (analyze_all_screenshots E analyzer)) <> []
            /\ Forall (fun r => result_issues r = [])
                 (contrast_results (fst (analyze_all_screenshots E analyzer))))
  /\ (forall (analyzer : Analyzer) (output_path : option string),
        setup E argv = Some (analyzer, output_path) ->
        screenshots analyzer = [] ->
        can_write E (resolve_output_path E output_path) = true ->
        exit_code (main E argv) = 1%Z
        /\ exists rep : Report,
             report (main E argv)
             = Some (resolve_output_path E output_path, rep)
             /\ report_results rep = []
             /\ overall_total_checks (report_summary rep) = 0%Z).
Proof.
  rewrite main_setup.
  destruct (setup E argv) as [[analyzer output_path] | ] eqn:Hsetup.
  - pose proof (setup_fresh E argv analyzer output_path Hsetup) as Hfresh.
    assert (Hreach : reachable E (contrast_results
                        (fst (analyze_all_screenshots E analyzer))))
      by (apply analyze_all_reachable; rewrite Hfresh; constructor).
    pose proof (get_summary_compliant _ (reachable_consistent E _ Hreach))
      as Hcompl.
    rewrite finish_exit_code.
    split; [ | split].
    + destruct (can_write E _); [ | right; reflexivity].
      destruct (overall_wcag_compliant _); [left | right]; reflexivity.
    + split.
      * intros Hexit. exists analyzer, output_path.
        destruct (can_write E _); [ | discriminate].
        destruct (overall_wcag_compliant _) eqn:Hc; [ | discriminate].
        split; [reflexivity | ]. split; [reflexivity | ].
        apply Hcompl. reflexivity.
      * intros (analyzer' & output_path' & Heq & Hw & Hne & Hall).
        injection Heq as <- <-. rewrite Hw.
        replace (overall_wcag_compliant _) with true; [reflexivity | ].
        symmetry. apply Hcompl. split; assumption.
    + intros analyzer' output_path' Heq Hnone Hw.
      injection Heq as <- <-.
      rewrite (analyze_all_no_screenshots E analyzer Hnone) in *.
      rewrite Hw. rewrite (finish_report E analyzer output_path Hw).
      unfold get_summary. rewrite Hfresh. simpl.
      split; [reflexivity | ].
      eexists. split; [reflexivity | ]. split; reflexivity.
  - split; [right; reflexivity | ]. split.
    + split; [discriminate | ].
      intros (analyzer & output_path & Heq & _). discriminate.
    + intros analyzer output_path Heq. discriminate.
Qed.


Lemma main_exit_code_witness :
  setup sample_env empty_argv
  = Some ({| screenshots := []; contrast_results := [] |}, None)
  /\ can_write sample_env (resolve_output_path sample_env None) = true
  /\ exit_code (main sample_env empty_argv) = 1%Z
  /\ exists rep : Report,
       report (main sample_env empty_argv)
       = Some (resolve_output_path sample_env None, rep)
       /\ report_results rep = []
       /\ overall_total_checks (report_summary rep) = 0%Z.
Proof.
  split; [reflexivity | ]. split; [reflexivity | ].
  exact (proj2 (proj2 (main_exit_code sample_env empty_argv))
           {| screenshots := []; contrast_results := [] |} None
           eq_refl eq_refl eq_refl).
Defined.

Lemma summaries_consistent_witness :
  reachable sample_env (contrast_results sample_analyzer)
  /\ overall_total_checks (get_summary sample_analyzer)
     = (total_passed (get_summary sample_analyzer)
        + total_failed (get_summary sample_analyzer))%Z.
Proof.
  assert (Hr : reachable sample_env (contrast_results sample_analyzer))
    by (apply reachable_analyze; apply reachable_init).
  split; [exact Hr | ].
  exact (proj1 (proj2 (summaries_consistent sample_env sample_analyzer Hr))).
Defined.

End ContrastFacts.

(* ################################################################# *)
(** * Properties of the colour-blindness simulator *)

Module SimulatorFacts.

Import ColorBlindSimulator.

(** ** The dictionary *)

Lemma keys_eq :
  keys = ["protanopia"; "deuteranopia"; "tritanopia"; "protanomaly";
          "deuteranomaly"; "tritanomaly"; "achromatopsia";
          "achromatomaly"]%string.
Proof. reflexivity. Qed.

Lemma lookup_none (k : string) (d : list (string * Transformation)) :
  lookup k d = None <-> ~ In k (map fst d).
Proof.
  induction d as [ | [k' t] d IH]; simpl.
  - split; [intros _ [] | reflexivity].
  - destruct (String.eqb k k') eqn:Hk.
    + apply String.eqb_eq in Hk. subst k'.
      split; [discriminate | intros H; exfalso; apply H; left; reflexivity].
    + apply String.eqb_neq in Hk. rewrite IH.
      split.
      * intros Hn [Heq | Hin]; [apply Hk; symmetry; exact Heq | exact (Hn Hin)].
      * intros Hn Hin. apply Hn. right. exact Hin.
Qed.

Lemma lookup_some (k : string) (d : list (string * Transformation)) :
  In k (map fst d) -> exists t, lookup k d = Some t.
Proof.
  intros Hin. destruct (lookup k d) as [t | ] eqn:Hl.
  - exists t. reflexivity.
  - apply lookup_none in Hl. contradiction.
Qed.

(** ** Grouping by three *)

Lemma reshape3_flatten3 {A : Type} (rows : list (A * A * A)) :
  reshape3 (flatten3 rows) = Some rows.
Proof.
  induction rows as [ | [[a b] c] rows IH]; simpl.
  - reflexivity.
  - fold (flatten3 rows). rewrite IH. reflexivity.
Qed.

Lemma reshape3_some {A : Type} (l : list A) (rows : list (A * A * A)) :
  reshape3 l = Some rows -> l = flatten3 rows.
Proof.
  revert l.
  induction rows as [ | [[a b] c] rows IH]; intros l H.
  - destruct l as [ | x [ | y [ | z l]]]; simpl in H; try discriminate.
    + reflexivity.
    + destruct (reshape3 l); discriminate.
  - destruct l as [ | x [ | y [ | z l]]]; simpl in H; try discriminate.
    destruct (reshape3 l) as [rows' | ] eqn:Hl; [ | discriminate].
    injection H as -> -> -> ->.
    simpl. fold (flatten3 rows). rewrite (IH l Hl). reflexivity.
Qed.

Lemma reshape3_length {A : Type} (n : nat) (l : list A) :
  List.length l = (n * 3)%nat -> exists rows, reshape3 l = Some rows.
Proof.
  revert l. induction n as [ | n IH]; intros l Hlen.
  - destruct l; [ | discriminate]. exists []. reflexivity.
  - destruct l as [ | x [ | y [ | z l]]]; simpl in Hlen; try discriminate.
    destruct (IH l) as (rows & Hrows); [lia | ].
    exists ((x, y, z) :: rows). simpl. rewrite Hrows. reflexivity.
Qed.

Lemma map_flatten3 {A B : Type} (f : A -> B) (rows : list (A * A * A)) :
  map f (flatten3 rows) = flatten3 (map (map3 f) rows).
Proof.
  induction rows as [ | [[a b] c] rows IH]; simpl.
  - reflexivity.
  - fold (flatten3 rows). fold (flatten3 (map (map3 f) rows)).
    rewrite IH. reflexivity.
Qed.

Lemma flat_map_triple {A : Type} (l : list A) :
  flat_map (fun v => [v; v; v]) l = flatten3 (map (fun v => (v, v, v)) l).
Proof.
  induction l as [ | v l IH]; simpl.
  - reflexivity.
  - fold (flatten3 (map (fun v => (v, v, v)) l)). rewrite IH. reflexivity.
Qed.

(** ** Clipping and conversion *)

Section Arithmetic.

Variable N : Float64.
Hypothesis ieee : ieee754 N.

Lemma less_equal_refl_of_int (k : Z) :
  (0 <= k <= 255)%Z -> less_equal N (of_int N k) (of_int N k) = true.
Proof.
  intros Hk. rewrite (less_equal_of_int N ieee k k Hk Hk).
  apply Z.leb_refl.
Qed.

(** A clipped value lies between 0 and 1. *)
Lemma clamp01_range (x : float64 N) :
  less_equal N (of_int N 0) (clamp01 N x) = true
  /\ less_equal N (clamp01 N x) (of_int N 1) = true.
Proof.
  assert (H00 : less_equal N (of_int N 0) (of_int N 0) = true)
    by (apply less_equal_refl_of_int; lia).
  assert (H11 : less_equal N (of_int N 1) (of_int N 1) = true)
    by (apply less_equal_refl_of_int; lia).
  assert (H01 : less_equal N (of_int N 0) (of_int N 1) = true)
    by (rewrite (less_equal_of_int N ieee) by lia; reflexivity).
  unfold clamp01, clip.
  destruct (less_equal N (of_int N 0) x) eqn:H0x.
  - destruct (less_equal N x (of_int N 1)) eqn:Hx1.
    + split; assumption.
    + split; assumption.
  - rewrite H01. split; assumption.
Qed.

(** Rescaling a value between 0 and 1 gives a byte. *)
Lemma rescale_8bit_range (x : float64 N) :
  less_equal N (of_int N 0) x = true ->
  less_equal N x (of_int N 1) = true ->
  uint8 (rescale_8bit N x).
Proof.
  intros H0 H1.
  pose proof (multiply_255_monotone N ieee _ _ H0) as Hlow.
  pose proof (multiply_255_monotone N ieee _ _ H1) as Hhigh.
  rewrite (multiply_255_zero N ieee) in Hlow.
  rewrite (multiply_255_one N ieee) in Hhigh.
  unfold uint8, rescale_8bit. split.
  - rewrite <- (astype_uint8_of_int N ieee 0) at 1 by lia.
    apply (astype_uint8_monotone N ieee);
      [apply less_equal_refl_of_int; lia | exact Hlow | exact Hhigh].
  - rewrite <- (astype_uint8_of_int N ieee 255) at 2 by lia.
    apply (astype_uint8_monotone N ieee);
      [exact Hlow | exact Hhigh | apply less_equal_refl_of_int; lia].
Qed.


End Arithmetic.

(** The arithmetic without rounding is one such arithmetic. *)
Lemma exact_ieee754 : ieee754 exact.
Proof.
  constructor; cbn [exact float64 of_int multiply less_equal astype_uint8].
  - intros j k _ _. unfold Qle_bool. simpl. rewrite !Z.mul_1_r. reflexivity.
  - intros a b Hab. apply Qle_bool_iff. apply Qle_bool_iff in Hab.
    apply Qmult_le_compat_r; [exact Hab | discriminate].
  - reflexivity.
  - reflexivity.
  - intros a b H0 Hab _.
    apply Qle_bool_iff in H0. apply Qle_bool_iff in Hab.
    assert (Hq : forall x : Q, 0 <= x ->
              Z.quot (Qnum x) (Z.pos (Qden x)) = Qfloor x).
    { intros [n d] Hx. unfold Qfloor. simpl.
      apply Z.quot_div_nonneg; [ | lia].
      unfold Qle in Hx. simpl in Hx. lia. }
    rewrite (Hq a H0), (Hq b (Qle_trans _ _ _ H0 Hab)).
    apply Qfloor_resp_le. exact Hab.
  - intros k _. simpl. apply Z.quot_1_r.
Qed.

(** On the integers 0 to 255 both binary64 arithmetics are exact. *)
Lemma binary64_bytes :
  forall j k : Z, (0 <= j <= 255)%Z -> (0 <= k <= 255)%Z ->
    less_equal binary64 (of_int binary64 j) (of_int binary64 k) = (j <=? k)%Z
    /\ astype_uint8 binary64 (of_int binary64 k) = k.
Proof.
  assert (Hcheck :
    forallb (fun j =>
      forallb (fun k =>
         Bool.eqb (PrimFloat.leb (binary64_of_int j) (binary64_of_int k))
                  (j <=? k)%Z
         && (binary64_trunc (binary64_of_int k) =? k)%Z)
        (map Z.of_nat (seq 0 256)))
      (map Z.of_nat (seq 0 256)) = true)
    by (vm_compute; reflexivity).
  assert (Hin : forall v : Z, (0 <= v <= 255)%Z ->
            In v (map Z.of_nat (seq 0 256))).
  { intros v Hv. apply in_map_iff. exists (Z.to_nat v).
    split; [lia | apply in_seq; lia]. }
  intros j k Hj Hk.
  rewrite forallb_forall in Hcheck.
  pose proof (Hcheck j (Hin j Hj)) as Hrow.
  rewrite forallb_forall in Hrow.
  pose proof (Hrow k (Hin k Hk)) as Hcell.
  apply andb_true_iff in Hcell. destruct Hcell as [Hle Htr].
  split; [apply Bool.eqb_prop; exact Hle | apply Z.eqb_eq; exact Htr].
Qed.

Lemma binary64_multiply_255 :
  multiply binary64 (of_int binary64 0) (of_int binary64 255)
  = of_int binary64 0
  /\ multiply binary64 (of_int binary64 1) (of_int binary64 255)
     = of_int binary64 255.
Proof. split; vm_compute; reflexivity. Qed.

(** ** The per-pixel computation *)

(** The tail of [simulate_colorblindness], from the (N, 3) array on. *)
Lemma simulate_rows (N : Float64) (m : Matrix) (pixels : list Pixel) :
  map (fun v => astype_uint8 N (multiply N v (of_int N 255)))
      (flatten3
         (map (fun '(a, b, c) =>
                 (clip N a (of_int N 0) (of_int N 1),
                  clip N b (of_int N 0) (of_int N 1),
                  clip N c (of_int N 0) (of_int N 1)))
              (map (fun p => dot N p (np_array N m))
                   (map (map3 (normalize N)) pixels))))
  = flatten3 (map (cvd_pixel N m) pixels).
Proof.
  rewrite map_flatten3, !map_map. f_equal.
  apply map_ext. intros [[r g] b]. unfold cvd_pixel, map3.
  destruct (dot N _ (np_array N m)) as [[r' g'] b']. reflexivity.
Qed.

Lemma simulate_colorblindness_returns (E : Disk) (image_path cvd_type : string)
  (img : ndarray Z) (t : Transformation) (pixels : list Pixel) :
  lookup cvd_type TRANSFORMATIONS = Some t ->
  load_array E image_path = Some img ->
  pixels_of img = Some pixels ->
  simulate_colorblindness E image_path cvd_type
  = ([Opened image_path],
     Returned (Some {| shape := if (List.length (shape img) =? 2)%nat
                                then shape img ++ [3%nat] else shape img;
                       data := flatten3
                                 (map (cvd_pixel (numpy E) (matrix t))
                                      pixels) |})).
Proof.
  intros Hlookup Hopen Hpixels.
  unfold simulate_colorblindness. rewrite Hlookup, Hopen.
  cbv zeta. cbn [shape data].
  set (N := numpy E).
  assert (Hdata :
    data (if (List.length (shape img) =? 2)%nat
          then {| shape := shape img ++ [3%nat];
                  data := flat_map (fun v => [v; v; v])
                            (map (fun v => true_divide N (of_int N v)
                                             (of_int N 255)) (data img)) |}
          else {| shape := shape img;
                  data := map (fun v => true_divide N (of_int N v)
                                          (of_int N 255)) (data img) |})
    = flatten3 (map (map3 (normalize N)) pixels)).
  { unfold pixels_of in Hpixels.
    destruct (List.length (shape img) =? 2)%nat; cbn [data].
    - injection Hpixels as <-.
      rewrite flat_map_triple, !map_map. reflexivity.
    - apply reshape3_some in Hpixels. rewrite Hpixels.
      apply map_flatten3. }
  assert (Hshape :
    shape (if (List.length (shape img) =? 2)%nat
           then {| shape := shape img ++ [3%nat];
                   data := flat_map (fun v => [v; v; v])
                             (map (fun v => true_divide N (of_int N v)
                                              (of_int N 255)) (data img)) |}
           else {| shape := shape img;
                   data := map (fun v => true_divide N (of_int N v)
                                           (of_int N 255)) (data img) |})
    = if (List.length (shape img) =? 2)%nat
      then shape img ++ [3%nat] else shape img).
  { destruct (List.length (shape img) =? 2)%nat; reflexivity. }
  rewrite Hdata, Hshape.
  rewrite reshape3_flatten3, simulate_rows. reflexivity.
Qed.


(** ** Valid images *)

Lemma valid_image_pixels (img : ndarray Z) :
  valid_image img ->
  exists pixels : list Pixel,
    pixels_of img = Some pixels
    /\ List.length (if (List.length (shape img) =? 2)%nat
                    then shape img ++ [3%nat] else shape img) = 3%nat.
Proof.
  intros [(H & W & [[Hshape Hlen] | [Hshape Hlen]]) _];
    unfold pixels_of; rewrite Hshape; simpl.
  - eexists. split; reflexivity.
  - destruct (reshape3_length (H * W) (data img) Hlen) as (pixels & Hp).
    exists pixels. split; [exact Hp | reflexivity].
Qed.

(** What [simulate_colorblindness] does on a valid image with a known
    variant. *)
Lemma simulate_colorblindness_valid (E : Disk) (image_path cvd_type : string)
  (img : ndarray Z) :
  load_array E image_path = Some img ->
  valid_image img ->
  In cvd_type keys ->
  exists (t : Transformation) (pixels : list Pixel) (out : ndarray Z),
    lookup cvd_type TRANSFORMATIONS = Some t
    /\ pixels_of img = Some pixels
    /\ simulate_colorblindness E image_path cvd_type
       = ([Opened image_path], Returned (Some out))
    /\ data out = flatten3 (map (cvd_pixel (numpy E) (matrix t)) pixels)
    /\ pixels_of out = Some (map (cvd_pixel (numpy E) (matrix t)) pixels).
Proof.
  intros Hopen Hvalid Hin.
  destruct (lookup_some cvd_type TRANSFORMATIONS Hin) as (t & Ht).
  destruct (valid_image_pixels img Hvalid) as (pixels & Hp & Hshape).
  exists t, pixels. eexists.
  split; [exact Ht | ]. split; [exact Hp | ].
  split;
    [exact (simulate_colorblindness_returns E image_path cvd_type img t
              pixels Ht Hopen Hp) | ].
  split; [reflexivity | ].
  unfold pixels_of. cbn [shape data]. rewrite Hshape. simpl.
  apply reshape3_flatten3.
Qed.

Lemma flatten3_Forall {A : Type} (P : A -> Prop) (rows : list (A * A * A)) :
  Forall (fun '(a, b, c) => P a /\ P b /\ P c) rows ->
  Forall P (flatten3 rows).
Proof.
  induction 1 as [ | [[a b] c] rows (Ha & Hb & Hc) _ IH]; simpl.
  - constructor.
  - repeat constructor; assumption.
Qed.


Lemma valid_sample_image : valid_image sample_image.
Proof.
  split.
  - exists 1%nat, 2%nat. right. split; reflexivity.
  - unfold sample_image, uint8; simpl. repeat constructor; lia.
Qed.



(** The sample image under two of the transforms, without rounding. *)
Example simulate_sample_achromatopsia :
  simulate_colorblindness sample_disk "shot.png" "achromatopsia"
  = ([Opened "shot.png"],
     Returned (Some {| shape := [1; 2; 3]%nat;
                       data := [76; 76; 76; 123; 123; 123]%Z |})).
Proof. vm_compute. reflexivity. Qed.

Example simulate_sample_protanopia :
  simulate_colorblindness sample_disk "shot.png" "protanopia"
  = ([Opened "shot.png"],
     Returned (Some {| shape := [1; 2; 3]%nat;
                       data := [144; 142; 0; 92; 93; 71]%Z |})).
Proof. vm_compute. reflexivity. Qed.

(** ** Rounding

    The bytes written depend on the arithmetic.  The rows of the
    achromatopsia matrix add up to 1, so without rounding a gray
    pixel is unchanged; in binary64 the sum 0.299 + 0.587 + 0.114 is
    just below 1 and white becomes (254, 254, 254).  Whether
    (3, 3, 3) stays or becomes (2, 2, 2) depends on how [np.dot]
    rounds. *)

Example simulate_gray_white_exact :
  snd (simulate_colorblindness
         {| load_array := fun _ => Some gray_white_image; numpy := exact |}
         "shot.png" "achromatopsia")
  = Returned (Some {| shape := [1; 2; 3]%nat;
                      data := [3; 3; 3; 255; 255; 255]%Z |}).
Proof. vm_compute. reflexivity. Qed.

Example simulate_gray_white_binary64 :
  snd (simulate_colorblindness binary64_disk "shot.png" "achromatopsia")
  = Returned (Some {| shape := [1; 2; 3]%nat;
                      data := [3; 3; 3; 254; 254; 254]%Z |})
  /\ snd (simulate_colorblindness binary64_disk "shot.png" "protanopia")
     = Returned (Some {| shape := [1; 2; 3]%nat;
                         data := [3; 3; 3; 255; 255; 255]%Z |}).
Proof. split; vm_compute; reflexivity. Qed.

Example simulate_gray_white_binary64_fused :
  snd (simulate_colorblindness binary64_fused_disk "shot.png" "achromatopsia")
  = Returned (Some {| shape := [1; 2; 3]%nat;
                      data := [2; 2; 2; 254; 254; 254]%Z |})
  /\ snd (simulate_colorblindness binary64_fused_disk "shot.png" "protanopia")
     = Returned (Some {| shape := [1; 2; 3]%nat;
                         data := [2; 3; 3; 255; 255; 255]%Z |}).
Proof. split; vm_compute; reflexivity. Qed.

(** In both binary64 arithmetics every gray level, under every
    variant, becomes three bytes. *)
Example simulate_gray_ramp_binary64 :
  forallb (fun cvd_type =>
             returned_bytes 768
               (snd (simulate_colorblindness
                       {| load_array := fun _ => Some gray_ramp;
                          numpy := binary64 |} "ramp.png" cvd_type))
             && returned_bytes 768
                  (snd (simulate_colorblindness
                          {| load_array := fun _ => Some gray_ramp;
                             numpy := binary64_fused |} "ramp.png" cvd_type)))
          keys = true.
Proof. vm_compute. reflexivity. Qed.

(** ** Achromatopsia *)

Lemma lookup_achromatopsia (t : Transformation) :
  lookup "achromatopsia" TRANSFORMATIONS = Some t ->
  matrix t = ((0.299, 0.587, 0.114),
              (0.299, 0.587, 0.114),
              (0.299, 0.587, 0.114))%Q.
Proof. simpl. intros H. injection H as <-. reflexivity. Qed.

Lemma achromatopsia_pixel (N : Float64) (t : Transformation) (p : Pixel) :
  lookup "achromatopsia" TRANSFORMATIONS = Some t ->
  let '(r, g, b) := cvd_pixel N (matrix t) p in r = g /\ g = b.
Proof.
  intros Ht. rewrite (lookup_achromatopsia t Ht).
  destruct p as [[r g] b]. unfold cvd_pixel, dot, np_array.
  split; reflexivity.
Qed.

Lemma achromatopsia_known : In "achromatopsia"%string keys.
Proof. rewrite keys_eq. simpl. tauto. Qed.

(** C6. Under the achromatopsia transform every pixel of the output
    has equal R, G and B values, whatever the input pixel. *)
Theorem achromatopsia_desaturates (E : Disk) (image_path : string)
  (img : ndarray Z) :
  load_array E image_path = Some img ->
  valid_image img ->
  exists (pixels_in pixels_out : list Pixel) (out : ndarray Z),
    pixels_of img = Some pixels_in
    /\ snd (simulate_colorblindness E image_path "achromatopsia")
       = Returned (Some out)
    /\ pixels_of out = Some pixels_out
    /\ List.length pixels_out = List.length pixels_in
    /\ Forall (fun '(r, g, b) => r = g /\ g = b) pixels_out.
Proof.
  intros Hopen Hvalid.
  destruct (simulate_colorblindness_valid E image_path "achromatopsia" img
              Hopen Hvalid achromatopsia_known)
    as (t & pixels & out & Ht & Hp & Hsim & _ & Hout).
  exists pixels, (map (cvd_pixel (numpy E) (matrix t)) pixels), out.
  split; [exact Hp | ]. split; [rewrite Hsim; reflexivity | ].
  split; [exact Hout | ]. split; [apply length_map | ].
  apply Forall_forall. intros q Hq.
  apply in_map_iff in Hq. destruct Hq as (p & <- & _).
  apply (achromatopsia_pixel (numpy E) t p Ht).
Qed.

Lemma achromatopsia_desaturates_witness :
  load_array sample_disk "shot.png" = Some sample_image
  /\ valid_image sample_image
  /\ exists (pixels_in pixels_out : list Pixel) (out : ndarray Z),
       pixels_of sample_image = Some pixels_in
       /\ snd (simulate_colorblindness sample_disk "shot.png" "achromatopsia")
          = Returned (Some out)
       /\ pixels_of out = Some pixels_out
       /\ List.length pixels_out = List.length pixels_in
       /\ Forall (fun '(r, g, b) => r = g /\ g = b) pixels_out.
Proof.
  split; [reflexivity | ]. split; [exact valid_sample_image | ].
  exact (achromatopsia_desaturates sample_disk "shot.png" sample_image
           eq_refl valid_sample_image).
Defined.

(** ** Unknown variants *)

Lemma keys_NoDup : NoDup keys.
Proof.
  rewrite keys_eq.
  repeat (constructor; [simpl; intuition discriminate | ]).
  constructor.
Qed.

Lemma tetrachromacy_unknown : ~ In "tetrachromacy"%string keys.
Proof. rewrite keys_eq. simpl. intuition discriminate. Qed.

(** C9. [simulate_colorblindness] raises [ValueError] exactly when
    [cvd_type] is not one of the eight keys of [TRANSFORMATIONS]; it
    does so before the image is opened: the call has no effect at all
    and returns no image. *)
Theorem simulate_colorblindness_value_error (E : Disk)
  (image_path cvd_type : string) :
  List.length keys = 8%nat
  /\ NoDup keys
  /\ ((exists message : string,
          snd (simulate_colorblindness E image_path cvd_type)
          = Raised_ValueError message)
      <-> ~ In cvd_type keys)
  /\ (~ In cvd_type keys ->
      simulate_colorblindness E image_path cvd_type
      = ([], Raised_ValueError ("Unknown CVD type: " ++ cvd_type)%string)).
Proof.
  split; [reflexivity | ]. split; [exact keys_NoDup | ].
  unfold simulate_colorblindness.
  destruct (lookup cvd_type TRANSFORMATIONS) as [t | ] eqn:Hl.
  - assert (Hin : In cvd_type keys).
    { destruct (in_dec string_dec cvd_type keys) as [Hin | Hnin];
        [exact Hin | ].
      apply lookup_none in Hnin. unfold keys in Hl.
      rewrite Hnin in Hl. discriminate. }
    split.
    + split; [ | intros Hn; contradiction].
      intros [message Hraise]. exfalso.
      destruct (load_array E image_path) as [img | ];
        [ | discriminate Hraise].
      cbv zeta in Hraise.
      match type of Hraise with
      | snd (match ?r with Some _ => _ | None => _ end) = _ =>
          destruct r; discriminate Hraise
      end.
    + intros Hn. contradiction.
  - apply lookup_none in Hl.
    split.
    + split; [intros _; exact Hl | intros _; eexists; reflexivity].
    + intros _. reflexivity.
Qed.

Lemma simulate_colorblindness_value_error_witness :
  ~ In "tetrachromacy"%string keys
  /\ simulate_colorblindness sample_disk "shot.png" "tetrachromacy"
     = ([], Raised_ValueError "Unknown CVD type: tetrachromacy").
Proof.
  split; [exact tetrachromacy_unknown | ].
  exact (proj2 (proj2 (proj2
           (simulate_colorblindness_value_error sample_disk "shot.png"
              "tetrachromacy"))) tetrachromacy_unknown).
Defined.

End SimulatorFacts.

(* ################################################################# *)
(** * More properties of the contrast analyzer *)

Module AnalyzerFacts.

Import ColorContrastAnalyzer ContrastReport ContrastFacts.

Local Open Scope R_scope.

(** ** Checks on colour pairs *)

Lemma ratio_same_color (c : Color) :
  valid_color c -> calculate_contrast_ratio c c = Some 1.
Proof.
  intros V. rewrite (calculate_contrast_ratio_valid c c V V).
  pose proof (relative_luminance_range c V) as [L _].
  rewrite Rmax_left, Rmin_left by apply Rle_refl.
  f_equal. field. lra.
Qed.

(** X1. On two colours with channels in [0,255],
    [check_color_pair_contrast] always produces a check (the ratio
    does not raise): a colour sample with required ratio 3.0, that
    passes exactly when the ratio is at least 3.0 and has severity
    MEDIUM exactly when it fails. *)
Theorem check_color_pair_contrast_valid (pair : ColorPair) :
  valid_color (pair_fg_color pair) ->
  valid_color (pair_bg_color pair) ->
  exists (c : ContrastCheck) (ratio : R),
    check_color_pair_contrast pair = Some c
    /\ calculate_contrast_ratio (pair_fg_color pair) (pair_bg_color pair)
       = Some ratio
    /\ type c = type_color_sample
    /\ required c = 3.0
    /\ (passes c = true <-> ratio >= 3.0)
    /\ (severity c = "MEDIUM"%string <-> passes c = false).
Proof.
  intros Vf Vb.
  unfold check_color_pair_contrast.
  rewrite (calculate_contrast_ratio_valid _ _ Vf Vb).
  eexists. eexists. split; [reflexivity | ]. split; [reflexivity | ].
  cbn [type required passes severity].
  split; [reflexivity | ]. split; [reflexivity | ].
  split; [apply passes_iff | ].
  destruct (Rge_dec _ 3.0); simpl; split; intros H;
    try reflexivity; discriminate.
Qed.

Lemma check_color_pair_contrast_valid_witness :
  valid_color (pair_fg_color (mkColorPair black white (0, 0)%Z))
  /\ valid_color (pair_bg_color (mkColorPair black white (0, 0)%Z))
  /\ exists (c : ContrastCheck) (ratio : R),
       check_color_pair_contrast (mkColorPair black white (0, 0)%Z) = Some c
       /\ calculate_contrast_ratio black white = Some ratio
       /\ type c = type_color_sample
       /\ required c = 3.0
       /\ (passes c = true <-> ratio >= 3.0)
       /\ (severity c = "MEDIUM"%string <-> passes c = false).
Proof.
  split; [exact valid_black | ]. split; [exact valid_white | ].
  exact (check_color_pair_contrast_valid (mkColorPair black white (0, 0)%Z)
           valid_black valid_white).
Defined.

(** X2. Equal foreground and background never pass: a sampled pair
    of one valid colour with itself, and a text region whose centre
    pixel equals the average of its surroundings, both give a check
    with [passes = False]. *)
Theorem identical_colors_fail (c : Color) :
  valid_color c ->
  (forall location : Z * Z,
      exists chk : ContrastCheck,
        check_color_pair_contrast (mkColorPair c c location) = Some chk
        /\ passes chk = false)
  /\ (forall (E : Env) (img : Img E) (region : Region),
        get_pixel_color E img (x region + w region / 2)%Z
                        (y region + h region / 2)%Z = Some c ->
        get_surrounding_color E img (x region + w region / 2)%Z
                              (y region + h region / 2)%Z
                              (h region / 2 + 5)%Z = Some c ->
        exists chk : ContrastCheck,
          check_text_contrast E img region = Some chk
          /\ passes chk = false).
Proof.
  intros V. pose proof (ratio_same_color c V) as Hone.
  split.
  - intros location. unfold check_color_pair_contrast.
    cbn [pair_fg_color pair_bg_color]. rewrite Hone.
    eexists. split; [reflexivity | ]. cbn [passes].
    destruct (Rge_dec 1 3.0) as [H | _]; [lra | reflexivity].
  - intros E img region Hfg Hbg. unfold check_text_contrast.
    rewrite Hfg, Hbg, Hone.
    eexists. split; [reflexivity | ]. cbn [passes].
    destruct (Qle_bool 18 _ || Qle_bool 14 _)%bool.
    + destruct (Rge_dec 1 3.0) as [H | _]; [lra | reflexivity].
    + destruct (Rge_dec 1 4.5) as [H | _]; [lra | reflexivity].
Qed.

Lemma identical_colors_fail_witness :
  valid_color white
  /\ exists chk : ContrastCheck,
       check_color_pair_contrast (mkColorPair white white (3, 4)%Z) = Some chk
       /\ passes chk = false.
Proof.
  split; [exact valid_white | ].
  exact (proj1 (identical_colors_fail white valid_white) (3, 4)%Z).
Defined.

(** ** The text threshold in pixels *)

Lemma font_size_14pt (height_px : Z) :
  Qle_bool 14 (estimate_font_size height_px) = true <-> (19 <= height_px)%Z.
Proof.
  rewrite Qle_bool_iff. unfold estimate_font_size, Qle. simpl. lia.
Qed.

(** X3. In pixels: a text check gets the threshold 3.0 (and
    [is_large_text = True]) exactly when the region is at least 19
    pixels high, and 4.5 below that. *)
Theorem check_text_contrast_pixel_threshold (E : Env) (img : Img E)
  (region : Region) (c : ContrastCheck) :
  check_text_contrast E img region = Some c ->
  ((19 <= h region)%Z -> required c = 3.0 /\ is_large_text c = Some true)
  /\ ((h region < 19)%Z -> required c = 4.5 /\ is_large_text c = Some false).
Proof.
  intros H.
  assert (Hl : is_large_text c
               = Some (Qle_bool 18 (estimate_font_size (h region))
                       || Qle_bool 14 (estimate_font_size (h region)))%bool).
  { unfold check_text_contrast in H.
    destruct (get_pixel_color E img _ _); [ | discriminate].
    destruct (get_surrounding_color E img _ _ _); [ | discriminate].
    destruct (calculate_contrast_ratio _ _); [ | discriminate].
    injection H as <-. reflexivity. }
  destruct (check_text_contrast_inv E img region c H)
    as (_ & _ & _ & _ & _ & _ & Hreq & _).
  rewrite large_text_test in Hreq, Hl.
  split; intros Hh.
  - apply font_size_14pt in Hh. rewrite Hh in Hreq, Hl. split; assumption.
  - destruct (Qle_bool 14 (estimate_font_size (h region))) eqn:Hb.
    + apply font_size_14pt in Hb. lia.
    + split; assumption.
Qed.

Lemma check_text_contrast_pixel_threshold_witness :
  exists c : ContrastCheck,
    check_text_contrast sample_env tt region15pt = Some c
    /\ (19 <= h region15pt)%Z
    /\ required c = 3.0 /\ is_large_text c = Some true.
Proof.
  destruct check_text_contrast_sample as (c & Hc & _).
  exists c. split; [exact Hc | ].
  assert (Hh : (19 <= h region15pt)%Z) by (simpl; lia).
  split; [exact Hh | ].
  exact (proj1 (check_text_contrast_pixel_threshold sample_env tt region15pt
                  c Hc) Hh).
Defined.


(** ** The checks of one screenshot *)

(** What a successful analysis was computed from. *)
Lemma analyze_screenshot_some (E : Env) (results results' : list ScreenshotResult)
  (image_path : string) (r : ScreenshotResult) :
  analyze_screenshot E results image_path = (results', Some r) ->
  exists img : Img E,
    path_exists E image_path = true
    /\ Image_open E image_path = Some img
    /\ results' = results ++ [r]
    /\ path r = image_path
    /\ ((TESSERACT_AVAILABLE E = true
         /\ detect_text_regions_ocr E img <> []
         /\ (result_issues r, result_passed r)
            = text_checks E img (detect_text_regions_ocr E img))
        \/ ((TESSERACT_AVAILABLE E = false
             \/ detect_text_regions_ocr E img = [])
            /\ exists pairs : list ColorPair,
                 sample_color_pairs E img = Some pairs
                 /\ (result_issues r, result_passed r) = pair_checks pairs)).
Proof.
  unfold analyze_screenshot.
  destruct (path_exists E image_path); [ | discriminate].
  destruct (Image_open E image_path) as [img | ]; [ | discriminate].
  cbv zeta. simpl negb. cbv iota.
  intros H. exists img.
  split; [reflexivity | ]. split; [reflexivity | ].
  destruct (TESSERACT_AVAILABLE E) eqn:Ht.
  - destruct (detect_text_regions_ocr E img) as [ | region regions] eqn:Hd.
    + simpl in H.
      destruct (sample_color_pairs E img) as [pairs | ]; [ | discriminate].
      fold (pair_checks pairs) in H.
      destruct (pair_checks pairs) as [issues passed] eqn:Hp.
      injection H as <- <-. cbn [path result_issues result_passed].
      split; [reflexivity | ]. split; [reflexivity | ].
      right. split; [right; reflexivity | ].
      exists pairs. split; [reflexivity | first [reflexivity | symmetry; exact Hp]].
    + cbn [negb orb List.length Z.of_nat Z.eqb] in H.
      fold (text_checks E img (region :: regions)) in H.
      destruct (text_checks E img (region :: regions)) as [issues passed] eqn:Hp.
      injection H as <- <-. cbn [path result_issues result_passed].
      split; [reflexivity | ]. split; [reflexivity | ].
      left. split; [reflexivity | ]. split; [discriminate | first [reflexivity | symmetry; exact Hp]].
  - simpl in H.
    destruct (sample_color_pairs E img) as [pairs | ]; [ | discriminate].
    fold (pair_checks pairs) in H.
    destruct (pair_checks pairs) as [issues passed] eqn:Hp.
    injection H as <- <-. cbn [path result_issues result_passed].
    split; [reflexivity | ]. split; [reflexivity | ].
    right. split; [left; reflexivity | ].
    exists pairs. split; [reflexivity | first [reflexivity | symmetry; exact Hp]].
Qed.

(** A property of every produced check is a property of every
    recorded check. *)
Lemma fold_record_check_Forall {A : Type} (P : ContrastCheck -> Prop)
  (f : A -> option ContrastCheck) (l : list A)
  (acc : list ContrastCheck * list ContrastCheck) :
  (forall a c, In a l -> f a = Some c -> P c) ->
  Forall P (fst acc) -> Forall P (snd acc) ->
  Forall P (fst (fold_left (fun acc a => record_check acc (f a)) l acc))
  /\ Forall P (snd (fold_left (fun acc a => record_check acc (f a)) l acc)).
Proof.
  revert acc. induction l as [ | a l IH]; intros [issues passed] Hf Hi Hp.
  - split; assumption.
  - simpl fold_left. apply IH.
    + intros a' c Hin. apply Hf. right. exact Hin.
    + unfold record_check. destruct (f a) as [c | ] eqn:Hc; [ | exact Hi].
      destruct (passes c); simpl; [exact Hi | ].
      apply Forall_app. split; [exact Hi | ].
      constructor; [ | constructor]. apply (Hf a c); [left; reflexivity | exact Hc].
    + unfold record_check. destruct (f a) as [c | ] eqn:Hc; [ | exact Hp].
      destruct (passes c); simpl; [ | exact Hp].
      apply Forall_app. split; [exact Hp | ].
      constructor; [ | constructor]. apply (Hf a c); [left; reflexivity | exact Hc].
Qed.

(** Failing checks go to the issues, passing checks to the passed. *)
Lemma fold_record_check_split {A : Type} (f : A -> option ContrastCheck)
  (l : list A) (acc : list ContrastCheck * list ContrastCheck) :
  Forall (fun c => passes c = false) (fst acc) ->
  Forall (fun c => passes c = true) (snd acc) ->
  Forall (fun c => passes c = false)
         (fst (fold_left (fun acc a => record_check acc (f a)) l acc))
  /\ Forall (fun c => passes c = true)
            (snd (fold_left (fun acc a => record_check acc (f a)) l acc)).
Proof.
  revert acc. induction l as [ | a l IH]; intros [issues passed] Hi Hp.
  - split; assumption.
  - simpl fold_left. apply IH.
    + unfold record_check. destruct (f a) as [c | ]; [ | exact Hi].
      destruct (passes c) eqn:Hc; simpl; [exact Hi | ].
      apply Forall_app. split; [exact Hi | ].
      constructor; [exact Hc | constructor].
    + unfold record_check. destruct (f a) as [c | ]; [ | exact Hp].
      destruct (passes c) eqn:Hc; simpl; [ | exact Hp].
      apply Forall_app. split; [exact Hp | ].
      constructor; [exact Hc | constructor].
Qed.

(** The number of recorded checks is at most the number of inputs. *)
Lemma fold_record_check_length {A : Type} (f : A -> option ContrastCheck)
  (l : list A) (acc : list ContrastCheck * list ContrastCheck) :
  (List.length
     (fst (fold_left (fun acc a => record_check acc (f a)) l acc))
   + List.length
       (snd (fold_left (fun acc a => record_check acc (f a)) l acc))
   <= List.length (fst acc) + List.length (snd acc) + List.length l)%nat.
Proof.
  revert acc. induction l as [ | a l IH]; intros [issues passed].
  - simpl. lia.
  - simpl fold_left.
    etransitivity; [apply IH | ].
    assert (Hstep :
      (List.length (fst (record_check (issues, passed) (f a)))
       + List.length (snd (record_check (issues, passed) (f a)))
       <= List.length issues + List.length passed + 1)%nat).
    { unfold record_check. destruct (f a) as [c | ]; [ | simpl; lia].
      destruct (passes c); simpl; rewrite length_app; simpl; lia. }
    cbn [fst snd List.length]. unfold record_check in Hstep. lia.
Qed.

(** X4. In the result of [analyze_screenshot], every check under
    [issues] fails and every check under [passed] passes, and the
    summary counts exactly these two lists. *)
Theorem analyze_screenshot_partition (E : Env)
  (results results' : list ScreenshotResult) (image_path : string)
  (r : ScreenshotResult) :
  analyze_screenshot E results image_path = (results', Some r) ->
  Forall (fun c => passes c = false) (result_issues r)
  /\ Forall (fun c => passes c = true) (result_passed r)
  /\ failed (summary r) = Z.of_nat (List.length (result_issues r))
  /\ passed (summary r) = Z.of_nat (List.length (result_passed r)).
Proof.
  intros H.
  assert (Hcons : consistent r).
  { destruct (analyze_screenshot_cases E results image_path)
      as [Hnone | (r' & Hsome & Hc & _)]; rewrite H in *.
    - discriminate.
    - injection Hsome as _ <-. exact Hc. }
  destruct (analyze_screenshot_some E results results' image_path r H)
    as (img & _ & _ & _ & _ & [(_ & _ & Heq) | (_ & pairs & _ & Heq)]).
  - pose proof (fold_record_check_split (check_text_contrast E img)
                  (detect_text_regions_ocr E img) ([], [])
                  (Forall_nil _) (Forall_nil _)) as [Hi Hp].
    fold (text_checks E img (detect_text_regions_ocr E img)) in Hi, Hp.
    rewrite <- Heq in Hi, Hp. rewrite Hcons.
    repeat split; assumption.
  - pose proof (fold_record_check_split check_color_pair_contrast
                  pairs ([], []) (Forall_nil _) (Forall_nil _)) as [Hi Hp].
    fold (pair_checks pairs) in Hi, Hp.
    rewrite <- Heq in Hi, Hp. rewrite Hcons.
    repeat split; assumption.
Qed.

Lemma analyze_sample_a_eq :
  exists r : ScreenshotResult,
    analyze_screenshot sample_env [] "shots/a.png" = ([r], Some r).
Proof.
  destruct (analyze_sample_a []) as (r & Ha & _). exists r. exact Ha.
Qed.

Lemma analyze_screenshot_partition_witness :
  exists r : ScreenshotResult,
    analyze_screenshot sample_env [] "shots/a.png" = ([r], Some r)
    /\ Forall (fun c => passes c = false) (result_issues r)
    /\ Forall (fun c => passes c = true) (result_passed r)
    /\ failed (summary r) = Z.of_nat (List.length (result_issues r))
    /\ passed (summary r) = Z.of_nat (List.length (result_passed r)).
Proof.
  destruct analyze_sample_a_eq as (r & Ha).
  exists r. split; [exact Ha | ].
  exact (analyze_screenshot_partition sample_env [] [r] "shots/a.png" r Ha).
Defined.

Lemma check_text_contrast_type (E : Env) (img : Img E) (region : Region)
  (c : ContrastCheck) :
  check_text_contrast E img region = Some c ->
  type c = type_text /\ wcag_criterion c = "1.4.3"%string.
Proof.
  unfold check_text_contrast.
  destruct (get_pixel_color E img _ _); [ | discriminate].
  destruct (get_surrounding_color E img _ _ _); [ | discriminate].
  destruct (calculate_contrast_ratio _ _); [ | discriminate].
  intros H; injection H as <-. split; reflexivity.
Qed.

Lemma check_color_pair_contrast_type (pair : ColorPair) (c : ContrastCheck) :
  check_color_pair_contrast pair = Some c ->
  type c = type_color_sample /\ wcag_criterion c = "1.4.11"%string.
Proof.
  unfold check_color_pair_contrast.
  destruct (calculate_contrast_ratio _ _); [ | discriminate].
  intros H; injection H as <-. split; reflexivity.
Qed.

(** X5. One screenshot is checked by one method only: when OCR is
    available and finds regions, every check is a text check of
    criterion 1.4.3, at most one per region; otherwise every check is
    a colour sample of criterion 1.4.11, at most one per sampled
    pair. *)
Theorem analyze_screenshot_one_method (E : Env)
  (results results' : list ScreenshotResult) (image_path : string)
  (r : ScreenshotResult) :
  analyze_screenshot E results image_path = (results', Some r) ->
  exists img : Img E,
    Image_open E image_path = Some img
    /\ ((TESSERACT_AVAILABLE E = true
         /\ detect_text_regions_ocr E img <> []
         /\ Forall (fun c => type c = type_text
                             /\ wcag_criterion c = "1.4.3"%string)
                   (result_issues r ++ result_passed r)
         /\ (List.length (result_issues r ++ result_passed r)
             <= List.length (detect_text_regions_ocr E img))%nat)
        \/ ((TESSERACT_AVAILABLE E = false
             \/ detect_text_regions_ocr E img = [])
            /\ exists pairs : list ColorPair,
                 sample_color_pairs E img = Some pairs
                 /\ Forall (fun c => type c = type_color_sample
                                     /\ wcag_criterion c = "1.4.11"%string)
                           (result_issues r ++ result_passed r)
                 /\ (List.length (result_issues r ++ result_passed r)
                     <= List.length pairs)%nat)).
Proof.
  intros H.
  destruct (analyze_screenshot_some E results results' image_path r H)
    as (img & _ & Hopen & _ & _ & [(Ht & Hd & Heq) | (Hcond & pairs & Hs & Heq)]);
    exists img; (split; [exact Hopen | ]).
  - left. split; [exact Ht | ]. split; [exact Hd | ].
    pose proof (fold_record_check_Forall
                  (fun c => type c = type_text
                            /\ wcag_criterion c = "1.4.3"%string)
                  (check_text_contrast E img)
                  (detect_text_regions_ocr E img) ([], [])
                  (fun a c _ Hc => check_text_contrast_type E img a c Hc)
                  (Forall_nil _) (Forall_nil _)) as [Hi Hp].
    pose proof (fold_record_check_length (check_text_contrast E img)
                  (detect_text_regions_ocr E img) ([], [])) as Hlen.
    fold (text_checks E img (detect_text_regions_ocr E img)) in Hi, Hp, Hlen.
    rewrite <- Heq in Hi, Hp, Hlen. cbn [fst snd List.length] in *.
    split; [apply Forall_app; split; assumption | ].
    rewrite length_app. lia.
  - right. split; [exact Hcond | ]. exists pairs. split; [exact Hs | ].
    pose proof (fold_record_check_Forall
                  (fun c => type c = type_color_sample
                            /\ wcag_criterion c = "1.4.11"%string)
                  check_color_pair_contrast pairs ([], [])
                  (fun a c _ Hc => check_color_pair_contrast_type a c Hc)
                  (Forall_nil _) (Forall_nil _)) as [Hi Hp].
    pose proof (fold_record_check_length check_color_pair_contrast
                  pairs ([], [])) as Hlen.
    fold (pair_checks pairs) in Hi, Hp, Hlen.
    rewrite <- Heq in Hi, Hp, Hlen. cbn [fst snd List.length] in *.
    split; [apply Forall_app; split; assumption | ].
    rewrite length_app. lia.
Qed.


Lemma analyze_screenshot_one_method_witness :
  exists r : ScreenshotResult,
    analyze_screenshot sample_env [] "shots/a.png" = ([r], Some r)
    /\ exists img : Img sample_env,
         Image_open sample_env "shots/a.png" = Some img
         /\ ((TESSERACT_AVAILABLE sample_env = true
              /\ detect_text_regions_ocr sample_env img <> []
              /\ Forall (fun c => type c = type_text
                                  /\ wcag_criterion c = "1.4.3"%string)
                        (result_issues r ++ result_passed r)
              /\ (List.length (result_issues r ++ result_passed r)
                  <= List.length (detect_text_regions_ocr sample_env img))%nat)
             \/ ((TESSERACT_AVAILABLE sample_env = false
                  \/ detect_text_regions_ocr sample_env img = [])
                 /\ exists pairs : list ColorPair,
                      sample_color_pairs sample_env img = Some pairs
                      /\ Forall (fun c => type c = type_color_sample
                                          /\ wcag_criterion c = "1.4.11"%string)
                                (result_issues r ++ result_passed r)
                      /\ (List.length (result_issues r ++ result_passed r)
                          <= List.length pairs)%nat)).
Proof.
  destruct analyze_sample_a_eq as (r & Ha).
  exists r. split; [exact Ha | ].
  exact (analyze_screenshot_one_method sample_env [] [r] "shots/a.png" r Ha).
Defined.

(** ** The loop over the screenshots *)

Lemma fold_analyze_appends (E : Env) (paths : list string)
  (results : list ScreenshotResult) :
  exists new : list ScreenshotResult,
    fold_left (fun results screenshot =>
                 fst (analyze_screenshot E results screenshot))
              paths results = results ++ new
    /\ (List.length new <= List.length paths)%nat
    /\ Forall (fun r => In (path r) paths) new.
Proof.
  revert results. induction paths as [ | p paths IH]; intros results.
  - exists []. simpl. rewrite app_nil_r.
    split; [reflexivity | split; [lia | constructor]].
  - simpl fold_left.
    destruct (analyze_screenshot_cases E results p)
      as [-> | (r & -> & _ & Hpath)]; cbn [fst].
    + destruct (IH results) as (new & -> & Hlen & Hin).
      exists new. split; [reflexivity | ]. split; [simpl; lia | ].
      eapply Forall_impl; [ | exact Hin]. intros r Hr. right. exact Hr.
    + destruct (IH (results ++ [r])) as (new & -> & Hlen & Hin).
      exists (r :: new). rewrite <- app_assoc. split; [reflexivity | ].
      split; [simpl; lia | ].
      constructor; [left; symmetry; exact Hpath | ].
      eapply Forall_impl; [ | exact Hin]. intros r' Hr. right. exact Hr.
Qed.

(** X6. [analyze_all_screenshots] only appends: the earlier results
    are kept in place, at most one result is added per screenshot,
    every added result carries the path of one of the screenshots,
    the list of screenshots is unchanged, and the returned value is
    [False] exactly when there is no screenshot. *)
Theorem analyze_all_screenshots_appends (E : Env) (a : Analyzer) :
  screenshots (fst (analyze_all_screenshots E a)) = screenshots a
  /\ (snd (analyze_all_screenshots E a) = false <-> screenshots a = [])
  /\ exists new : list ScreenshotResult,
       contrast_results (fst (analyze_all_screenshots E a))
       = contrast_results a ++ new
       /\ (List.length new <= List.length (screenshots a))%nat
       /\ Forall (fun r => In (path r) (screenshots a)) new.
Proof.
  unfold analyze_all_screenshots.
  destruct (screenshots a) as [ | p paths] eqn:Hs.
  - cbn [fst snd]. split; [exact Hs | ]. split; [tauto | ].
    exists []. rewrite app_nil_r.
    split; [reflexivity | split; [simpl; lia | constructor]].
  - cbn [fst snd screenshots contrast_results].
    split; [reflexivity | ]. split; [split; discriminate | ].
    apply fold_analyze_appends.
Qed.

(** ** Pass rates *)

Lemma rate_range (p t : Z) :
  (0 <= p <= t)%Z -> (0 < t)%Z ->
  (0 <= inject_Z p / inject_Z t * 100 /\ inject_Z p / inject_Z t * 100 <= 100)%Q.
Proof.
  intros Hp Ht.
  destruct t as [ | t | t]; try lia.
  unfold Qle, Qdiv, Qmult, Qinv, inject_Z. simpl.
  split; nia.
Qed.

Lemma summarize_rate (issues passed : list ContrastCheck) :
  (0 <= pass_rate (summarize issues passed)
   /\ pass_rate (summarize issues passed) <= 100)%Q.
Proof.
  unfold summarize. cbn [pass_rate].
  destruct (Z.of_nat (List.length issues) + Z.of_nat (List.length passed) >? 0)%Z
    eqn:Ht.
  - apply rate_range; lia.
  - split; unfold Qle; simpl; lia.
Qed.

Lemma passed_sum_range (results : list ScreenshotResult) :
  Forall consistent results ->
  (0 <= py_sum (map (fun r => passed (summary r)) results)
   <= py_sum (map (fun r => total_checks (summary r)) results))%Z.
Proof.
  induction 1 as [ | r results Hr _ IH]; simpl.
  - rewrite py_sum_nil. lia.
  - rewrite !py_sum_cons, Hr. simpl. lia.
Qed.

(** X8. Pass rates are percentages: in every result built by
    [analyze_screenshot] and in the aggregate of [get_summary] the
    pass rate lies between 0 and 100. *)
Theorem pass_rates_are_percentages (E : Env) (a : Analyzer) :
  reachable E (contrast_results a) ->
  (forall r : ScreenshotResult,
      In r (contrast_results a) ->
      (0 <= pass_rate (summary r) /\ pass_rate (summary r) <= 100)%Q)
  /\ (0 <= overall_pass_rate (get_summary a)
      /\ overall_pass_rate (get_summary a) <= 100)%Q.
Proof.
  intros Hreach.
  pose proof (reachable_consistent E _ Hreach) as Hall.
  split.
  - intros r Hin. rewrite Forall_forall in Hall.
    rewrite (Hall r Hin). apply summarize_rate.
  - unfold get_summary.
    destruct (contrast_results a) as [ | r0 rest] eqn:Hres.
    + simpl. split; unfold Qle; simpl; lia.
    + cbn [overall_pass_rate].
      pose proof (passed_sum_range _ Hall) as Hrange.
      destruct (py_sum (map (fun r => total_checks (summary r)) (r0 :: rest))
                >? 0)%Z eqn:Ht.
      * apply rate_range; lia.
      * split; unfold Qle; simpl; lia.
Qed.

Lemma sample_analyzer_reachable :
  reachable sample_env (contrast_results sample_analyzer).
Proof. apply reachable_analyze. apply reachable_init. Qed.

Lemma pass_rates_are_percentages_witness :
  reachable sample_env (contrast_results sample_analyzer)
  /\ (0 <= overall_pass_rate (get_summary sample_analyzer)
      /\ overall_pass_rate (get_summary sample_analyzer) <= 100)%Q.
Proof.
  split; [exact sample_analyzer_reachable | ].
  exact (proj2 (pass_rates_are_percentages sample_env sample_analyzer
                  sample_analyzer_reachable)).
Defined.

(** ** Compliance of the whole run *)

(** X9. The aggregate of [get_summary] is compliant exactly when at
    least one screenshot was analysed and the summary of every
    analysed screenshot is compliant. *)
Theorem overall_compliance (E : Env) (a : Analyzer) :
  reachable E (contrast_results a) ->
  overall_wcag_compliant (get_summary a) = true
  <-> contrast_results a <> []
      /\ forall r : ScreenshotResult,
           In r (contrast_results a) -> wcag_compliant (summary r) = true.
Proof.
  intros Hreach.
  pose proof (reachable_consistent E _ Hreach) as Hall.
  rewrite (get_summary_compliant a Hall).
  assert (Heach : forall r, In r (contrast_results a) ->
            (wcag_compliant (summary r) = true <-> result_issues r = [])).
  { intros r Hin. rewrite Forall_forall in Hall. rewrite (Hall r Hin).
    unfold summarize. cbn [wcag_compliant]. rewrite Z.eqb_eq.
    destruct (result_issues r); simpl; split; intros H;
      try reflexivity; try discriminate; lia. }
  rewrite Forall_forall.
  split; intros [Hne Hevery]; (split; [exact Hne | ]); intros r Hin;
    apply (Heach r Hin); apply Hevery; exact Hin.
Qed.

Lemma overall_compliance_witness :
  reachable sample_env (contrast_results sample_analyzer)
  /\ (overall_wcag_compliant (get_summary sample_analyzer) = true
      <-> contrast_results sample_analyzer <> []
          /\ forall r : ScreenshotResult,
               In r (contrast_results sample_analyzer) ->
               wcag_compliant (summary r) = true).
Proof.
  split; [exact sample_analyzer_reachable | ].
  exact (overall_compliance sample_env sample_analyzer
           sample_analyzer_reachable).
Defined.

End AnalyzerFacts.

Module LuminanceFacts.
Import ColorContrastAnalyzer ContrastFacts.
Local Open Scope R_scope.

Lemma Rpower_12_5 (x : R) : 0 < x -> (Rpower x 2.4) ^ 5 = x ^ 12.
Proof.
  intros Hx.
  rewrite <- (Rpower_pow 5 (Rpower x 2.4)) by apply Rpower_pos.
  rewrite Rpower_mult.
  replace (2.4 * INR 5) with (INR 12) by (simpl; lra).
  apply Rpower_pow. exact Hx.
Qed.

(** The value of the power branch at 0.093 exceeds every value of
    the linear branch. *)
Lemma power_branch_floor : 0.00304 <= Rpower 0.093 2.4.
Proof.
  destruct (Rle_lt_dec 0.00304 (Rpower 0.093 2.4)) as [H | H]; [exact H | ].
  exfalso.
  pose proof (Rpower_pos 0.093 2.4) as Hpos.
  assert (H5 : Rpower 0.093 2.4 ^ 5 <= 0.00304 ^ 5)
    by (apply pow_incr; lra).
  rewrite Rpower_12_5 in H5 by lra.
  assert (Hnum : 0.00304 ^ 5 < 0.093 ^ 12) by lra.
  lra.
Qed.

Lemma low_channel (v : Z) : IZR v / 255 <= 0.03928 -> (v <= 10)%Z.
Proof.
  intros H.
  assert (Hlt : IZR v < IZR 11) by lra.
  apply lt_IZR in Hlt. lia.
Qed.

Lemma high_channel (v : Z) : ~ IZR v / 255 <= 0.03928 -> (11 <= v)%Z.
Proof.
  intros H.
  destruct (Z_le_gt_dec 11 v) as [Hle | Hgt]; [exact Hle | ].
  exfalso. apply H.
  assert (Hv : IZR v <= IZR 10) by (apply IZR_le; lia).
  lra.
Qed.

Lemma wcag_linearize_channel_monotone (v v' : Z) :
  (v <= v')%Z ->
  wcag_linearize (IZR v / 255) <= wcag_linearize (IZR v' / 255).
Proof.
  intros Hle. pose proof (IZR_le _ _ Hle) as HR.
  unfold wcag_linearize.
  destruct (Rle_dec (IZR v / 255) 0.03928) as [Hlow | Hhigh];
    destruct (Rle_dec (IZR v' / 255) 0.03928) as [Hlow' | Hhigh'].
  - lra.
  - apply low_channel in Hlow. pose proof (high_channel _ Hhigh') as H11.
    apply IZR_le in Hlow. apply IZR_le in H11.
    apply Rle_trans with (r2 := 0.00304); [lra | ].
    apply Rle_trans with (r2 := Rpower 0.093 2.4);
      [exact power_branch_floor | ].
    apply Rle_Rpower_l; [lra | ].
    split; [lra | ]. apply div_ge_bound; lra.
  - exfalso. apply Hhigh. lra.
  - apply Rle_Rpower_l; [lra | ].
    split; [apply power_base_positive; exact Hhigh | ].
    apply div_ge_bound; [lra | ].
    replace ((IZR v / 255 + 0.055) / 1.055 * 1.055)
      with (IZR v / 255 + 0.055) by (field; lra).
    lra.
Qed.

(** The luminance of a channel-wise lighter colour. *)
Lemma luminance_le (c1 c2 : Color) :
  (red c1 <= red c2)%Z -> (green c1 <= green c2)%Z ->
  (blue c1 <= blue c2)%Z ->
  relative_luminance c1 <= relative_luminance c2.
Proof.
  intros Hr Hg Hb.
  rewrite (relative_luminance_wcag c1), (relative_luminance_wcag c2).
  unfold wcag_luminance.
  pose proof (wcag_linearize_channel_monotone _ _ Hr).
  pose proof (wcag_linearize_channel_monotone _ _ Hg).
  pose proof (wcag_linearize_channel_monotone _ _ Hb).
  lra.
Qed.

(** X10. Relative luminance is monotone: raising any channel of a
    colour never lowers its luminance (the jump between the linear
    branch, up to channel 10, and the power branch, from channel 11,
    goes upwards). *)
Theorem relative_luminance_monotone (c1 c2 : Color) :
  (red c1 <= red c2)%Z -> (green c1 <= green c2)%Z ->
  (blue c1 <= blue c2)%Z ->
  relative_luminance c1 <= relative_luminance c2.
Proof. apply luminance_le. Qed.

Lemma relative_luminance_monotone_witness :
  (red gray118 <= red white)%Z /\ (green gray118 <= green white)%Z
  /\ (blue gray118 <= blue white)%Z
  /\ relative_luminance gray118 <= relative_luminance white.
Proof.
  assert (H : (118 <= 255)%Z) by lia.
  split; [exact H | ]. split; [exact H | ]. split; [exact H | ].
  exact (relative_luminance_monotone gray118 white H H H).
Defined.

(** X11. Of two valid colours, the one that is channel-wise
    lighter has at least the contrast of the other against black, and
    at most its contrast against white. *)
Theorem contrast_against_extremes (c1 c2 : Color) :
  valid_color c1 -> valid_color c2 ->
  (red c1 <= red c2)%Z -> (green c1 <= green c2)%Z ->
  (blue c1 <= blue c2)%Z ->
  exists b1 b2 w1 w2 : R,
    calculate_contrast_ratio c1 black = Some b1
    /\ calculate_contrast_ratio c2 black = Some b2
    /\ calculate_contrast_ratio c1 white = Some w1
    /\ calculate_contrast_ratio c2 white = Some w2
    /\ b1 <= b2 /\ w2 <= w1.
Proof.
  intros V1 V2 Hr Hg Hb.
  pose proof (luminance_le c1 c2 Hr Hg Hb) as Hmono.
  pose proof (relative_luminance_range c1 V1) as [L1 U1].
  pose proof (relative_luminance_range c2 V2) as [L2 U2].
  rewrite (calculate_contrast_ratio_valid c1 black V1 valid_black).
  rewrite (calculate_contrast_ratio_valid c2 black V2 valid_black).
  rewrite (calculate_contrast_ratio_valid c1 white V1 valid_white).
  rewrite (calculate_contrast_ratio_valid c2 white V2 valid_white).
  rewrite relative_luminance_black, relative_luminance_white.
  rewrite !Rmax_left, !Rmin_right by lra.
  rewrite !Rmax_right, !Rmin_left by lra.
  do 4 eexists. repeat (split; [reflexivity | ]).
  split.
  - apply div_ge_bound; [lra | ].
    replace ((relative_luminance c1 + 0.05) / (0 + 0.05) * (0 + 0.05))
      with (relative_luminance c1 + 0.05) by (field; lra).
    lra.
  - apply div_le_bound; [lra | ].
    replace ((1 + 0.05) / (relative_luminance c1 + 0.05)
             * (relative_luminance c2 + 0.05))
      with ((1 + 0.05) * ((relative_luminance c2 + 0.05)
                          / (relative_luminance c1 + 0.05)))
      by (field; lra).
    assert (H1 : 1 <= (relative_luminance c2 + 0.05)
                      / (relative_luminance c1 + 0.05))
      by (apply div_ge_bound; lra).
    nra.
Qed.


Lemma contrast_against_extremes_witness :
  valid_color gray118 /\ valid_color white
  /\ (red gray118 <= red white)%Z /\ (green gray118 <= green white)%Z
  /\ (blue gray118 <= blue white)%Z
  /\ exists b1 b2 w1 w2 : R,
       calculate_contrast_ratio gray118 black = Some b1
       /\ calculate_contrast_ratio white black = Some b2
       /\ calculate_contrast_ratio gray118 white = Some w1
       /\ calculate_contrast_ratio white white = Some w2
       /\ b1 <= b2 /\ w2 <= w1.
Proof.
  assert (V : valid_color gray118)
    by (unfold valid_color, valid_channel; simpl; lia).
  assert (H : (118 <= 255)%Z) by lia.
  split; [exact V | ]. split; [exact valid_white | ].
  split; [exact H | ]. split; [exact H | ]. split; [exact H | ].
  exact (contrast_against_extremes gray118 white V valid_white H H H).
Defined.

End LuminanceFacts.

Module HexFacts.
Import ColorContrastAnalyzer ContrastFacts ContrastReport.

Lemma in_bytes (v : Z) : valid_channel v -> In v bytes.
Proof.
  intros [H0 H255]. unfold bytes.
  apply in_map_iff. exists (Z.to_nat v).
  split; [lia | ]. apply in_seq. lia.
Qed.

Lemma format_02x_bytes_check :
  forallb (fun v => (String.length (format_02x v) =? 2)%nat
                    && all_chars is_hex_digit (format_02x v)) bytes = true.
Proof. vm_compute. reflexivity. Qed.

Lemma format_02x_injective_check :
  forallb (fun v =>
             forallb (fun u => implb (String.eqb (format_02x v) (format_02x u))
                                     (v =? u)%Z) bytes) bytes = true.
Proof. vm_compute. reflexivity. Qed.

Lemma format_02x_byte (v : Z) :
  valid_channel v ->
  exists a b : ascii,
    format_02x v = String a (String b EmptyString)
    /\ is_hex_digit a = true /\ is_hex_digit b = true.
Proof.
  intros Hv.
  pose proof format_02x_bytes_check as Hall.
  rewrite forallb_forall in Hall. specialize (Hall v (in_bytes v Hv)).
  apply andb_true_iff in Hall. destruct Hall as [Hlen Hhex].
  apply Nat.eqb_eq in Hlen.
  destruct (format_02x v) as [ | a [ | b [ | ? ?]]]; try discriminate.
  exists a, b. simpl in Hhex.
  apply andb_true_iff in Hhex. destruct Hhex as [Ha Hb].
  apply andb_true_iff in Hb. destruct Hb as [Hb _].
  repeat split; assumption.
Qed.

Lemma format_02x_injective (v u : Z) :
  valid_channel v -> valid_channel u ->
  format_02x v = format_02x u -> v = u.
Proof.
  intros Hv Hu Heq.
  pose proof format_02x_injective_check as Hall.
  rewrite forallb_forall in Hall. specialize (Hall v (in_bytes v Hv)).
  rewrite forallb_forall in Hall. specialize (Hall u (in_bytes u Hu)).
  rewrite Heq, String.eqb_refl in Hall. simpl in Hall.
  apply Z.eqb_eq. exact Hall.
Qed.

(** X12. For a colour with channels in [0,255], [rgb_to_hex]
    returns ['#'] followed by exactly six lower-case hexadecimal
    digits. *)
Theorem rgb_to_hex_format (rgb : Color) :
  valid_color rgb ->
  exists digits : string,
    rgb_to_hex rgb = String "#" digits
    /\ String.length digits = 6%nat
    /\ all_chars is_hex_digit digits = true.
Proof.
  intros (Hr & Hg & Hb). unfold rgb_to_hex.
  destruct (format_02x_byte _ Hr) as (r1 & r2 & -> & Hr1 & Hr2).
  destruct (format_02x_byte _ Hg) as (g1 & g2 & -> & Hg1 & Hg2).
  destruct (format_02x_byte _ Hb) as (b1 & b2 & -> & Hb1 & Hb2).
  eexists. split; [reflexivity | ]. split; [reflexivity | ].
  simpl. rewrite Hr1, Hr2, Hg1, Hg2, Hb1, Hb2. reflexivity.
Qed.

Lemma rgb_to_hex_format_witness :
  valid_color gray118
  /\ exists digits : string,
       rgb_to_hex gray118 = String "#" digits
       /\ String.length digits = 6%nat
       /\ all_chars is_hex_digit digits = true.
Proof.
  assert (V : valid_color gray118)
    by (unfold valid_color, valid_channel; simpl; lia).
  split; [exact V | exact (rgb_to_hex_format gray118 V)].
Defined.

(** X13. On colours with channels in [0,255], [rgb_to_hex] is
    injective: two colours printed alike are equal.  (Outside that
    range it is not, see [rgb_to_hex_collision].) *)
Theorem rgb_to_hex_injective (c1 c2 : Color) :
  valid_color c1 -> valid_color c2 ->
  rgb_to_hex c1 = rgb_to_hex c2 -> c1 = c2.
Proof.
  intros (Hr1 & Hg1 & Hb1) (Hr2 & Hg2 & Hb2). unfold rgb_to_hex.
  destruct (format_02x_byte _ Hr1) as (a1 & a2 & Ea & _).
  destruct (format_02x_byte _ Hg1) as (a3 & a4 & Eb & _).
  destruct (format_02x_byte _ Hb1) as (a5 & a6 & Ec & _).
  destruct (format_02x_byte _ Hr2) as (d1 & d2 & Ed & _).
  destruct (format_02x_byte _ Hg2) as (d3 & d4 & Ee & _).
  destruct (format_02x_byte _ Hb2) as (d5 & d6 & Ef & _).
  intros Heq.
  assert (Hparts : format_02x (red c1) = format_02x (red c2)
                   /\ format_02x (green c1) = format_02x (green c2)
                   /\ format_02x (blue c1) = format_02x (blue c2)).
  { rewrite Ea, Eb, Ec, Ed, Ee, Ef in *. simpl in Heq.
    injection Heq as -> -> -> -> -> ->. repeat split. }
  destruct Hparts as (Hr & Hg & Hb).
  apply format_02x_injective in Hr; [ | assumption | assumption].
  apply format_02x_injective in Hg; [ | assumption | assumption].
  apply format_02x_injective in Hb; [ | assumption | assumption].
  destruct c1, c2. simpl in *. subst. reflexivity.
Qed.

(** Outside the 8-bit range two colours can print alike. *)
Example rgb_to_hex_collision :
  rgb_to_hex (mkColor 16 0 256) = rgb_to_hex (mkColor 256 1 0).
Proof. reflexivity. Qed.

Lemma rgb_to_hex_injective_witness :
  valid_color white /\ valid_color white
  /\ rgb_to_hex white = rgb_to_hex white /\ white = white.
Proof.
  split; [exact valid_white | ]. split; [exact valid_white | ].
  split; [reflexivity | ].
  exact (rgb_to_hex_injective white white valid_white valid_white eq_refl).
Defined.

End HexFacts.

Module LoadFacts.
Import ColorContrastAnalyzer ContrastFacts ScreenshotLoading.

(** ** File names *)

Lemma substring_0_all (s : string) : substring 0 (String.length s) s = s.
Proof. induction s as [ | c s IH]; simpl; [reflexivity | rewrite IH; reflexivity]. Qed.

Lemma substring_after_prefix (stem suffix : string) :
  substring (String.length stem) (String.length suffix) (stem ++ suffix)
  = suffix.
Proof.
  induction stem as [ | c stem IH]; simpl.
  - apply substring_0_all.
  - exact IH.
Qed.

Lemma length_append (s1 s2 : string) :
  String.length (s1 ++ s2) = (String.length s1 + String.length s2)%nat.
Proof. induction s1 as [ | c s1 IH]; simpl; [reflexivity | rewrite IH; reflexivity]. Qed.

Lemma substring_split (k m : nat) (s : string) :
  String.length s = (k + m)%nat ->
  s = (substring 0 k s ++ substring k m s)%string.
Proof.
  revert s. induction k as [ | k IH]; intros s Hlen.
  - simpl in Hlen. subst m. rewrite substring_0_all.
    destruct s; reflexivity.
  - destruct s as [ | c s]; [discriminate | ].
    simpl in Hlen. injection Hlen as Hlen.
    simpl. f_equal. apply IH. exact Hlen.
Qed.

Lemma endswith1_spec (s suffix : string) :
  endswith1 s suffix = true <-> exists stem : string, s = (stem ++ suffix)%string.
Proof.
  unfold endswith1. rewrite andb_true_iff, Nat.leb_le, String.eqb_eq.
  split.
  - intros [Hle Hsub].
    exists (substring 0 (String.length s - String.length suffix) s).
    rewrite <- Hsub at 2. apply substring_split. lia.
  - intros [stem ->]. rewrite length_append. split; [lia | ].
    replace (String.length stem + String.length suffix - String.length suffix)%nat
      with (String.length stem) by lia.
    apply substring_after_prefix.
Qed.

Lemma endswith_spec (s : string) (suffixes : list string) :
  endswith s suffixes = true
  <-> exists stem suffix : string,
        In suffix suffixes /\ s = (stem ++ suffix)%string.
Proof.
  unfold endswith. rewrite existsb_exists. split.
  - intros (suffix & Hin & He). apply endswith1_spec in He.
    destruct He as [stem ->]. exists stem, suffix. split; [exact Hin | reflexivity].
  - intros (stem & suffix & Hin & ->). exists suffix.
    split; [exact Hin | ]. apply endswith1_spec. exists stem. reflexivity.
Qed.

Lemma image_name_spec (file : string) :
  endswith (lower file) valid_extensions = true <-> image_name file.
Proof. apply endswith_spec. Qed.

(** The files kept from a listing are those the loop appends. *)
Lemma kept_filter (files : list string) :
  kept files (filter (fun file => endswith (lower file) valid_extensions)
                     files).
Proof.
  induction files as [ | file files IH]; cbn [filter].
  - constructor.
  - destruct (endswith (lower file) valid_extensions) eqn:He.
    + apply kept_image; [apply image_name_spec; exact He | exact IH].
    + apply kept_other; [ | exact IH].
      intros Hn. apply image_name_spec in Hn. congruence.
Qed.

Lemma kept_unique (files l1 l2 : list string) :
  kept files l1 -> kept files l2 -> l1 = l2.
Proof.
  intros H1. revert l2.
  induction H1 as [ | file files loaded Himg _ IH | file files loaded Hn _ IH];
    intros l2 H2; inversion H2; subst.
  - reflexivity.
  - f_equal. apply IH. assumption.
  - contradiction.
  - contradiction.
  - apply IH. assumption.
Qed.

(** X7. [load_screenshots] raises when [os.listdir] raises;
    otherwise it appends, after the screenshots already loaded and in
    listing order, the joined paths of exactly those listed files
    whose lower-cased name ends in .png, .jpg, .jpeg or .bmp, and
    leaves the results untouched. *)
Theorem load_screenshots_spec (E : Env) (a : Analyzer) (directory : string) :
  match os_listdir E directory with
  | None => load_screenshots E a directory = None
  | Some files =>
      exists a' : Analyzer,
        load_screenshots E a directory = Some a'
        /\ contrast_results a' = contrast_results a
        /\ exists loaded : list string,
             screenshots a' = screenshots a ++ map (path_join E directory) loaded
             /\ kept files loaded
             /\ (forall other : list string, kept files other -> other = loaded)
             /\ (forall file : string,
                    In file loaded
                    <-> In file files
                        /\ exists stem extension : string,
                             In extension [".png"; ".jpg"; ".jpeg"; ".bmp"]%string
                             /\ lower file = (stem ++ extension)%string)
             /\ (List.length loaded <= List.length files)%nat
  end.
Proof.
  unfold load_screenshots.
  destruct (os_listdir E directory) as [files | ]; [ | reflexivity].
  eexists. split; [reflexivity | ]. split; [reflexivity | ].
  eexists. split; [reflexivity | ].
  split; [apply kept_filter | ].
  split; [intros other Hother; apply (kept_unique files);
          [exact Hother | apply kept_filter] | ].
  split.
  - intros file. rewrite filter_In. rewrite endswith_spec. reflexivity.
  - apply filter_length_le.
Qed.

(** A listing with a repeated name, a name in upper case and a file
    that is no image. *)
Example load_screenshots_order (E : Env) (a : Analyzer) :
  os_listdir E "shots" = Some ["b.PNG"; "notes.txt"; "a.jpg"; "b.PNG"]%string ->
  option_map screenshots (load_screenshots E a "shots")
  = Some (screenshots a
          ++ [path_join E "shots" "b.PNG"; path_join E "shots" "a.jpg";
              path_join E "shots" "b.PNG"]%string).
Proof. intros H. unfold load_screenshots. rewrite H. reflexivity. Qed.

End LoadFacts.

Module TextDetectionFacts.

Import ColorContrastAnalyzer TextDetection.

Lemma detect_row_accepted (data : TesseractData) (regions regions' : list Region)
  (i : nat) :
  detect_row data regions i = Some regions' ->
  Forall (accepted data) regions ->
  Forall (accepted data) regions'
  /\ (List.length regions' <= List.length regions + 1)%nat.
Proof.
  unfold detect_row. intros H Hall.
  destruct (nth_error (data_text data) i) as [raw | ] eqn:Hraw;
    [ | discriminate].
  cbv zeta in H.
  destruct (String.eqb (strip raw) EmptyString) eqn:Hempty.
  - injection H as <-. split; [exact Hall | lia].
  - destruct (nth_error (data_conf data) i) as [c | ] eqn:Hc;
      [ | discriminate].
    destruct (c >? 30)%Z eqn:Hgt.
    + destruct (nth_error (data_left data) i) as [vleft | ] eqn:Hl;
        [ | discriminate].
      destruct (nth_error (data_top data) i) as [vtop | ] eqn:Ht;
        [ | discriminate].
      destruct (nth_error (data_width data) i) as [vwidth | ] eqn:Hw;
        [ | discriminate].
      destruct (nth_error (data_height data) i) as [vheight | ] eqn:Hh;
        [ | discriminate].
      injection H as <-. split.
      * apply Forall_app. split; [exact Hall | ].
        constructor; [ | constructor].
        unfold accepted. simpl.
        split; [lia | ].
        split; [apply String.eqb_neq; exact Hempty | ].
        exists i, raw. repeat split; assumption.
      * rewrite length_app. simpl. lia.
    + injection H as <-. split; [exact Hall | lia].
Qed.

Lemma detect_rows_accepted (data : TesseractData) (indices : list nat)
  (regions regions' : list Region) :
  detect_rows data regions indices = Some regions' ->
  Forall (accepted data) regions ->
  Forall (accepted data) regions'
  /\ (List.length regions' <= List.length regions + List.length indices)%nat.
Proof.
  revert regions. induction indices as [ | i indices IH]; intros regions H Hall.
  - injection H as <-. split; [exact Hall | simpl; lia].
  - cbn [detect_rows] in H.
    destruct (detect_row data regions i) as [regions1 | ] eqn:Hrow;
      [ | discriminate].
    destruct (detect_row_accepted data regions regions1 i Hrow Hall)
      as [Hall1 Hlen1].
    destruct (IH regions1 H Hall1) as [Hall' Hlen'].
    split; [exact Hall' | simpl; lia].
Qed.

(** X14. [detect_text_regions_ocr] returns no region when
    Tesseract is unavailable or raises; otherwise every returned
    region comes from one row of the OCR data, has a confidence above
    30 and the stripped, non-empty text of that row, and there are at
    most as many regions as rows. *)
Theorem detect_text_regions_ocr_accepts (available : bool)
  (image_to_data : option TesseractData) :
  (available = false \/ image_to_data = None ->
   detect_text_regions_ocr available image_to_data = [])
  /\ (forall data : TesseractData,
         image_to_data = Some data ->
         Forall (accepted data)
                (detect_text_regions_ocr available image_to_data)
         /\ (List.length (detect_text_regions_ocr available image_to_data)
             <= List.length (data_text data))%nat).
Proof.
  unfold detect_text_regions_ocr. split.
  - intros [-> | ->]; [reflexivity | ].
    destruct (negb available); reflexivity.
  - intros data ->.
    destruct (negb available); [split; [constructor | simpl; lia] | ].
    destruct (detect_rows data [] (seq 0 (List.length (data_text data))))
      as [regions | ] eqn:Hrows; [ | split; [constructor | simpl; lia]].
    destruct (detect_rows_accepted data _ [] regions Hrows (Forall_nil _))
      as [Hall Hlen].
    rewrite length_seq in Hlen. split; [exact Hall | simpl in Hlen; lia].
Qed.

Lemma detect_text_regions_ocr_accepts_witness :
  Forall (accepted sample_data)
         (detect_text_regions_ocr true (Some sample_data))
  /\ (List.length (detect_text_regions_ocr true (Some sample_data))
      <= List.length (data_text sample_data))%nat.
Proof.
  exact (proj2 (detect_text_regions_ocr_accepts true (Some sample_data))
           sample_data eq_refl).
Defined.

Example detect_sample :
  detect_text_regions_ocr true (Some sample_data)
  = [{| text := "Play"; x := 10; y := 20; w := 40; h := 16; conf := 91 |}].
Proof. reflexivity. Qed.

(** A column shorter than the text column loses every region. *)
Example detect_short_column :
  detect_text_regions_ocr true
    (Some {| data_text := ["Play"; "Quit"]%string;
             data_conf := [91; 95]%Z;
             data_left := [10]%Z; data_top := [20; 60]%Z;
             data_width := [40; 30]%Z; data_height := [16; 12]%Z |}) = [].
Proof. reflexivity. Qed.

End TextDetectionFacts.

Module SamplingFacts.

Import ColorBlindSimulator PixelSampling.

Lemma nth_uint8 (l : list Z) (i : nat) : Forall uint8 l -> uint8 (nth i l 0%Z).
Proof.
  intros Hall. destruct (Nat.lt_ge_cases i (List.length l)) as [Hlt | Hge].
  - rewrite Forall_forall in Hall. apply Hall. apply nth_In. exact Hlt.
  - rewrite nth_overflow by exact Hge. unfold uint8. lia.
Qed.

Lemma sumZ_bytes (l : list Z) :
  Forall uint8 l -> (0 <= sumZ l <= 255 * Z.of_nat (List.length l))%Z.
Proof.
  induction 1 as [ | v l Hv _ IH]; simpl.
  - lia.
  - unfold uint8 in Hv. lia.
Qed.

Lemma region_elements_bytes (W inner : nat) (elements : list Z)
  (rows cols : list nat) (k : nat) :
  Forall uint8 elements ->
  Forall uint8 (region_elements W inner elements rows cols k).
Proof.
  intros Hall. unfold region_elements.
  apply Forall_forall. intros v Hv.
  apply in_flat_map in Hv. destruct Hv as (row & _ & Hv).
  apply in_map_iff in Hv. destruct Hv as (col & <- & _).
  apply nth_uint8. exact Hall.
Qed.

Lemma region_elements_length (W inner : nat) (elements : list Z)
  (rows cols : list nat) (k : nat) :
  List.length (region_elements W inner elements rows cols k)
  = (List.length rows * List.length cols)%nat.
Proof.
  unfold region_elements. induction rows as [ | row rows IH]; simpl.
  - reflexivity.
  - rewrite length_app, length_map, IH. reflexivity.
Qed.

Lemma mean_byte (s n : Z) :
  (0 < n)%Z -> (0 <= s <= 255 * n)%Z -> uint8 (Z.quot s n).
Proof.
  intros Hn Hs. unfold uint8.
  rewrite Z.quot_div_nonneg by lia.
  split.
  - apply Z.div_pos; lia.
  - apply Z.div_le_upper_bound; lia.
Qed.

Lemma slice_indices_inside (n : nat) (c radius : Z) :
  (0 <= c < Z.of_nat n)%Z -> (1 <= radius)%Z ->
  (0 < List.length (slice_indices n (Z.max 0 (c - radius))
                                    (Z.min (Z.of_nat n) (c + radius))))%nat.
Proof.
  intros Hc Hr. unfold slice_indices, slice_bound. rewrite length_seq.
  destruct (Z.max 0 (c - radius) <? 0)%Z eqn:H1; [lia | ].
  destruct (Z.min (Z.of_nat n) (c + radius) <? 0)%Z eqn:H2; [lia | ].
  lia.
Qed.

Lemma np_index_inside (n : nat) (i : Z) :
  (0 <= i < Z.of_nat n)%Z -> np_index n i = Some (Z.to_nat i).
Proof.
  intros Hi. unfold np_index.
  replace ((0 <=? i) && (i <? Z.of_nat n))%Z with true; [reflexivity | ].
  symmetry. apply andb_true_iff. split; [apply Z.leb_le | apply Z.ltb_lt]; lia.
Qed.

Lemma np_index_wraps (n : nat) (i : Z) :
  (- Z.of_nat n <= i < 0)%Z -> np_index n i = np_index n (i + Z.of_nat n).
Proof.
  intros Hi. rewrite (np_index_inside n (i + Z.of_nat n)) by lia.
  unfold np_index.
  replace ((0 <=? i) && (i <? Z.of_nat n))%Z with false
    by (symmetry; apply andb_false_iff; left; apply Z.leb_gt; lia).
  replace ((- Z.of_nat n <=? i) && (i <? 0))%Z with true; [reflexivity | ].
  symmetry. apply andb_true_iff. split; [apply Z.leb_le | apply Z.ltb_lt]; lia.
Qed.

Lemma np_index_outside (n : nat) (i : Z) :
  (i < - Z.of_nat n \/ Z.of_nat n <= i)%Z -> np_index n i = None.
Proof.
  intros Hi. unfold np_index.
  replace ((0 <=? i) && (i <? Z.of_nat n))%Z with false.
  - replace ((- Z.of_nat n <=? i) && (i <? 0))%Z with false; [reflexivity | ].
    symmetry. apply andb_false_iff.
    destruct Hi; [left; apply Z.leb_gt | right; apply Z.ltb_ge]; lia.
  - symmetry. apply andb_false_iff.
    destruct Hi; [left; apply Z.leb_gt | right; apply Z.ltb_ge]; lia.
Qed.

Lemma firstn3_channels (C off : nat) (l : list Z) :
  (3 <= C)%nat -> (off + C <= List.length l)%nat ->
  firstn 3 (firstn C (skipn off l))
  = [nth off l 0%Z; nth (off + 1) l 0%Z; nth (off + 2) l 0%Z].
Proof.
  intros HC Hlen.
  rewrite firstn_firstn. replace (Nat.min 3 C) with 3%nat by lia.
  revert l Hlen. induction off as [ | off IH]; intros l Hlen.
  - destruct l as [ | a [ | b [ | c l]]]; simpl in Hlen; try lia. reflexivity.
  - destruct l as [ | a l]; simpl in Hlen; [lia | ].
    simpl. apply IH. lia.
Qed.

(** The cases of [get_pixel_color] on a colour image. *)
Lemma pixel_color_cases (H W C : nat) (img : ndarray Z) (x y : Z) :
  color_image H W C img ->
  ((0 <= y < Z.of_nat H)%Z -> (0 <= x < Z.of_nat W)%Z ->
   exists r g b : Z,
     get_pixel_color img x y = Some [r; g; b]
     /\ r = nth ((Z.to_nat y * W + Z.to_nat x) * C) (data img) 0%Z
     /\ g = nth ((Z.to_nat y * W + Z.to_nat x) * C + 1) (data img) 0%Z
     /\ b = nth ((Z.to_nat y * W + Z.to_nat x) * C + 2) (data img) 0%Z
     /\ uint8 r /\ uint8 g /\ uint8 b)
  /\ ((- Z.of_nat H <= y < 0)%Z ->
      get_pixel_color img x y = get_pixel_color img x (y + Z.of_nat H))
  /\ ((- Z.of_nat W <= x < 0)%Z ->
      get_pixel_color img x y = get_pixel_color img (x + Z.of_nat W) y)
  /\ ((y < - Z.of_nat H \/ Z.of_nat H <= y
       \/ x < - Z.of_nat W \/ Z.of_nat W <= x)%Z ->
      get_pixel_color img x y = None).
Proof.
  intros (Hshape & HC & Hlen & Hbytes).
  unfold get_pixel_color. rewrite Hshape.
  split; [ | split; [ | split]].
  - intros Hy Hx.
    rewrite (np_index_inside H y Hy), (np_index_inside W x Hx).
    assert (Hcell : (Z.to_nat y * W + Z.to_nat x + 1 <= H * W)%nat).
    { assert (Hrow : (Z.to_nat y + 1 <= H)%nat) by lia.
      assert (Hcol : (Z.to_nat x + 1 <= W)%nat) by lia.
      apply Nat.le_trans with (m := ((Z.to_nat y + 1) * W)%nat); [lia | ].
      apply Nat.mul_le_mono_r. exact Hrow. }
    assert (Hoff : ((Z.to_nat y * W + Z.to_nat x) * C + C <= H * W * C)%nat).
    { replace ((Z.to_nat y * W + Z.to_nat x) * C + C)%nat
        with ((Z.to_nat y * W + Z.to_nat x + 1) * C)%nat by lia.
      apply Nat.mul_le_mono_r. exact Hcell. }
    rewrite firstn3_channels; [ | exact HC | rewrite Hlen; exact Hoff].
    do 3 eexists. split; [reflexivity | ].
    repeat split; try reflexivity; apply nth_uint8; exact Hbytes.
  - intros Hy. rewrite (np_index_wraps H y Hy). reflexivity.
  - intros Hx. rewrite (np_index_wraps W x Hx). reflexivity.
  - intros [Hy | [Hy | [Hx | Hx]]].
    + rewrite (np_index_outside H y) by lia. reflexivity.
    + rewrite (np_index_outside H y) by lia. reflexivity.
    + rewrite (np_index_outside W x) by lia.
      destruct (np_index H y); reflexivity.
    + rewrite (np_index_outside W x) by lia.
      destruct (np_index H y); reflexivity.
Qed.

(** X15. On an image array with three axes and at least three
    channels, [get_pixel_color] returns the first three channel values
    of the pixel at row [y], column [x], each a byte, when the
    coordinates are inside the image; a negative coordinate down to
    minus the size reads from the opposite edge; any other coordinate
    gives [None]. *)
Theorem get_pixel_color_spec (H W C : nat) (img : ndarray Z) (x y : Z) :
  color_image H W C img ->
  ((0 <= y < Z.of_nat H)%Z -> (0 <= x < Z.of_nat W)%Z ->
   exists r g b : Z,
     get_pixel_color img x y = Some [r; g; b]
     /\ r = nth ((Z.to_nat y * W + Z.to_nat x) * C) (data img) 0%Z
     /\ g = nth ((Z.to_nat y * W + Z.to_nat x) * C + 1) (data img) 0%Z
     /\ b = nth ((Z.to_nat y * W + Z.to_nat x) * C + 2) (data img) 0%Z
     /\ uint8 r /\ uint8 g /\ uint8 b)
  /\ ((- Z.of_nat H <= y < 0)%Z ->
      get_pixel_color img x y = get_pixel_color img x (y + Z.of_nat H))
  /\ ((- Z.of_nat W <= x < 0)%Z ->
      get_pixel_color img x y = get_pixel_color img (x + Z.of_nat W) y)
  /\ ((y < - Z.of_nat H \/ Z.of_nat H <= y
       \/ x < - Z.of_nat W \/ Z.of_nat W <= x)%Z ->
      get_pixel_color img x y = None).
Proof. apply pixel_color_cases. Qed.

Lemma firstn3_map_seq (f : nat -> Z) (C : nat) :
  (3 <= C)%nat -> firstn 3 (map f (seq 0 C)) = [f 0%nat; f 1%nat; f 2%nat].
Proof.
  intros HC. destruct C as [ | [ | [ | C]]]; try lia. reflexivity.
Qed.

(** The mean of a non-empty window of bytes. *)
Lemma surrounding_color_bytes (nan_as_int : Z) (H W C : nat)
  (img : ndarray Z) (x y radius : Z) :
  color_image H W C img ->
  (0 <= y < Z.of_nat H)%Z -> (0 <= x < Z.of_nat W)%Z -> (1 <= radius)%Z ->
  exists r g b : Z,
    get_surrounding_color nan_as_int img x y radius = Some [r; g; b]
    /\ uint8 r /\ uint8 g /\ uint8 b.
Proof.
  intros (Hshape & HC & Hlen & Hbytes) Hy Hx Hr.
  unfold get_surrounding_color. rewrite Hshape. cbv zeta.
  pose proof (slice_indices_inside H y radius Hy Hr) as Hrows.
  pose proof (slice_indices_inside W x radius Hx Hr) as Hcols.
  set (rows := slice_indices H _ _) in *.
  set (cols := slice_indices W _ _) in *.
  assert (Hcount : (0 < Z.of_nat (List.length rows * List.length cols))%Z)
    by nia.
  replace (Z.of_nat (List.length rows * List.length cols) =? 0)%Z with false
    by (symmetry; apply Z.eqb_neq; lia).
  rewrite firstn3_map_seq by exact HC.
  do 3 eexists. split; [reflexivity | ].
  repeat split;
    (apply mean_byte; [exact Hcount | ]);
    match goal with
    | |- context [region_elements W C (data img) rows cols ?k] =>
        rewrite <- (region_elements_length W C (data img) rows cols k)
    end;
    apply sumZ_bytes; apply region_elements_bytes; exact Hbytes.
Qed.

(** X16. On such an image, for a centre inside the image and a
    radius of at least 1, [get_surrounding_color] returns a triple of
    bytes. *)
Theorem get_surrounding_color_inside (nan_as_int : Z) (H W C : nat)
  (img : ndarray Z) (x y radius : Z) :
  color_image H W C img ->
  (0 <= y < Z.of_nat H)%Z -> (0 <= x < Z.of_nat W)%Z -> (1 <= radius)%Z ->
  exists r g b : Z,
    get_surrounding_color nan_as_int img x y radius = Some [r; g; b]
    /\ uint8 r /\ uint8 g /\ uint8 b.
Proof. apply surrounding_color_bytes. Qed.

Lemma tiny_image_color : color_image 2 2 3 tiny_image.
Proof.
  repeat split; try reflexivity; try lia.
  unfold tiny_image, uint8; simpl. repeat constructor; lia.
Qed.

Lemma get_surrounding_color_inside_witness :
  color_image 2 2 3 tiny_image
  /\ exists r g b : Z,
       get_surrounding_color 0 tiny_image 1 1 10 = Some [r; g; b]
       /\ uint8 r /\ uint8 g /\ uint8 b.
Proof.
  split; [exact tiny_image_color | ].
  apply (get_surrounding_color_inside 0 2 2 3 tiny_image 1 1 10
           tiny_image_color); simpl; lia.
Defined.

Lemma get_pixel_color_spec_witness :
  color_image 2 2 3 tiny_image
  /\ get_pixel_color tiny_image (-1) 0 = get_pixel_color tiny_image (-1 + 2) 0.
Proof.
  split; [exact tiny_image_color | ].
  apply (proj1 (proj2 (proj2 (get_pixel_color_spec 2 2 3 tiny_image (-1) 0
                                tiny_image_color)))).
  simpl. lia.
Defined.

Example sampling_tiny_image :
  get_pixel_color tiny_image 1 1 = Some [200; 100; 50]%Z
  /\ get_pixel_color tiny_image (-1) 0 = Some [0; 0; 0]%Z
  /\ get_pixel_color tiny_image 2 0 = None
  /\ get_surrounding_color 0 tiny_image 1 1 10 = Some [116; 93; 83]%Z
  /\ get_surrounding_color 7 tiny_image 0 0 0 = Some [7; 7; 7]%Z.
Proof. vm_compute. repeat split. Qed.

(** ** The samplers under check_text_contrast *)

Import ColorContrastAnalyzer.

(** X17. With these two samplers, [check_text_contrast] produces a
    check for every region of non-negative height whose centre lies
    inside a three-channel byte image, and both sampled colours are
    valid. *)
Theorem check_text_contrast_inside (A : ArrayWorld) (H W C : nat)
  (img : ndarray Z) (region : Region) :
  color_image H W C img ->
  (0 <= y region + h region / 2 < Z.of_nat H)%Z ->
  (0 <= x region + w region / 2 < Z.of_nat W)%Z ->
  (0 <= h region)%Z ->
  exists c : ContrastCheck,
    check_text_contrast (env_of A) img region = Some c
    /\ valid_color (fg_color c) /\ valid_color (bg_color c).
Proof.
  intros Himg Hy Hx Hh.
  assert (Hr : (1 <= h region / 2 + 5)%Z)
    by (pose proof (Z.div_pos (h region) 2 Hh); lia).
  destruct (proj1 (pixel_color_cases H W C img _ _ Himg) Hy Hx)
    as (r & g & b & Hfg & _ & _ & _ & Vr & Vg & Vb).
  destruct (surrounding_color_bytes (aw_nan_as_int A) H W C img _ _ _
              Himg Hy Hx Hr)
    as (r' & g' & b' & Hbg & Vr' & Vg' & Vb').
  assert (Vfg : valid_color (mkColor r g b))
    by (split; [exact Vr | split; [exact Vg | exact Vb]]).
  assert (Vbg : valid_color (mkColor r' g' b'))
    by (split; [exact Vr' | split; [exact Vg' | exact Vb']]).
  unfold check_text_contrast.
  cbn [env_of ColorContrastAnalyzer.get_pixel_color
       ColorContrastAnalyzer.get_surrounding_color].
  rewrite Hfg, Hbg. cbn [color_of_tuple].
  rewrite (ContrastFacts.calculate_contrast_ratio_valid _ _ Vfg Vbg).
  eexists. split; [reflexivity | ]. split; assumption.
Qed.


Lemma check_text_contrast_inside_witness :
  color_image 2 2 3 tiny_image
  /\ exists c : ContrastCheck,
       check_text_contrast (env_of tiny_world) tiny_image tiny_region = Some c
       /\ valid_color (fg_color c) /\ valid_color (bg_color c).
Proof.
  split; [exact tiny_image_color | ].
  apply (check_text_contrast_inside tiny_world 2 2 3 tiny_image tiny_region
           tiny_image_color);
    vm_compute; first [discriminate | split; [discriminate | reflexivity]].
Defined.

End SamplingFacts.

(* ################################################################# *)
(** * More properties of the colour-blindness simulator *)

Module BatchFacts.
Import ColorBlindSimulator SimulatorFacts SimulatorBatch.

(** ** Any array *)

Lemma astype_clip_uint8 (N : Float64) (x : float64 N) :
  ieee754 N ->
  uint8 (astype_uint8 N
           (multiply N (clip N x (of_int N 0) (of_int N 1)) (of_int N 255))).
Proof.
  intros Hieee.
  apply (rescale_8bit_range N Hieee (clamp01 N x));
    apply (clamp01_range N Hieee).
Qed.

Lemma length_flatten3 {A : Type} (rows : list (A * A * A)) :
  List.length (flatten3 rows) = (3 * List.length rows)%nat.
Proof.
  induction rows as [ | [[a b] c] rows IH]; simpl; [reflexivity | ].
  fold (flatten3 rows). rewrite IH. lia.
Qed.

(** X18. Whatever array the image holds (an alpha channel, values
    beyond a byte), an image returned by [simulate_colorblindness]
    comes from a known variant, has the shape of the input (with a
    third axis added to a two-axis input), as many elements, and, the
    float arithmetic being IEEE 754, only values in [0,255]. *)
Theorem simulate_colorblindness_output (E : Disk)
  (image_path cvd_type : string) (out : ndarray Z) :
  ieee754 (numpy E) ->
  snd (simulate_colorblindness E image_path cvd_type) = Returned (Some out) ->
  exists img : ndarray Z,
    load_array E image_path = Some img
    /\ In cvd_type keys
    /\ shape out = (if (List.length (shape img) =? 2)%nat
                    then shape img ++ [3%nat] else shape img)
    /\ List.length (data out)
       = (if (List.length (shape img) =? 2)%nat
          then 3 * List.length (data img) else List.length (data img))%nat
    /\ Forall uint8 (data out).
Proof.
  intros Hieee. unfold simulate_colorblindness.
  destruct (lookup cvd_type TRANSFORMATIONS) as [t | ] eqn:Hl;
    [ | discriminate].
  assert (Hin : In cvd_type keys).
  { destruct (in_dec string_dec cvd_type keys) as [Hin | Hnin];
      [exact Hin | ].
    apply lookup_none in Hnin. unfold keys in Hl.
    rewrite Hnin in Hl. discriminate. }
  destruct (load_array E image_path) as [img | ]; [ | discriminate].
  cbv zeta.
  set (arr := if (List.length (shape _) =? 2)%nat then _ else _).
  destruct (reshape3 (data arr)) as [pixels | ] eqn:Hre; [ | discriminate].
  intros H. injection H as <-. exists img.
  split; [reflexivity | ]. split; [exact Hin | ].
  cbn [shape data].
  apply reshape3_some in Hre.
  split; [ | split].
  - unfold arr. cbn [shape].
    destruct (List.length (shape img) =? 2)%nat; reflexivity.
  - rewrite length_map, length_flatten3, !length_map.
    assert (Hlen : List.length (data arr) = (3 * List.length pixels)%nat)
      by (rewrite Hre; apply length_flatten3).
    assert (Harr : List.length (data arr)
                   = (if (List.length (shape img) =? 2)%nat
                      then 3 * List.length (data img)
                      else List.length (data img))%nat).
    { unfold arr. cbn [shape].
      destruct (List.length (shape img) =? 2)%nat; cbn [data].
      - rewrite flat_map_triple, length_flatten3, !length_map. reflexivity.
      - apply length_map. }
    rewrite <- Harr, Hlen. reflexivity.
  - rewrite map_flatten3. apply flatten3_Forall.
    apply Forall_forall. intros q Hq.
    apply in_map_iff in Hq. destruct Hq as (p & <- & Hp).
    apply in_map_iff in Hp. destruct Hp as ([[a b] c] & <- & _).
    simpl. repeat split; apply astype_clip_uint8; exact Hieee.
Qed.


Lemma simulate_colorblindness_output_witness :
  ieee754 (numpy sample_disk)
  /\ exists out img : ndarray Z,
    snd (simulate_colorblindness sample_disk "shot.png" "protanopia")
    = Returned (Some out)
    /\ load_array sample_disk "shot.png" = Some img
    /\ In "protanopia"%string keys
    /\ shape out = (if (List.length (shape img) =? 2)%nat
                    then shape img ++ [3%nat] else shape img)
    /\ List.length (data out)
       = (if (List.length (shape img) =? 2)%nat
          then 3 * List.length (data img) else List.length (data img))%nat
    /\ Forall uint8 (data out).
Proof.
  split; [exact exact_ieee754 | ].
  assert (Hrun : snd (simulate_colorblindness sample_disk "shot.png"
                        "protanopia")
                 = Returned (Some {| shape := [1; 2; 3]%nat;
                                     data := [144; 142; 0; 92; 93; 71]%Z |}))
    by (rewrite simulate_sample_protanopia; reflexivity).
  destruct (simulate_colorblindness_output sample_disk "shot.png" "protanopia"
              _ exact_ieee754 Hrun) as (img & Hrest).
  eexists. exists img. split; [exact Hrun | exact Hrest].
Defined.

(** ** One screenshot *)

Lemma fold_process_variant (W : BatchWorld) (dir image_path : string)
  (items : list (string * Transformation))
  (acc : list SimulationEntry * list (string * ndarray Z)) :
  fst (fold_left (process_variant W dir image_path) items acc)
  = fst acc
    ++ map (entry_of W dir image_path)
           (filter (fun item => variant_recorded W dir image_path (fst item))
                   items)
  /\ List.length (snd (fold_left (process_variant W dir image_path) items acc))
     = (List.length (snd acc)
        + List.length
            (filter (fun item => variant_recorded W dir image_path (fst item))
                    items))%nat.
Proof.
  revert acc. induction items as [ | [k info] items IH]; intros acc.
  - simpl. rewrite app_nil_r. split; [reflexivity | lia].
  - cbn [fold_left filter fst].
    destruct (IH (process_variant W dir image_path acc (k, info)))
      as [IH1 IH2].
    rewrite IH1, IH2. clear IH IH1 IH2.
    unfold process_variant, variant_recorded.
    destruct (snd (simulate_colorblindness (disk W) image_path k))
      as [message | [img | ]].
    + split; [reflexivity | lia].
    + destruct (save_ok W _).
      * cbn [fst snd map List.length]. rewrite <- app_assoc, length_app.
        split; [reflexivity | simpl; lia].
      * split; [reflexivity | lia].
    + split; [reflexivity | lia].
Qed.

Lemma entry_types (W : BatchWorld) (dir image_path : string) (f : string -> bool)
  (d : list (string * Transformation)) :
  map cvd_type (map (entry_of W dir image_path)
                    (filter (fun item => f (fst item)) d))
  = filter f (map fst d).
Proof.
  induction d as [ | [k info] d IH]; simpl; [reflexivity | ].
  destruct (f k); simpl; rewrite IH; reflexivity.
Qed.

(** What one call of [process_screenshot] leaves. *)
Lemma process_screenshot_shape (W : BatchWorld) (self : Simulator)
  (image_path : string) :
  let self' := fst (process_screenshot W self image_path) in
  let record := snd (process_screenshot W self image_path) in
  simulations self' = simulations self ++ [record]
  /\ screenshots self' = screenshots self
  /\ original_path record = image_path
  /\ map cvd_type (simulations_of_image record)
     = filter (variant_recorded W (output_dir self) image_path) keys
  /\ Forall (fun e =>
               output_file e
               = (path_stem W image_path ++ "_" ++ cvd_type e ++ ".png")%string
               /\ output_path e = path_join W (output_dir self) (output_file e))
            (simulations_of_image record)
  /\ List.length (saved self')
     = (List.length (saved self)
        + List.length (simulations_of_image record))%nat
  /\ (List.length (simulations_of_image record) <= 8)%nat.
Proof.
  unfold process_screenshot.
  destruct (fold_process_variant W (output_dir self) image_path
              TRANSFORMATIONS ([], [])) as [Hentries Hsaved].
  destruct (fold_left _ TRANSFORMATIONS ([], [])) as [entries written].
  cbn [fst snd app List.length Nat.add] in *. cbv zeta.
  cbn [simulations screenshots original_path simulations_of_image saved].
  set (recorded := filter _ TRANSFORMATIONS) in *.
  split; [reflexivity | ]. split; [reflexivity | ]. split; [reflexivity | ].
  assert (Hlen : (List.length recorded <= 8)%nat)
    by (apply (filter_length_le _ TRANSFORMATIONS)).
  split; [ | split; [ | split]].
  - rewrite Hentries. unfold keys, recorded. apply entry_types.
  - rewrite Hentries. apply Forall_forall. intros e He.
    apply in_map_iff in He. destruct He as (item & <- & _).
    split; reflexivity.
  - rewrite length_app, Hsaved, Hentries, length_map. simpl. lia.
  - rewrite Hentries, length_map. exact Hlen.
Qed.

(** X19. [process_screenshot] appends exactly one record for the
    image.  Its entries are, in the order of [TRANSFORMATIONS], the
    variants whose simulation returned an image that could be saved:
    at most eight, each named [<stem>_<variant>.png] inside the
    output directory, one saved file per entry. *)
Theorem process_screenshot_records (W : BatchWorld) (self : Simulator)
  (image_path : string) :
  let self' := fst (process_screenshot W self image_path) in
  let record := snd (process_screenshot W self image_path) in
  simulations self' = simulations self ++ [record]
  /\ screenshots self' = screenshots self
  /\ original_path record = image_path
  /\ map cvd_type (simulations_of_image record)
     = filter (variant_recorded W (output_dir self) image_path) keys
  /\ Forall (fun e =>
               output_file e
               = (path_stem W image_path ++ "_" ++ cvd_type e ++ ".png")%string
               /\ output_path e = path_join W (output_dir self) (output_file e))
            (simulations_of_image record)
  /\ List.length (saved self')
     = (List.length (saved self)
        + List.length (simulations_of_image record))%nat
  /\ (List.length (simulations_of_image record) <= 8)%nat.
Proof. apply process_screenshot_shape. Qed.

(** X20. For a valid image, when every save succeeds,
    [process_screenshot] records all eight variants, in the order of
    [TRANSFORMATIONS]. *)
Theorem process_screenshot_complete (W : BatchWorld) (self : Simulator)
  (image_path : string) (img : ndarray Z) :
  load_array (disk W) image_path = Some img ->
  valid_image img ->
  (forall p : string, save_ok W p = true) ->
  map cvd_type
      (simulations_of_image (snd (process_screenshot W self image_path)))
  = keys.
Proof.
  intros Hload Hvalid Hsave.
  destruct (process_screenshot_shape W self image_path)
    as (_ & _ & _ & Htypes & _).
  rewrite Htypes.
  assert (Hall : forall k, In k keys ->
            variant_recorded W (output_dir self) image_path k = true).
  { intros k Hk. unfold variant_recorded.
    destruct (simulate_colorblindness_valid (disk W) image_path k img
                Hload Hvalid Hk) as (_ & _ & out & _ & _ & -> & _).
    cbn [snd]. apply Hsave. }
  revert Hall. generalize keys. intros l Hall.
  induction l as [ | k l IH]; simpl; [reflexivity | ].
  rewrite (Hall k) by (left; reflexivity).
  f_equal. apply IH. intros k' Hk'. apply Hall. right. exact Hk'.
Qed.

Lemma process_screenshot_complete_witness :
  load_array (disk sample_world) "shot.png" = Some sample_image
  /\ valid_image sample_image
  /\ (forall p : string, save_ok sample_world p = true)
  /\ map cvd_type
         (simulations_of_image
            (snd (process_screenshot sample_world (fresh []) "shot.png")))
     = keys.
Proof.
  split; [reflexivity | ]. split; [exact valid_sample_image | ].
  split; [intros p; reflexivity | ].
  exact (process_screenshot_complete sample_world (fresh []) "shot.png"
           sample_image eq_refl valid_sample_image (fun p => eq_refl)).
Defined.

(** X21. When the image cannot be opened, [process_screenshot]
    still appends a record for it, with no entry and no saved file,
    and [get_summary] counts eight more simulations. *)
Theorem process_screenshot_unreadable (W : BatchWorld) (self : Simulator)
  (image_path : string) :
  load_array (disk W) image_path = None ->
  let self' := fst (process_screenshot W self image_path) in
  simulations self'
  = simulations self
    ++ [{| original_image := path_basename W image_path;
           original_path := image_path;
           simulations_of_image := [] |}]
  /\ saved self' = saved self
  /\ total_simulations (get_summary self')
     = (total_simulations (get_summary self) + 8)%Z.
Proof.
  intros Hload.
  assert (Hnone : forall items acc,
            fold_left (process_variant W (output_dir self) image_path)
                      items acc = acc).
  { induction items as [ | [k info] items IH]; intros acc; [reflexivity | ].
    cbn [fold_left]. rewrite IH. unfold process_variant.
    unfold simulate_colorblindness.
    destruct (lookup k TRANSFORMATIONS); [ | reflexivity].
    rewrite Hload. reflexivity. }
  unfold process_screenshot. rewrite Hnone. cbv zeta.
  cbn [fst simulations saved].
  split; [reflexivity | ]. split; [apply app_nil_r | ].
  unfold get_summary. cbn [total_simulations simulations].
  rewrite length_app. simpl List.length. lia.
Qed.

Lemma process_screenshot_unreadable_witness :
  load_array (disk blind_world) "gone.png" = None
  /\ saved (fst (process_screenshot blind_world (fresh []) "gone.png")) = []
  /\ total_simulations
       (get_summary (fst (process_screenshot blind_world (fresh []) "gone.png")))
     = (total_simulations (get_summary (fresh [])) + 8)%Z.
Proof.
  split; [reflexivity | ].
  exact (proj2 (process_screenshot_unreadable blind_world (fresh [])
                  "gone.png" eq_refl)).
Defined.

(** ** The whole batch *)

Lemma fold_process_counts (W : BatchWorld) (paths : list string) (self : Simulator) :
  let self' := fold_left (fun self screenshot =>
                            fst (process_screenshot W self screenshot))
                         paths self in
  List.length (simulations self')
  = (List.length (simulations self) + List.length paths)%nat
  /\ (generated self' <= generated self + 8 * List.length paths)%nat
  /\ List.length (saved self') = (List.length (saved self)
                                  + (generated self' - generated self))%nat
  /\ (generated self <= generated self')%nat.
Proof.
  revert self. induction paths as [ | p paths IH]; intros self; cbv zeta.
  - simpl. repeat split; lia.
  - cbn [fold_left].
    destruct (process_screenshot_shape W self p)
      as (Hsims & _ & _ & _ & _ & Hsaved & Hle).
    cbv zeta in Hsims, Hsaved, Hle.
    specialize (IH (fst (process_screenshot W self p))). cbv zeta in IH.
    destruct IH as (IH1 & IH2 & IH3 & IH4).
    assert (Hgen : generated (fst (process_screenshot W self p))
                   = (generated self
                      + List.length (simulations_of_image
                                       (snd (process_screenshot W self p))))%nat).
    { unfold generated. rewrite Hsims, flat_map_app, length_app.
      simpl. rewrite app_nil_r. reflexivity. }
    rewrite IH1, Hsims, length_app. simpl List.length.
    repeat split; lia.
Qed.

(** X22. After [process_all_screenshots] on a new simulator,
    [get_summary] reports as many processed screenshots as were
    given and eight simulations for each, whether or not they were
    generated; the images generated (and saved) are at most that
    many.  The returned value is [False] exactly when there is no
    screenshot. *)
Theorem process_all_screenshots_summary (W : BatchWorld) (paths : list string)
  (dir : string) :
  let self := {| output_dir := dir; screenshots := paths;
                 simulations := []; saved := [] |} in
  let self' := fst (process_all_screenshots W self) in
  screenshots_processed (get_summary self') = Z.of_nat (List.length paths)
  /\ total_simulations (get_summary self')
     = (8 * Z.of_nat (List.length paths))%Z
  /\ List.length (saved self') = generated self'
  /\ (Z.of_nat (generated self') <= total_simulations (get_summary self'))%Z
  /\ (snd (process_all_screenshots W self) = false <-> paths = []).
Proof.
  cbv zeta. unfold process_all_screenshots. cbn [screenshots].
  destruct paths as [ | p paths].
  - cbn [fst snd]. unfold get_summary, generated. simpl.
    repeat split; try reflexivity; try lia.
  - cbn [fst snd].
    pose proof (fold_process_counts W (p :: paths)
                  {| output_dir := dir; screenshots := p :: paths;
                     simulations := []; saved := [] |}) as Hc.
    cbv zeta in Hc. destruct Hc as (H1 & H2 & H3 & H4).
    unfold get_summary. cbn [screenshots_processed total_simulations].
    rewrite H1. cbn [simulations saved List.length] in *.
    change (generated {| output_dir := dir; screenshots := p :: paths;
                         simulations := []; saved := [] |}) with 0%nat in *.
    change (Z.of_nat (List.length TRANSFORMATIONS)) with 8%Z.
    repeat split; try lia; try discriminate.
Qed.

(** None of the eight reported simulations exists when the screenshot
    cannot be opened. *)
Example summary_counts_failed_simulations :
  let self' := fst (process_all_screenshots blind_world (fresh ["gone.png"%string])) in
  total_simulations (get_summary self') = 8%Z /\ generated self' = 0%nat.
Proof. vm_compute. split; reflexivity. Qed.

End BatchFacts.

(* ################################################################# *)
(** * Properties of the focus indicator detector *)

Module FocusFacts.

Import ColorContrastAnalyzer ContrastReport FocusIndicatorDetector.

(** ** Sorting by area *)

Lemma insert_by_area_perm (r : ChangedRegion) (l : list ChangedRegion) :
  Permutation (insert_by_area r l) (r :: l).
Proof.
  induction l as [ | r' l IH]; simpl.
  - apply Permutation_refl.
  - destruct (cr_area r' <=? cr_area r)%Z.
    + apply Permutation_refl.
    + apply perm_trans with (l' := r' :: r :: l).
      * apply perm_skip. exact IH.
      * apply perm_swap.
Qed.

Lemma sort_by_area_desc_perm (l : list ChangedRegion) :
  Permutation (sort_by_area_desc l) l.
Proof.
  induction l as [ | r l IH]; simpl.
  - apply Permutation_refl.
  - apply perm_trans with (l' := r :: sort_by_area_desc l).
    + apply insert_by_area_perm.
    + apply perm_skip. exact IH.
Qed.

Lemma insert_by_area_sorted (r : ChangedRegion) (l : list ChangedRegion) :
  StronglySorted larger_first l ->
  StronglySorted larger_first (insert_by_area r l).
Proof.
  induction 1 as [ | r' l Hsorted IH Hall]; simpl.
  - constructor; constructor.
  - destruct (cr_area r' <=? cr_area r)%Z eqn:Hcmp.
    + apply Z.leb_le in Hcmp. constructor.
      * constructor; assumption.
      * constructor; [exact Hcmp | ].
        eapply Forall_impl; [ | exact Hall].
        intros a Ha. unfold larger_first in *. lia.
    + apply Z.leb_gt in Hcmp. constructor; [exact IH | ].
      apply (@Permutation_Forall _ _ (r :: l) _).
      * apply Permutation_sym. apply insert_by_area_perm.
      * constructor; [unfold larger_first; lia | exact Hall].
Qed.

Lemma sort_by_area_desc_sorted (l : list ChangedRegion) :
  StronglySorted larger_first (sort_by_area_desc l).
Proof.
  induction l as [ | r l IH]; simpl.
  - constructor.
  - apply insert_by_area_sorted. exact IH.
Qed.

Lemma py_int_above (a : Q) : (100 < a)%Q -> (100 <= py_int a)%Z.
Proof.
  intros Ha. destruct a as [n d]. unfold py_int. simpl.
  unfold Qlt in Ha. simpl in Ha.
  rewrite Z.quot_div_nonneg by lia.
  apply Z.div_le_lower_bound; lia.
Qed.

(** What a result of [compare_images] holds. *)
Lemma compare_images_inv (Wd : FocusWorld) (img1_path img2_path : string)
  (d : DiffResult) :
  compare_images Wd img1_path img2_path = Some d ->
  exists contours : list Contour,
    find_contours Wd img1_path img2_path = Some contours
    /\ Permutation (changed_regions d)
         (map region_of
              (filter (fun c => negb (Qle_bool (contour_area c) 100)) contours))
    /\ StronglySorted larger_first (changed_regions d)
    /\ Forall (fun r => (100 <= cr_area r)%Z) (changed_regions d)
    /\ (has_changes d = true <-> changed_regions d <> [])
    /\ (has_changes d = true ->
        total_changes d = Some (Z.of_nat (List.length (changed_regions d)))).
Proof.
  unfold compare_images.
  destruct (negb (imread Wd img1_path) || negb (imread Wd img2_path));
    [discriminate | ].
  destruct (find_contours Wd img1_path img2_path) as [contours | ];
    [ | discriminate].
  cbv zeta. intros H. exists contours. split; [reflexivity | ].
  set (significant := filter _ contours) in *.
  assert (Hareas : Forall (fun r => (100 <= cr_area r)%Z)
                          (map region_of significant)).
  { apply Forall_forall. intros r Hr.
    apply in_map_iff in Hr. destruct Hr as (c & <- & Hc).
    apply filter_In in Hc. destruct Hc as [_ Hc].
    apply negb_true_iff in Hc. simpl. apply py_int_above.
    destruct (Qlt_le_dec 100 (contour_area c)) as [Hlt | Hle]; [exact Hlt | ].
    apply Qle_bool_iff in Hle. rewrite Hle in Hc. discriminate. }
  destruct significant as [ | c rest] eqn:Hsig.
  - injection H as <-. cbn [changed_regions has_changes total_changes].
    split; [apply Permutation_refl | ]. split; [constructor | ].
    split; [constructor | ].
    split; [split; [discriminate | intros Hne; contradiction] | discriminate].
  - injection H as <-. cbv [changed_regions has_changes total_changes].
    fold region_of.
    change (insert_by_area _ (sort_by_area_desc (map region_of rest)))
      with (sort_by_area_desc (map region_of (c :: rest))).
    split; [apply sort_by_area_desc_perm | ].
    split; [apply sort_by_area_desc_sorted | ].
    split.
    + apply (@Permutation_Forall _ _ (map region_of (c :: rest)) _);
        [apply Permutation_sym; apply sort_by_area_desc_perm | exact Hareas].
    + split; [ | intros _; reflexivity].
      split; [ | reflexivity]. intros _ Hnil.
      pose proof (sort_by_area_desc_perm (map region_of (c :: rest))) as Hp.
      rewrite Hnil in Hp. apply Permutation_nil in Hp. discriminate.
Qed.

(** X23. A result of [compare_images] lists the bounding boxes of
    exactly the contours of area above 100, by decreasing (truncated)
    area, so every listed area is at least 100 and the first region
    is a largest one; [has_changes] holds exactly when the list is
    not empty, and then [total_changes] is its length. *)
Theorem compare_images_regions (Wd : FocusWorld) (img1_path img2_path : string)
  (d : DiffResult) :
  compare_images Wd img1_path img2_path = Some d ->
  exists contours : list Contour,
    find_contours Wd img1_path img2_path = Some contours
    /\ Permutation (changed_regions d)
         (map region_of
              (filter (fun c => negb (Qle_bool (contour_area c) 100)) contours))
    /\ StronglySorted larger_first (changed_regions d)
    /\ Forall (fun r => (100 <= cr_area r)%Z) (changed_regions d)
    /\ (has_changes d = true <-> changed_regions d <> [])
    /\ (has_changes d = true ->
        total_changes d = Some (Z.of_nat (List.length (changed_regions d)))).
Proof. apply compare_images_inv. Qed.


Lemma compare_images_lit :
  compare_images lit_world "before.png" "after.png" = Some lit_diff.
Proof. reflexivity. Qed.

Lemma compare_images_regions_witness :
  compare_images lit_world "before.png" "after.png" = Some lit_diff
  /\ StronglySorted larger_first (changed_regions lit_diff)
  /\ Forall (fun r => (100 <= cr_area r)%Z) (changed_regions lit_diff).
Proof.
  split; [exact compare_images_lit | ].
  destruct (compare_images_regions lit_world "before.png" "after.png"
              lit_diff compare_images_lit)
    as (contours & _ & _ & Hsorted & Hareas & _).
  split; [exact Hsorted | exact Hareas].
Defined.

(** ** The loop over the elements *)

Lemma compare_images_largest (Wd : FocusWorld) (p1 p2 : string) (d : DiffResult) :
  compare_images Wd p1 p2 = Some d ->
  has_changes d = true ->
  exists largest rest, changed_regions d = largest :: rest.
Proof.
  intros H Hc.
  destruct (compare_images_inv Wd p1 p2 d H)
    as (_ & _ & _ & _ & _ & Hne & _).
  apply Hne in Hc.
  destruct (changed_regions d) as [ | largest rest]; [contradiction | ].
  exists largest, rest. reflexivity.
Qed.

(** One iteration: at most one test is recorded, with the counter
    that matches its verdict; Tab is pressed at most once, and always
    when a test is recorded.  The iteration is left by an exception
    only when the Tab press raises. *)
Lemma test_element_step (Wd : FocusWorld) (self : Detector) (i : Z) :
  match test_element Wd self i with
  | Some self' =>
      exists new : list FocusTest,
        test_results self' = test_results self ++ new
        /\ (List.length new <= 1)%nat
        /\ Forall (fun t => element_index t = (i + 1)%Z) new
        /\ passed_tests self'
           = (passed_tests self
              + Z.of_nat (List.length (filter test_wcag_compliant new)))%Z
        /\ failed_tests self'
           = (failed_tests self
              + Z.of_nat (List.length
                            (filter (fun t => negb (test_wcag_compliant t))
                                    new)))%Z
        /\ (tabs_pressed self + Z.of_nat (List.length new) <= tabs_pressed self'
            <= tabs_pressed self + 1)%Z
  | None =>
      capture_screenshot Wd (before_name i) <> None
      /\ press_tab Wd i = false
  end.
Proof.
  unfold test_element. fold (before_name i).
  destruct (capture_screenshot Wd (before_name i)) as [before_path | ].
  2:{ exists []. rewrite app_nil_r. simpl.
      repeat split; try reflexivity; try constructor; lia. }
  destruct (press_tab Wd i); cbn [negb];
    [ | split; [discriminate | reflexivity]].
  destruct (capture_screenshot Wd _) as [after_path | ].
  2:{ exists [].
      cbn [test_results passed_tests failed_tests tabs_pressed].
      rewrite app_nil_r. simpl.
      repeat split; try reflexivity; try constructor; lia. }
  destruct (compare_images Wd before_path after_path) as [d | ] eqn:Hd.
  2:{ exists [].
      cbn [test_results passed_tests failed_tests tabs_pressed].
      rewrite app_nil_r. simpl.
      repeat split; try reflexivity; try constructor; lia. }
  cbv zeta.
  destruct (has_changes d) eqn:Hc.
  - destruct (compare_images_largest Wd _ _ d Hd Hc) as (largest & rest & ->).
    destruct (measure_indicator_properties Wd after_path largest) as [p | ].
    + destruct (passes_contrast p && passes_thickness p);
        eexists;
        cbn [test_results passed_tests failed_tests tabs_pressed];
        (split; [reflexivity | ]); simpl;
        repeat split; try (repeat constructor); lia.
    + eexists;
        cbn [test_results passed_tests failed_tests tabs_pressed];
        (split; [reflexivity | ]); simpl;
        repeat split; try (repeat constructor); lia.
  - eexists;
      cbn [test_results passed_tests failed_tests tabs_pressed];
      (split; [reflexivity | ]); simpl;
      repeat split; try (repeat constructor); lia.
Qed.

Lemma run_elements_inv (Wd : FocusWorld) (indices : list Z) (self : Detector) :
  match run_elements Wd self indices with
  | Some self' =>
      exists new : list FocusTest,
        test_results self' = test_results self ++ new
        /\ (List.length new <= List.length indices)%nat
        /\ Forall (fun t => In (element_index t) (map (Z.add 1) indices)) new
        /\ passed_tests self'
           = (passed_tests self
              + Z.of_nat (List.length (filter test_wcag_compliant new)))%Z
        /\ failed_tests self'
           = (failed_tests self
              + Z.of_nat (List.length
                            (filter (fun t => negb (test_wcag_compliant t))
                                    new)))%Z
        /\ (tabs_pressed self + Z.of_nat (List.length new) <= tabs_pressed self'
            <= tabs_pressed self + Z.of_nat (List.length indices))%Z
  | None =>
      exists i : Z,
        In i indices
        /\ capture_screenshot Wd (before_name i) <> None
        /\ press_tab Wd i = false
  end.
Proof.
  revert self. induction indices as [ | i indices IH]; intros self.
  - exists []. simpl. rewrite app_nil_r.
    repeat split; try reflexivity; try constructor; lia.
  - cbn [run_elements].
    pose proof (test_element_step Wd self i) as Hstep.
    destruct (test_element Wd self i) as [self1 | ].
    2:{ exists i. split; [left; reflexivity | exact Hstep]. }
    destruct Hstep as (new1 & Hres1 & Hlen1 & Hidx1 & Hp1 & Hf1 & Ht1).
    specialize (IH self1).
    destruct (run_elements Wd self1 indices) as [self2 | ].
    2:{ destruct IH as (k & Hk & Hrest).
        exists k. split; [right; exact Hk | exact Hrest]. }
    destruct IH as (new2 & Hres2 & Hlen2 & Hidx2 & Hp2 & Hf2 & Ht2).
    exists (new1 ++ new2).
    split; [rewrite Hres2, Hres1, app_assoc; reflexivity | ].
    rewrite !filter_app, !length_app. cbn [List.length map].
    split; [lia | ].
    split.
    + apply Forall_app. split.
      * eapply Forall_impl; [ | exact Hidx1].
        intros t Ht. left. rewrite Ht. lia.
      * eapply Forall_impl; [ | exact Hidx2].
        intros t Ht. right. exact Ht.
    + repeat split; lia.
Qed.

(** The loop returns when no Tab press raises. *)
Lemma run_elements_returns (Wd : FocusWorld) (indices : list Z)
  (self : Detector) :
  (forall i : Z, In i indices -> press_tab Wd i = true) ->
  exists self' : Detector, run_elements Wd self indices = Some self'.
Proof.
  intros Hpress.
  pose proof (run_elements_inv Wd indices self) as Hinv.
  destruct (run_elements Wd self indices) as [self' | ].
  - exists self'. reflexivity.
  - destruct Hinv as (i & Hi & _ & Hfalse).
    rewrite (Hpress i Hi) in Hfalse. discriminate.
Qed.

(** X24. [test_focus_visibility] on a new detector is left by an
    exception only when a Tab press raises (pyautogui's fail-safe)
    after the screenshot before it was taken; [changed_regions][0]
    always exists.  When it returns, the two counters count the
    compliant and the other recorded tests, so they add up to the
    number of tests; at most one test is recorded per Tab press and
    at most [element_count] Tabs are pressed; the summary is
    compliant exactly when every recorded test is, and its
    compliance rate lies between 0 and 100. *)
Theorem test_focus_visibility_counts (Wd : FocusWorld) (element_count : nat) :
  match test_focus_visibility Wd new_detector element_count with
  | Some d =>
      counters_agree d
      /\ (passed_tests d + failed_tests d
          = Z.of_nat (List.length (test_results d)))%Z
      /\ (Z.of_nat (List.length (test_results d)) <= tabs_pressed d
          <= Z.of_nat element_count)%Z
      /\ Forall (fun t => (1 <= element_index t <= Z.of_nat element_count)%Z)
                (test_results d)
      /\ (wcag_compliant (get_summary d) = true
          <-> Forall (fun t => test_wcag_compliant t = true) (test_results d))
      /\ (0 <= compliance_rate (get_summary d)
          /\ compliance_rate (get_summary d) <= 100)%Q
  | None =>
      exists i : Z,
        (0 <= i < Z.of_nat element_count)%Z
        /\ capture_screenshot Wd (before_name i) <> None
        /\ press_tab Wd i = false
  end.
Proof.
  unfold test_focus_visibility.
  pose proof (run_elements_inv Wd (map Z.of_nat (seq 0 element_count))
                new_detector) as Hinv.
  destruct (run_elements Wd new_detector (map Z.of_nat (seq 0 element_count)))
    as [d | ].
  2:{ destruct Hinv as (i & Hi & Hrest).
      exists i. split; [ | exact Hrest].
      apply in_map_iff in Hi. destruct Hi as (k & <- & Hk).
      apply in_seq in Hk. lia. }
  destruct Hinv as (new & Hres & Hlen & Hidx & Hp & Hf & Ht).
  cbn [new_detector test_results passed_tests failed_tests tabs_pressed app]
    in Hres, Hp, Hf, Ht.
  rewrite length_map, length_seq in Hlen, Ht.
  rewrite Hres.
  assert (Hsplit : (List.length (filter test_wcag_compliant new)
                    + List.length
                        (filter (fun t => negb (test_wcag_compliant t)) new)
                    = List.length new)%nat).
  { clear. induction new as [ | t new IH]; simpl; [reflexivity | ].
    destruct (test_wcag_compliant t); simpl; lia. }
  split; [unfold counters_agree; rewrite Hres; split; lia | ].
  split; [lia | ]. split; [lia | ].
  split.
  - eapply Forall_impl; [ | exact Hidx].
    intros t Hin. rewrite map_map in Hin.
    apply in_map_iff in Hin. destruct Hin as (k & <- & Hk).
    apply in_seq in Hk. lia.
  - split.
    + unfold get_summary. cbn [wcag_compliant]. rewrite Z.eqb_eq, Hf.
      split.
      * intros H0. apply Forall_forall. intros t Hin.
        destruct (test_wcag_compliant t) eqn:Hc; [reflexivity | ].
        assert (Hin' : In t (filter (fun t => negb (test_wcag_compliant t)) new))
          by (apply filter_In; split; [exact Hin | rewrite Hc; reflexivity]).
        destruct (filter (fun t => negb (test_wcag_compliant t)) new);
          [contradiction | simpl in H0; lia].
      * intros Hall.
        replace (filter (fun t => negb (test_wcag_compliant t)) new)
          with (@nil FocusTest); [reflexivity | ].
        symmetry. clear - Hall.
        induction Hall as [ | t new Ht _ IH]; simpl; [reflexivity | ].
        rewrite Ht. simpl. exact IH.
    + unfold get_summary. cbn [compliance_rate]. rewrite Hres.
      destruct (Z.of_nat (List.length new) >? 0)%Z eqn:Hpos.
      * apply AnalyzerFacts.rate_range; lia.
      * split; unfold Qle; simpl; lia.
Qed.

(** When no Tab press raises, the run returns. *)
Lemma test_focus_visibility_returns (Wd : FocusWorld) (element_count : nat) :
  (forall i : Z, press_tab Wd i = true) ->
  exists d : Detector,
    test_focus_visibility Wd new_detector element_count = Some d.
Proof.
  intros Hpress. apply run_elements_returns. intros i _. apply Hpress.
Qed.

(** The run is left at the first Tab press that raises after its
    screenshot was taken. *)
Lemma run_elements_aborts (Wd : FocusWorld) (self : Detector) (i : Z)
  (before rest : list Z) :
  (forall k : Z, In k before -> press_tab Wd k = true) ->
  capture_screenshot Wd (before_name i) <> None ->
  press_tab Wd i = false ->
  run_elements Wd self (before ++ i :: rest) = None.
Proof.
  intros Hbefore Hcapture Hpress. revert self.
  induction before as [ | k before IH]; intros self; cbn [app run_elements].
  - unfold test_element. fold (before_name i).
    destruct (capture_screenshot Wd (before_name i)); [ | contradiction].
    rewrite Hpress. reflexivity.
  - pose proof (test_element_step Wd self k) as Hstep.
    destruct (test_element Wd self k) as [self1 | ].
    + apply IH. intros j Hj. apply Hbefore. right. exact Hj.
    + destruct Hstep as [_ Hfalse].
      rewrite (Hbefore k (or_introl eq_refl)) in Hfalse. discriminate.
Qed.

(** Two elements are tested, then the fail-safe ends the run. *)
Example fail_safe_aborts :
  test_focus_visibility aborted_world new_detector 10 = None.
Proof.
  apply (run_elements_aborts aborted_world new_detector 2 [0; 1]%Z
           (map Z.of_nat (seq 3 7))).
  - intros k [<- | [<- | []]]; reflexivity.
  - discriminate.
  - reflexivity.
Qed.


(** X25. When no screenshot can be captured, nothing is tested, and
    the summary of the focus detector reports zero elements, a rate
    of 0 and [wcag_compliant = True]. *)
Theorem no_capture_reports_compliance (Wd : FocusWorld) (element_count : nat) :
  (forall filename : string, capture_screenshot Wd filename = None) ->
  test_focus_visibility Wd new_detector element_count = Some new_detector
  /\ elements_tested (get_summary new_detector) = 0%Z
  /\ compliance_rate (get_summary new_detector) = 0%Q
  /\ wcag_compliant (get_summary new_detector) = true.
Proof.
  intros Hnone. split; [ | repeat split].
  unfold test_focus_visibility.
  generalize (map Z.of_nat (seq 0 element_count)). intros indices.
  induction indices as [ | i indices IH]; [reflexivity | ].
  cbn [run_elements]. unfold test_element. rewrite Hnone. exact IH.
Qed.

Lemma no_capture_reports_compliance_witness :
  (forall filename : string, capture_screenshot dark_world filename = None)
  /\ test_focus_visibility dark_world new_detector 10 = Some new_detector
  /\ wcag_compliant (get_summary new_detector) = true.
Proof.
  split; [intros filename; reflexivity | ].
  destruct (no_capture_reports_compliance dark_world 10 (fun _ => eq_refl))
    as (Hrun & _ & _ & Hc).
  split; [exact Hrun | exact Hc].
Defined.

(** ** The measured properties *)

Lemma color_of_reversed_3 (t : list Z) (c : Color) :
  List.length t = 3%nat ->
  color_of_reversed t = Some c ->
  bgr_to_hex (Some t) = Some (rgb_to_hex c).
Proof.
  intros Hlen.
  destruct t as [ | b [ | g [ | r [ | ? ?]]]]; try discriminate.
  unfold color_of_reversed. simpl. intros H. injection H as <-.
  reflexivity.
Qed.

(** X26. A result of [measure_indicator_properties] passes the
    contrast test exactly when the ratio between the reversed
    indicator colour and the reversed background colour (or
    (128,128,128) when there is none) is at least 3.0, and the
    thickness test exactly when the thickness is at least 2; for
    three-entry tuples the two reported hex colours are those of the
    colours the ratio was computed from. *)
Theorem measure_indicator_properties_spec (Wd : FocusWorld) (img_path : string)
  (region : ChangedRegion) (p : IndicatorProperties) :
  measure_indicator_properties Wd img_path region = Some p ->
  exists (indicator : list Z) (fg bg : Color) (ratio : R),
    edge_color Wd img_path region = Some indicator
    /\ color_of_reversed indicator = Some fg
    /\ background_rgb
         (get_surrounding_color Wd img_path
            (cr_x region + cr_w region / 2)%Z
            (cr_y region + cr_h region / 2)%Z
            (Z.max (cr_w region) (cr_h region) / 2 + 20)%Z) = Some bg
    /\ calculate_contrast_ratio fg bg = Some ratio
    /\ (passes_contrast p = true <-> (ratio >= 3.0)%R)
    /\ (passes_thickness p = true <-> (2 <= thickness_px p)%Z)
    /\ thickness_px p = estimate_border_thickness Wd img_path region
    /\ (List.length indicator = 3%nat -> indicator_color p = rgb_to_hex fg)
    /\ ((forall t : list Z,
            get_surrounding_color Wd img_path
              (cr_x region + cr_w region / 2)%Z
              (cr_y region + cr_h region / 2)%Z
              (Z.max (cr_w region) (cr_h region) / 2 + 20)%Z = Some t ->
            t = [] \/ List.length t = 3%nat) ->
        background_color p = rgb_to_hex bg).
Proof.
  unfold measure_indicator_properties.
  destruct (negb (imread Wd img_path)); [discriminate | ].
  destruct (edge_color Wd img_path region) as [indicator | ]; [ | discriminate].
  cbv zeta.
  destruct (color_of_reversed indicator) as [fg | ] eqn:Hfg; [ | discriminate].
  set (bg_color := get_surrounding_color Wd img_path _ _ _).
  destruct (background_rgb bg_color) as [bg | ] eqn:Hbg; [ | discriminate].
  destruct (calculate_contrast_ratio fg bg) as [ratio | ] eqn:Hratio;
    [ | discriminate].
  destruct (bgr_to_hex (Some indicator)) as [fg_hex | ] eqn:Hfh;
    [ | discriminate].
  destruct (background_hex bg_color) as [bh | ] eqn:Hbh; [ | discriminate].
  intros H. injection H as <-.
  exists indicator, fg, bg, ratio.
  cbn [passes_contrast passes_thickness thickness_px indicator_color
       background_color].
  split; [reflexivity | ].
  split; [first [reflexivity | exact Hfg] | ].
  split; [first [reflexivity | exact Hbg] | ].
  split; [first [reflexivity | exact Hratio] | ].
  split; [apply ContrastFacts.passes_iff | ].
  split; [apply Z.leb_le | ]. split; [reflexivity | ].
  split.
  - intros Hlen. pose proof (color_of_reversed_3 indicator fg Hlen Hfg) as Hx.
    rewrite Hfh in Hx. injection Hx as ->. reflexivity.
  - intros Hshape. unfold background_rgb in Hbg. unfold background_hex in Hbh.
    destruct bg_color as [[ | v t] | ] eqn:Hsur.
    + injection Hbg as <-. injection Hbh as <-. reflexivity.
    + destruct (Hshape (v :: t) eq_refl) as [Hnil | Hlen]; [discriminate | ].
      pose proof (color_of_reversed_3 (v :: t) bg Hlen Hbg) as Hx.
      rewrite Hbh in Hx. injection Hx as ->. reflexivity.
    + injection Hbg as <-. injection Hbh as <-. reflexivity.
Qed.

Lemma measure_lit :
  exists p : IndicatorProperties,
    measure_indicator_properties lit_world "after.png" lit_region = Some p.
Proof.
  unfold measure_indicator_properties.
  cbn [lit_world imread edge_color get_surrounding_color negb
       estimate_border_thickness].
  change (color_of_reversed [0; 0; 0]%Z) with (Some black).
  change (background_rgb (Some [255; 255; 255]%Z)) with (Some white).
  cbv beta iota.
  rewrite ContrastFacts.contrast_black_white.
  change (bgr_to_hex (Some [0; 0; 0]%Z)) with (Some "#000000"%string).
  change (background_hex (Some [255; 255; 255]%Z))
    with (Some "#ffffff"%string).
  eexists. reflexivity.
Qed.

Lemma measure_indicator_properties_spec_witness :
  exists p : IndicatorProperties,
    measure_indicator_properties lit_world "after.png" lit_region = Some p
    /\ (passes_thickness p = true <-> (2 <= thickness_px p)%Z)
    /\ thickness_px p = 3%Z.
Proof.
  destruct measure_lit as (p & Hp).
  exists p. split; [exact Hp | ].
  destruct (measure_indicator_properties_spec lit_world "after.png"
              lit_region p Hp)
    as (indicator & fg & bg & ratio & _ & _ & _ & _ & _ & Hthick & Hpx & _).
  split; [exact Hthick | exact Hpx].
Defined.

End FocusFacts.
